(** * pdfgen: a shallow embedding of [pdfgen.py] and its verified properties

    The development follows the layout of the source file:
    the helpers of the Python runtime that the code calls ([str.split],
    [str.strip], [int], [bytes.replace], number formatting), then
    [hex_to_rgb], the class [Page] and the class [PDF]; after them the
    vocabulary of the statements, and the properties with their proofs.

    Conventions of the embedding.
    - A Python [str] is a [string]: its characters are the code points
      0..255, the ones [str.encode("latin1")] accepts and the only ones a page
      can carry to a saved file.
    - A Python [bytes] is a [list byte].
    - A font size is an integer and a coordinate, width or scale a float, as
      the docstrings say.  A float is a rational of [Q]: the arguments are
      finite numbers (no infinity, no NaN), arithmetic is exact and the
      rounding of the binary representation is not modelled.  A number whose
      magnitude reaches 2^1024 - 2^970 is an infinity in the source: where
      the code turns such a quotient into an integer, and where it turns an
      integer that large into a float, it raises [OverflowError], and so
      does the model.
    - An exception is a value of [exn]; a call that may raise returns a
      [result].  A method that changes its object returns the object after
      the call; a method that prints returns the lines printed.
    - The page object [add_page] returns is its index in [pages].
    - The files are a map from names to contents; opening a file for
      writing always succeeds. *)

From Stdlib Require Import QArith Qabs Strings.Ascii Strings.Byte DecimalString DecimalNat.
From stdpp Require Import gmap strings list.

Local Open Scope string_scope.
Local Open Scope Z_scope.
Local Open Scope nat_scope.
Local Open Scope list_scope.

(** ** Exceptions and results *)

Inductive exn : Type :=
| ValueError (msg : string)
| TypeError (msg : string)
| KeyError (key : string)
| ZeroDivisionError
| OverflowError (msg : string)
| FileNotFoundError (msg : string).

Inductive result (A : Type) : Type :=
| Ok (a : A)
| Raise (e : exn).

Arguments Ok {A} a.
Arguments Raise {A} e.

(** Sequencing of calls that may raise: [x ← r; k] runs [k] on the value of
    [r] and propagates the exception of [r]. *)
#[global] Instance result_ret : MRet result := fun A a => Ok a.
#[global] Instance result_bind : MBind result := fun A B k r =>
  match r with
  | Ok a => k a
  | Raise e => Raise e
  end.

(** ** The Python runtime: [str] *)

Module PyStr.

Definition nl : string := String "010"%char "".

(** [str.isspace] on one character of the Latin-1 range: TAB..CR,
    FS..US, space, NEL and NBSP. *)
Definition isspace (c : ascii) : bool :=
  let n := nat_of_ascii c in
  ((9 <=? n) && (n <=? 13)) || ((28 <=? n) && (n <=? 32))
  || (n =? 133) || (n =? 160).

Definition nonempty (s : string) : bool :=
  match s with "" => false | _ => true end.

(** [s.lstrip()] *)
Fixpoint lstrip (s : string) : string :=
  match s with
  | "" => ""
  | String c s' => if isspace c then lstrip s' else s
  end.

(** [s.rstrip()] *)
Fixpoint rstrip (s : string) : string :=
  match s with
  | "" => ""
  | String c s' =>
      let r := rstrip s' in
      if negb (nonempty r) && isspace c then "" else String c r
  end.

(** [s.strip()] *)
Definition strip (s : string) : string := rstrip (lstrip s).

(** [s.split()]: the maximal runs of characters that are not whitespace,
    [cur] being the run read so far. *)
Fixpoint split_from (cur : string) (s : string) : list string :=
  match s with
  | "" => if nonempty cur then [cur] else []
  | String c s' =>
      if isspace c
      then (if nonempty cur then cur :: split_from "" s' else split_from "" s')
      else split_from (cur +:+ String c "") s'
  end.

Definition split (s : string) : list string := split_from "" s.

(** [len(s)] as a Python integer *)
Definition len (s : string) : Z := Z.of_nat (String.length s).

(** [c.lower()] on one character of the Latin-1 range. *)
Definition lower_char (c : ascii) : ascii :=
  let n := nat_of_ascii c in
  if ((65 <=? n) && (n <=? 90))
     || ((192 <=? n) && (n <=? 222) && negb (n =? 215))
  then ascii_of_nat (n + 32) else c.

(** [s.lower()] *)
Fixpoint lower (s : string) : string :=
  match s with
  | "" => ""
  | String c s' => String (lower_char c) (lower s')
  end.

(** [s.startswith(c)] for a one-character prefix *)
Definition startswith_char (c : ascii) (s : string) : bool :=
  match s with
  | String c' _ => Ascii.eqb c' c
  | "" => false
  end.

(** [s.lstrip(c)] for a one-character set *)
Fixpoint lstrip_char (c : ascii) (s : string) : string :=
  match s with
  | "" => ""
  | String c' s' => if Ascii.eqb c' c then lstrip_char c s' else s
  end.

(** [s.replace(c, "")] for a one-character pattern *)
Fixpoint remove_char (c : ascii) (s : string) : string :=
  match s with
  | "" => ""
  | String c' s' =>
      if Ascii.eqb c' c then remove_char c s' else String c' (remove_char c s')
  end.

(** [sep.join(l)] *)
Fixpoint join (sep : string) (l : list string) : string :=
  match l with
  | [] => ""
  | [x] => x
  | x :: rest => x +:+ sep +:+ join sep rest
  end.

(** ["".join(c * 2 for c in s)] *)
Fixpoint double_chars (s : string) : string :=
  match s with
  | "" => ""
  | String c s' => String c (String c (double_chars s'))
  end.

(** [s[i:j]] for [0 <= i <= j] *)
Definition slice (i j : nat) (s : string) : string := String.substring i (j - i) s.

End PyStr.

(** ** The Python runtime: numbers *)

Module PyNum.
Import PyStr.

(** [int(x)] of a float: truncation towards zero. *)
Definition int (x : Q) : Z := Z.quot (Qnum x) (Z.pos (Qden x)).

(** [x == 0] *)
Definition is_zero (x : Q) : bool := Qeq_bool x 0.

(** The magnitude from which a number has no finite binary64 value: it
    rounds to an infinity. *)
Definition float_limit : Z := (2 ^ 1024 - 2 ^ 970)%Z.

Definition float_overflows (x : Q) : bool :=
  Qle_bool (inject_Z float_limit) (Qabs x).

(** [float(n)], the conversion that [0.5 * n] makes of an integer [n]. *)
Definition float_of_int (n : Z) : result Q :=
  if float_overflows (inject_Z n)
  then Raise (OverflowError "int too large to convert to float")
  else Ok (inject_Z n).

(** [int(x)] of a float [x] that can be an infinity. *)
Definition int_of_float (x : Q) : result Z :=
  if float_overflows x
  then Raise (OverflowError "cannot convert float infinity to integer")
  else Ok (int x).

(** [str(n)] of an integer, also what [f"{n}"] prints. *)
Definition str_nat (n : nat) : string := NilEmpty.string_of_uint (Nat.to_uint n).
Definition str_int (n : Z) : string := NilEmpty.string_of_int (Z.to_int n).

Fixpoint zeros (k : nat) : string :=
  match k with
  | O => ""
  | S k' => String "0" (zeros k')
  end.

(** [digits.rjust(w, "0")] *)
Definition zfill (w : nat) (digits : string) : string :=
  zeros (w - String.length digits) +:+ digits.

(** [f"{n:010d}"] of a non-negative integer *)
Definition fmt_010d (n : nat) : string := zfill 10 (str_nat n).

(** The integer nearest to [a / b] for [0 <= a], ties to the even one:
    the rounding of the fixed-point formats. *)
Definition round_half_even (a : Z) (b : positive) : Z :=
  let q := (a / Z.pos b)%Z in
  let r := (a mod Z.pos b)%Z in
  match (2 * r ?= Z.pos b)%Z with
  | Lt => q
  | Gt => (q + 1)%Z
  | Eq => if Z.even q then q else (q + 1)%Z
  end.

(** [f"{x:.df}"]: sign, integer part, and [d] decimals after a point. *)
Definition fmt_fixed (d : nat) (x : Q) : string :=
  let scaled := (Z.abs (Qnum x) * 10 ^ Z.of_nat d)%Z in
  let n := round_half_even scaled (Qden x) in
  let digits := zfill (S d) (str_nat (Z.to_nat n)) in
  let cut := String.length digits - d in
  let sign := if (Qnum x <? 0)%Z then "-" else "" in
  let frac := String.substring cut d digits in
  sign +:+ String.substring 0 cut digits +:+
    (match d with O => "" | _ => "." +:+ frac end).

(** Value of a hexadecimal digit. *)
Definition hexval (c : ascii) : option Z :=
  let n := nat_of_ascii c in
  if (48 <=? n) && (n <=? 57) then Some (Z.of_nat (n - 48))
  else if (97 <=? n) && (n <=? 102) then Some (Z.of_nat (n - 87))
  else if (65 <=? n) && (n <=? 70) then Some (Z.of_nat (n - 55))
  else None.

(** The whitespace [int] skips around a literal: the ASCII blanks, and the
    two Latin-1 spaces that the conversion first turns into blanks. *)
Definition int_space (c : ascii) : bool :=
  let n := nat_of_ascii c in
  ((9 <=? n) && (n <=? 13)) || (n =? 32) || (n =? 133) || (n =? 160).

Fixpoint skip_int_space (s : string) : string :=
  match s with
  | "" => ""
  | String c s' => if int_space c then skip_int_space s' else s
  end.

(** The digits of a literal: hexadecimal digits, single underscores between
    them.  [prev] is the character read last. *)
Fixpoint scan_digits (acc : Z) (prev : option ascii) (s : string)
    : option (Z * string) :=
  let finish (rest : string) :=
    match prev with
    | None => None
    | Some p => if Ascii.eqb p "_" then None else Some (acc, rest)
    end in
  match s with
  | "" => finish ""
  | String c s' =>
      if Ascii.eqb c "_" then
        match prev with
        | Some p => if Ascii.eqb p "_" then None
                    else scan_digits acc (Some c) s'
        | None => scan_digits acc (Some c) s'
        end
      else
        match hexval c with
        | Some v => scan_digits (16 * acc + v)%Z (Some c) s'
        | None => finish s
        end
  end.

(** [int(s, 16)] *)
Definition int16 (s : string) : result Z :=
  let bad := Raise (ValueError ("invalid literal for int() with base 16: '" +:+ s +:+ "'")) in
  let s1 := skip_int_space s in
  let '(neg, s2) :=
    match s1 with
    | String "+" r => (false, r)
    | String "-" r => (true, r)
    | _ => (false, s1)
    end in
  let s3 :=
    match s2 with
    | String "0" (String "x" r) | String "0" (String "X" r) =>
        match r with
        | String "_" r' => r'
        | _ => r
        end
    | _ => s2
    end in
  if startswith_char "_" s3 then bad else
  match scan_digits 0 None s3 with
  | None => bad
  | Some (v, rest) =>
      match skip_int_space rest with
      | "" => Ok (if neg then - v else v)%Z
      | _ => bad
      end
  end.

End PyNum.

(** ** The Python runtime: [bytes] *)

Abbreviation bytes := (list byte).

Module PyBytes.

#[global] Instance byte_eq_dec : EqDecision byte :=
  fun x y =>
    match Byte.eqb x y as b return Byte.eqb x y = b -> Decision (x = y) with
    | true => fun E => left (byte_dec_bl x y E)
    | false => fun E => right (eqb_false E)
    end eq_refl.

(** [s.encode("latin1")] on the code points 0..255 *)
Definition encode_latin1 (s : string) : bytes := String.list_byte_of_string s.

(** The UTF-8 encoding of one code point below 256. *)
Definition utf8_char (c : ascii) : bytes :=
  let n := nat_of_ascii c in
  if n <? 128 then [byte_of_ascii c]
  else [byte_of_ascii (ascii_of_nat (192 + n / 64));
        byte_of_ascii (ascii_of_nat (128 + n mod 64))].

(** [s.encode()] *)
Fixpoint encode (s : string) : bytes :=
  match s with
  | "" => []
  | String c s' => utf8_char c ++ encode s'
  end.

(** [data.startswith(pat)] *)
Fixpoint starts_with (pat data : bytes) : bool :=
  match pat, data with
  | [], _ => true
  | p :: pat', d :: data' => Byte.eqb p d && starts_with pat' data'
  | _ :: _, [] => false
  end.

(** [pat in data] *)
Fixpoint contains (pat data : bytes) : bool :=
  starts_with pat data ||
  match data with
  | [] => false
  | _ :: rest => contains pat rest
  end.

(** The scan of [data.replace(old, new)] for a non-empty [old]: the
    occurrences are taken from the left and do not overlap; [skip] counts
    the bytes of the occurrence being replaced that are still to pass. *)
Fixpoint replace_from (old new : bytes) (skip : nat) (data : bytes) : bytes :=
  match data with
  | [] => []
  | c :: rest =>
      match skip with
      | S k => replace_from old new k rest
      | O =>
          if starts_with old data
          then new ++ replace_from old new (length old - 1) rest
          else c :: replace_from old new 0 rest
      end
  end.

(** [data.replace(old, new)] *)
Definition replace (old new data : bytes) : bytes :=
  match old with
  | [] => new ++ flat_map (fun c => c :: new) data
  | _ => replace_from old new 0 data
  end.

End PyBytes.

(** ** [hex_to_rgb] *)

Import PyStr.

(** [hex_to_rgb(hex_color)] *)
Definition hex_to_rgb (hex_color : string) : result (Z * Z * Z) :=
  let hex_color := lstrip_char "#" (strip hex_color) in
  let hex_color :=
    if String.length hex_color =? 3 then double_chars hex_color else hex_color in
  if negb (String.length hex_color =? 6)
  then Raise (ValueError ("Invalid hex color: " +:+ hex_color))
  else
    r ← PyNum.int16 (slice 0 2 hex_color);
    g ← PyNum.int16 (slice 2 4 hex_color);
    b ← PyNum.int16 (slice 4 6 hex_color);
    Ok (r, g, b).

(** ** class Page *)

(** A colour argument: a string (a name or a hex string) or a tuple or
    list of numbers. *)
Inductive color_arg : Type :=
| ColorStr (s : string)
| ColorSeq (l : list Q).

Record Link : Type := MkLink {
  link_x : Q;
  link_y : Q;
  link_w : Q;
  link_h : Q;
  link_uri : string
}.

Record ImageElement : Type := MkImageElement {
  ie_name : string;
  ie_x : Q;
  ie_y : Q;
  ie_w : option Q;
  ie_h : option Q;
  ie_scale : Q;
  ie_caption : option string
}.

Record Page : Type := MkPage {
  width : Q;
  height : Q;
  padding_h : Q;
  padding_v : Q;
  text_elements : list string;
  image_elements : list ImageElement;
  image_usages : list (string * option nat);
  links : list Link
}.

Module PageImpl.

(** [Page.color_MAP] *)
Definition color_MAP_items : list (string * (Z * Z * Z)) :=
  [ ("black", (0, 0, 0)); ("white", (255, 255, 255)); ("red", (255, 0, 0));
    ("green", (0, 128, 0)); ("blue", (0, 0, 255)); ("yellow", (255, 255, 0));
    ("cyan", (0, 255, 255)); ("magenta", (255, 0, 255));
    ("gray", (128, 128, 128)); ("orange", (255, 165, 0));
    ("purple", (128, 0, 128)); ("pink", (255, 192, 203));
    ("brown", (139, 69, 19)); ("navy", (0, 0, 128)); ("teal", (0, 128, 128));
    ("olive", (128, 128, 0)); ("maroon", (128, 0, 0)); ("gold", (255, 215, 0));
    ("lime", (0, 255, 0)) ]%Z.

Definition color_MAP : gmap string (Z * Z * Z) := list_to_map color_MAP_items.

(** [Page.__init__] *)
Definition init (w h padding_horizontal padding_vertical : Q) : Page :=
  {| width := w; height := h;
     padding_h := padding_horizontal; padding_v := padding_vertical;
     text_elements := []; image_elements := [];
     image_usages := []; links := [] |}.

(** The loop of [wrap_text]: the state is [(lines, current_line)]. *)
Fixpoint wrap_loop (max_chars : Z) (words : list string)
    (lines : list string) (current_line : string) : list string * string :=
  match words with
  | [] => (lines, current_line)
  | word :: rest =>
      let test_line := strip (current_line +:+ " " +:+ word) in
      if (len test_line <=? max_chars)%Z
      then wrap_loop max_chars rest lines test_line
      else wrap_loop max_chars rest (lines ++ [current_line]) word
  end.

(** [Page.wrap_text] *)
Definition wrap_text (self : Page) (text : string) (max_width : Q)
    (font_size : Z) : result (list string) :=
  size ← PyNum.float_of_int font_size;
  let avg_char_width := ((1 # 2) * size)%Q in
  if PyNum.is_zero avg_char_width then Raise ZeroDivisionError else
  max_chars ← PyNum.int_of_float (max_width / avg_char_width)%Q;
  let words := split text in
  let '(lines, current_line) := wrap_loop max_chars words [] "" in
  Ok (if nonempty current_line then lines ++ [current_line] else lines).

(** [parse_color], the local function of [add_text] *)
Definition parse_color (c : color_arg) : result (Q * Q * Q) :=
  match c with
  | ColorStr c =>
      if startswith_char "#" c then
        '(r, g, b) ← hex_to_rgb c;
        Ok (inject_Z r, inject_Z g, inject_Z b)
      else
        match color_MAP !! lower c with
        | Some (r, g, b) => Ok (inject_Z r, inject_Z g, inject_Z b)
        | None => Raise (ValueError ("Unknown color: " +:+ c))
        end
  | ColorSeq [r; g; b] => Ok (r, g, b)
  | ColorSeq _ => Raise (TypeError "color must be name, hex string, or (R,G,B) tuple")
  end.

(** [max(0, min(255, int(c))) / 255] *)
Definition normalize (c : Q) : Q :=
  (inject_Z (Z.max 0 (Z.min 255 (PyNum.int c))) / 255)%Q.

(** [[max(0, min(255, int(c))) / 255 for c in parse_color(color)]] *)
Definition resolve_color (c : color_arg) : result (Q * Q * Q) :=
  '(r, g, b) ← parse_color c;
  Ok (normalize r, normalize g, normalize b).

(** Truth value of an argument in an [if]. *)
Definition truthy_color (c : option color_arg) : bool :=
  match c with
  | None => false
  | Some (ColorStr s) => nonempty s
  | Some (ColorSeq l) => match l with [] => false | _ => true end
  end.

Definition truthy_num (x : option Q) : bool :=
  match x with
  | None => false
  | Some q => negb (PyNum.is_zero q)
  end.

Definition truthy_str (s : option string) : bool :=
  match s with
  | None => false
  | Some s => nonempty s
  end.

Definition f3 : Q -> string := PyNum.fmt_fixed 3.
Definition f2 : Q -> string := PyNum.fmt_fixed 2.
Definition f1 : Q -> string := PyNum.fmt_fixed 1.

(** The key of the font variant, [font_key]. *)
Definition font_key_of (font : string) (bold italic : bool) : string :=
  let base_font := remove_char "-" font in
  if bold && italic then base_font +:+ "BoldOblique"
  else if bold then base_font +:+ "Bold"
  else if italic then base_font +:+ "Oblique"
  else base_font.

(** Geometry of line [i] of an [add_text] call. *)
Definition text_width_of (size : Z) (line : string) : Q :=
  (inject_Z (len line) * ((1 # 2) * inject_Z size))%Q.

Definition line_y_of (y : Q) (size : Z) (i : nat) : Q :=
  (y - inject_Z (Z.of_nat i) * (inject_Z size * (6 # 5)))%Q.

Definition line_x_of (x : Q) (align : string) (text_width : Q) : Q :=
  if String.eqb align "center" then (x - text_width / 2)%Q
  else if String.eqb align "right" then (x - text_width)%Q
  else x.

(** The test that guards the warning of [add_text]. *)
Definition inside_padding (self : Page) (line_x line_y text_width text_height : Q)
    : bool :=
  Qle_bool (padding_h self) line_x
  && Qle_bool line_x (width self - padding_h self - text_width)%Q
  && Qle_bool (padding_v self) line_y
  && Qle_bool line_y (height self - padding_v self - text_height)%Q.

(** One turn of the loop of [add_text], for line [i]: the page after it and
    the lines it printed.  The turn begins with [0.5 * size], which raises
    for a size that has no float. *)
Definition add_text_line (x y : Q) (size : Z) (rgb : Q * Q * Q)
    (font_ref : string) (align : string) (underline strike : bool)
    (background : option color_arg) (link : option string)
    (i : nat) (line : string) (self : Page) : result (Page * list string) :=
  let '(r, g, b) := rgb in
  _ ← PyNum.float_of_int size;
  let text_width := text_width_of size line in
  let text_height := inject_Z size in
  let line_y := line_y_of y size i in
  let line_x := line_x_of x align text_width in
  let printed :=
    if inside_padding self line_x line_y text_width text_height then []
    else [ "Warning: Text '" +:+ line +:+ "' at (" +:+ f1 line_x +:+ ", "
           +:+ f1 line_y +:+ ") may be cut off (width=" +:+ f1 text_width
           +:+ ", height=" +:+ f1 text_height
           +:+ "). Consider adjusting its position or padding." ] in
  bg_part ←
    (if truthy_color background then
       match background with
       | Some c =>
           '(br, bg, bb) ← resolve_color c;
           Ok [ f3 br +:+ " " +:+ f3 bg +:+ " " +:+ f3 bb +:+ " rg" +:+ nl
                +:+ f2 line_x +:+ " "
                +:+ f2 (line_y - (1 # 5) * inject_Z size)%Q +:+ " "
                +:+ f2 text_width +:+ " " +:+ f2 text_height +:+ " re f" ]
       | None => Ok []
       end
     else Ok []);
  let text_part :=
    [ f3 r +:+ " " +:+ f3 g +:+ " " +:+ f3 b +:+ " rg" +:+ nl +:+ "BT "
      +:+ font_ref +:+ " " +:+ PyNum.str_int size +:+ " Tf " +:+ f2 line_x
      +:+ " " +:+ f2 line_y +:+ " Td (" +:+ line +:+ ") Tj ET" ] in
  let stroke (sy : Q) :=
    f3 r +:+ " " +:+ f3 g +:+ " " +:+ f3 b +:+ " RG" +:+ nl +:+ f2 line_x
    +:+ " " +:+ f2 sy +:+ " m " +:+ f2 (line_x + text_width)%Q +:+ " "
    +:+ f2 sy +:+ " l S" in
  let underline_part :=
    if underline then [stroke (line_y - inject_Z size * (3 # 20))%Q] else [] in
  let strike_part :=
    if strike then [stroke (line_y + inject_Z size * (3 # 10))%Q] else [] in
  let stream_parts := bg_part ++ text_part ++ underline_part ++ strike_part in
  let links' :=
    if truthy_str link then
      match link with
      | Some uri =>
          links self ++ [MkLink line_x line_y text_width text_height uri]
      | None => links self
      end
    else links self in
  Ok ({| width := width self; height := height self;
         padding_h := padding_h self; padding_v := padding_v self;
         text_elements := text_elements self ++ [join nl stream_parts];
         image_elements := image_elements self;
         image_usages := image_usages self;
         links := links' |},
      printed).

(** [for i, line in enumerate(lines)], from index [i] on. *)
Fixpoint add_text_lines (step : nat -> string -> Page -> result (Page * list string))
    (i : nat) (lines : list string) (self : Page) (printed : list string)
    : result (Page * list string) :=
  match lines with
  | [] => Ok (self, printed)
  | line :: rest =>
      '(self', out) ← step i line self;
      add_text_lines step (S i) rest self' (printed ++ out)
  end.

(** [Page.add_text]: the page after the call and the warnings printed. *)
Definition add_text (self : Page) (text : string) (x y : Q) (size : Z)
    (color : color_arg) (font : string) (bold italic : bool) (align : string)
    (underline strike : bool) (background : option color_arg)
    (max_width : option Q) (link : option string)
    : result (Page * list string) :=
  rgb ← resolve_color color;
  let font_ref := "/" +:+ font_key_of font bold italic in
  lines ←
    (if truthy_num max_width then
       match max_width with
       | Some mw => wrap_text self text mw size
       | None => Ok [text]
       end
     else Ok [text]);
  add_text_lines
    (add_text_line x y size rgb font_ref align underline strike background link)
    0 lines self [].

(** [w or d] *)
Definition or_num (w : option Q) (d : Q) : Q :=
  match w with
  | Some v => if PyNum.is_zero v then d else v
  | None => d
  end.

(** [Page.add_image].  The test [name not in self.image_usages] compares a
    name with the pairs of the list, so it always holds and the usage is
    always appended. *)
Definition add_image (self : Page) (name : string) (x y : Q) (w h : option Q)
    (scale : Q) (caption : option string) : result (Page * list string) :=
  if Qle_bool scale 0 then Raise (ValueError "Scale must be a positive number")
  else
    let final_w := (or_num w 0 * scale)%Q in
    let final_h := (or_num h 0 * scale)%Q in
    let printed :=
      if negb (Qle_bool (padding_h self) x)
         || negb (Qle_bool (x + final_w) (width self - padding_h self))%Q
         || negb (Qle_bool (padding_v self) y)
         || negb (Qle_bool (y + final_h) (height self - padding_v self))%Q
      then [ "Warning: Image '" +:+ name +:+ "' at (" +:+ f1 x +:+ ", "
             +:+ f1 y +:+ ") may be cut off (w=" +:+ f1 final_w +:+ ", h="
             +:+ f1 final_h +:+ "). Adjust position or padding." ]
      else [] in
    Ok ({| width := width self; height := height self;
           padding_h := padding_h self; padding_v := padding_v self;
           text_elements := text_elements self;
           image_elements :=
             image_elements self ++ [MkImageElement name x y w h scale caption];
           image_usages := image_usages self ++ [(name, None)];
           links := links self |},
        printed).

Section Streams.
(** [str(x)] of a float, as [f"{x}"] prints it; its digits depend on the
    binary representation and are left open. *)
Variable float_str : Q -> string.

(** The body of the loop of [get_stream_bytes] for one image. *)
Definition image_stream (image_sizes : gmap string (Z * Z))
    (e : ImageElement) : result (list string) :=
  match image_sizes !! ie_name e with
  | None => Raise (ValueError ("Size not found for image " +:+ ie_name e))
  | Some (img_w, img_h) =>
      let final_w := (or_num (ie_w e) (inject_Z img_w) * ie_scale e)%Q in
      let final_h := (or_num (ie_h e) (inject_Z img_h) * ie_scale e)%Q in
      let draw :=
        "q " +:+ float_str final_w +:+ " 0 0 " +:+ float_str final_h +:+ " "
        +:+ float_str (ie_x e) +:+ " " +:+ float_str (ie_y e) +:+ " cm /"
        +:+ ie_name e +:+ " Do Q" in
      if truthy_str (ie_caption e) then
        match ie_caption e with
        | Some caption =>
            let text_width := (10 * inject_Z (len caption) * (1 # 2))%Q in
            let caption_x := (ie_x e + (final_w - text_width) / 2)%Q in
            let caption_y := (ie_y e - 12)%Q in
            Ok [ draw;
                 "0 0 0 rg" +:+ nl +:+ "BT /Helvetica 10 Tf " +:+ f2 caption_x
                 +:+ " " +:+ f2 caption_y +:+ " Td (" +:+ caption +:+ ") Tj ET" ]
        | None => Ok [draw]
        end
      else Ok [draw]
  end.

Fixpoint image_streams (image_sizes : gmap string (Z * Z))
    (elems : list ImageElement) : result (list string) :=
  match elems with
  | [] => Ok []
  | e :: rest =>
      cmds ← image_stream image_sizes e;
      more ← image_streams image_sizes rest;
      Ok (cmds ++ more)
  end.

(** [Page.get_stream_bytes] *)
Definition get_stream_bytes (self : Page) (image_sizes : gmap string (Z * Z))
    : result bytes :=
  streams ← image_streams image_sizes (image_elements self);
  Ok (PyBytes.encode_latin1 (join nl (text_elements self ++ streams))).

End Streams.

End PageImpl.

(** ** class PDF *)

(** What the image library gives for a file: the pixel size, the raw RGB
    bytes of [tobytes()] and the bytes of the JPEG encoding at quality 85. *)
Record DecodedImage : Type := MkDecodedImage {
  img_size : Z * Z;
  img_tobytes : bytes;
  img_jpeg : bytes
}.

Record PDF : Type := MkPDF {
  pages : list Page;
  objects : list (nat * bytes);
  images : gmap string (DecodedImage * nat * Z * Z);
  page_dimensions : list (Q * Q)
}.

Module PDFImpl.
Import PyNum PyBytes PageImpl.

(** [PDF.STANDARD_SIZES] *)
Definition STANDARD_SIZES : gmap string (Q * Q) :=
  list_to_map [ ("A4", (59528 # 100, 84189 # 100)%Q);
                ("A3", (84189 # 100, 119055 # 100)%Q) ].

(** [PDF.__init__] *)
Definition init : PDF :=
  {| pages := []; objects := []; images := ∅; page_dimensions := [] |}.

(** [c.upper()] on the letters a..z; the other characters cannot produce a
    key of [STANDARD_SIZES] and are kept. *)
Definition upper_char (c : ascii) : ascii :=
  let n := nat_of_ascii c in
  if (97 <=? n) && (n <=? 122) then ascii_of_nat (n - 32) else c.

Fixpoint upper (s : string) : string :=
  match s with
  | "" => ""
  | String c s' => String (upper_char c) (upper s')
  end.

(** [PDF.add_page]: the document after the call and the index of the new
    page in [pages], which stands for the page object returned. *)
Definition add_page (self : PDF) (page_size orientation : string)
    (width height : option Q) (padding_horizontal padding_vertical : Q)
    : PDF * nat :=
  let '(w, h) :=
    match width, height with
    | Some w, Some h => (w, h)
    | _, _ =>
        let '(w, h) := default (612, 792)%Q (STANDARD_SIZES !! upper page_size) in
        if String.eqb (lower orientation) "landscape" then (h, w) else (w, h)
    end in
  ({| pages := pages self ++ [PageImpl.init w h padding_horizontal padding_vertical];
      objects := objects self;
      images := images self;
      page_dimensions := page_dimensions self ++ [(w, h)] |},
   length (pages self)).

(** A call of a method on the page of index [i], an index [add_page]
    returned: the page is changed in place in [pages].  (No call of the source
    has another index; the model raises for one.) *)
Definition on_page (self : PDF) (i : nat)
    (method : Page -> result (Page * list string)) : result (PDF * list string) :=
  match pages self !! i with
  | None => Raise (ValueError "no such page")
  | Some page =>
      '(page', printed) ← method page;
      Ok ({| pages := <[i := page']> (pages self);
             objects := objects self;
             images := images self;
             page_dimensions := page_dimensions self |},
          printed)
  end.

(** [PDF.add_object] *)
Definition add_object (self : PDF) (content : bytes) : PDF * nat :=
  let obj_number := length (objects self) + 1 in
  ({| pages := pages self;
      objects := objects self ++ [(obj_number, content)];
      images := images self;
      page_dimensions := page_dimensions self |},
   obj_number).

Section Embed.
(** [Image.open(img_path).convert("RGB")]: the decoded image, or nothing
    when the file does not exist. *)
Variable open_image : string -> option DecodedImage.

(** [PDF.embed_image] *)
Definition embed_image (self : PDF) (img_path : string) (compress : bool)
    : result (PDF * (string * nat * Z * Z)) :=
  match open_image img_path with
  | None => Raise (FileNotFoundError ("Image file '" +:+ img_path +:+ "' not found."))
  | Some img =>
      let '(width, height) := img_size img in
      let image_stream :=
        if compress then
          let img_data := img_jpeg img in
          encode ("<< /Type /XObject /Subtype /Image /Width " +:+ str_int width
                  +:+ " /Height " +:+ str_int height
                  +:+ " /ColorSpace /DeviceRGB /BitsPerComponent 8 "
                  +:+ "/Filter /DCTDecode /Length " +:+ str_nat (length img_data)
                  +:+ " >>" +:+ nl)
          ++ encode ("stream" +:+ nl) ++ img_data ++ encode (nl +:+ "endstream")
        else
          let img_data := img_tobytes img in
          encode ("<< /Type /XObject /Subtype /Image /Width " +:+ str_int width
                  +:+ " /Height " +:+ str_int height
                  +:+ " /ColorSpace /DeviceRGB /BitsPerComponent 8 /Length "
                  +:+ str_nat (length img_data) +:+ " >>" +:+ nl)
          ++ encode ("stream" +:+ nl) ++ img_data ++ encode (nl +:+ "endstream") in
      let '(self1, obj_num) := add_object self image_stream in
      let name := "Im" +:+ str_nat obj_num in
      Ok ({| pages := pages self1;
             objects := objects self1;
             images := <[name := (img, obj_num, width, height)]> (images self1);
             page_dimensions := page_dimensions self1 |},
          (name, obj_num, width, height))
  end.
End Embed.

(** The placeholder a page object carries for the number of the page tree. *)
Definition placeholder : bytes := encode "{pages}".

(** [font_map] of [save], in the order of its items. *)
Definition font_map : list (string * string) :=
  [ ("Helvetica", "Helvetica"); ("HelveticaBold", "Helvetica-Bold");
    ("HelveticaOblique", "Helvetica-Oblique");
    ("HelveticaBoldOblique", "Helvetica-BoldOblique") ].

(** The font objects of [save]: one [add_object] per item of [font_map]. *)
Fixpoint add_fonts (self : PDF) (items : list (string * string))
    : PDF * list (string * nat) :=
  match items with
  | [] => (self, [])
  | (k, v) :: rest =>
      let '(self1, n) :=
        add_object self
          (encode ("<< /Type /Font /Subtype /Type1 /Name /" +:+ k
                   +:+ " /BaseFont /" +:+ v +:+ " >>")) in
      let '(self2, more) := add_fonts self1 rest in
      (self2, (k, n) :: more)
  end.

(** The loop of [save] over the usages of one page: every name gets the
    number of its image object, or the call raises. *)
Fixpoint resolve_usages (image_objs : gmap string nat)
    (usages : list (string * option nat)) : result (list (string * option nat)) :=
  match usages with
  | [] => Ok []
  | (name, _) :: rest =>
      match image_objs !! name with
      | None => Raise (ValueError ("Image object for " +:+ name +:+ " not found."))
      | Some obj_num =>
          rest' ← resolve_usages image_objs rest;
          Ok ((name, Some obj_num) :: rest')
      end
  end.

Definition resolve_page (image_objs : gmap string nat) (page : Page) : result Page :=
  usages ← resolve_usages image_objs (image_usages page);
  Ok {| width := width page; height := height page;
        padding_h := padding_h page; padding_v := padding_v page;
        text_elements := text_elements page;
        image_elements := image_elements page;
        image_usages := usages;
        links := links page |}.

Fixpoint resolve_pages (image_objs : gmap string nat) (ps : list Page)
    : result (list Page) :=
  match ps with
  | [] => Ok []
  | page :: rest =>
      page' ← resolve_page image_objs page;
      rest' ← resolve_pages image_objs rest;
      Ok (page' :: rest')
  end.

(** [w or image_sizes[name][0]]: the table is read only when [w] is
    missing or zero. *)
Definition or_image_width (w : option Q) (image_sizes : gmap string (Z * Z))
    (name : string) : result Q :=
  let lookup :=
    match image_sizes !! name with
    | Some (img_w, _) => Ok (inject_Z img_w)
    | None => Raise (KeyError name)
    end in
  match w with
  | Some v => if PyNum.is_zero v then lookup else Ok v
  | None => lookup
  end.

(** The caption [save] appends to the stream of a page for one image. *)
Definition caption_cmd (image_sizes : gmap string (Z * Z)) (e : ImageElement)
    : result bytes :=
  if truthy_str (ie_caption e) then
    match ie_caption e with
    | Some caption =>
        let text_width := (10 * inject_Z (len caption) * (1 # 2))%Q in
        w ← or_image_width (ie_w e) image_sizes (ie_name e);
        let caption_x := (ie_x e + (w * ie_scale e - text_width) / 2)%Q in
        let caption_y := (ie_y e - 12)%Q in
        Ok (encode (nl +:+ "0 0 0 rg" +:+ nl +:+ "BT /Helvetica 10 Tf "
                    +:+ f2 caption_x +:+ " " +:+ f2 caption_y
                    +:+ " Td (" +:+ caption +:+ ") Tj ET"))
    | None => Ok []
    end
  else Ok [].

Fixpoint caption_cmds (image_sizes : gmap string (Z * Z))
    (elems : list ImageElement) : result bytes :=
  match elems with
  | [] => Ok []
  | e :: rest =>
      cmd ← caption_cmd image_sizes e;
      more ← caption_cmds image_sizes rest;
      Ok (cmd ++ more)
  end.

(** The page number [save] appends to the stream of page [idx]. *)
Definition page_number_cmd (page : Page) (idx : nat) : bytes :=
  let number_text := str_nat (idx + 1) in
  let text_width := (10 * inject_Z (len number_text) * (1 # 2))%Q in
  let x := ((width page - text_width) / 2)%Q in
  encode (nl +:+ "0 0 0 rg" +:+ nl +:+ "BT /Helvetica 10 Tf " +:+ f2 x +:+ " "
          +:+ f2 15 +:+ " Td (" +:+ number_text +:+ ") Tj ET").

(** The object that wraps the stream of a page. *)
Definition stream_object (stream : bytes) : bytes :=
  encode ("<< /Length " +:+ str_nat (length stream) +:+ " >>" +:+ nl
          +:+ "stream" +:+ nl)
  ++ stream ++ encode (nl +:+ "endstream").

Section Save.
Variable float_str : Q -> string.

(** The content stream of page [idx], before it is wrapped. *)
Definition page_stream (image_sizes : gmap string (Z * Z))
    (show_page_numbers : bool) (idx : nat) (page : Page) : result bytes :=
  stream ← get_stream_bytes float_str page image_sizes;
  captions ← caption_cmds image_sizes (image_elements page);
  Ok (stream ++ captions
      ++ (if show_page_numbers then page_number_cmd page idx else [])).

(** The first loop of [save] over the pages, from page [idx] on: one
    stream object per page. *)
Fixpoint add_content_objects (image_sizes : gmap string (Z * Z))
    (show_page_numbers : bool) (idx : nat) (ps : list Page) (self : PDF)
    : result (PDF * list nat) :=
  match ps with
  | [] => Ok (self, [])
  | page :: rest =>
      stream ← page_stream image_sizes show_page_numbers idx page;
      let '(self1, stream_obj) := add_object self (stream_object stream) in
      '(self2, more) ←
        add_content_objects image_sizes show_page_numbers (S idx) rest self1;
      Ok (self2, stream_obj :: more)
  end.

(** [f"{obj_num}"] of a usage *)
Definition str_obj_num (o : option nat) : string :=
  match o with
  | Some n => str_nat n
  | None => "None"
  end.

(** The annotation object of a link. *)
Definition annot_object (l : Link) : bytes :=
  encode ("<< /Type /Annot /Subtype /Link /Rect [" +:+ f2 (link_x l) +:+ " "
          +:+ f2 (link_y l) +:+ " " +:+ f2 (link_x l + link_w l)%Q +:+ " "
          +:+ f2 (link_y l + link_h l)%Q +:+ "] "
          +:+ "/Border [0 0 0] /A << /S /URI /URI (" +:+ link_uri l
          +:+ ") >> >>").

(** The loop of [save] over the links of a page. *)
Fixpoint add_annotations (ls : list Link) (self : PDF) : PDF * list string :=
  match ls with
  | [] => (self, [])
  | l :: rest =>
      let '(self1, annot_obj) := add_object self (annot_object l) in
      let '(self2, more) := add_annotations rest self1 in
      (self2, (str_nat annot_obj +:+ " 0 R") :: more)
  end.

(** The page object, with the placeholder for its parent. *)
Definition page_object (font_objs : list (string * nat)) (page : Page)
    (content_ref : nat) (annotations : list string) : bytes :=
  let font_resource_str :=
    join " " (map (fun '(k, v) => "/" +:+ k +:+ " " +:+ str_nat v +:+ " 0 R")
                  font_objs) in
  let xobj_str :=
    match image_usages page with
    | [] => ""
    | usages =>
        "/XObject << "
        +:+ join " " (map (fun '(name, obj_num) =>
                             "/" +:+ name +:+ " " +:+ str_obj_num obj_num
                             +:+ " 0 R") usages)
        +:+ " >>"
    end in
  let annots_str :=
    match annotations with
    | [] => ""
    | _ => "/Annots [" +:+ join " " annotations +:+ "]"
    end in
  let resource_str :=
    "/Font << " +:+ font_resource_str +:+ " >>"
    +:+ (if nonempty xobj_str then " " +:+ xobj_str else "") in
  encode ("<< /Type /Page /Parent {pages} 0 R /Resources << " +:+ resource_str
          +:+ " >> " +:+ "/Contents " +:+ str_nat content_ref
          +:+ " 0 R /MediaBox [0 0 " +:+ f2 (width page) +:+ " "
          +:+ f2 (height page) +:+ "] " +:+ annots_str +:+ " >>").

(** The second loop of [save]: for [i, content_ref] in
    [enumerate(content_obj_nums)], the annotations of page [i] and then
    its page object. *)
Fixpoint add_page_objects (font_objs : list (string * nat))
    (ps : list Page) (content_obj_nums : list nat) (self : PDF)
    : PDF * list nat :=
  match content_obj_nums, ps with
  | content_ref :: refs, page :: rest =>
      let '(self1, annotations) := add_annotations (links page) self in
      let '(self2, page_obj) :=
        add_object self1 (page_object font_objs page content_ref annotations) in
      let '(self3, more) := add_page_objects font_objs rest refs self2 in
      (self3, page_obj :: more)
  | _, _ => (self, [])
  end.

(** The page tree object. *)
Definition pages_object (page_obj_nums : list nat) : bytes :=
  encode ("<< /Type /Pages /Kids ["
          +:+ join " " (map (fun num => str_nat num +:+ " 0 R") page_obj_nums)
          +:+ "] /Count " +:+ str_nat (length page_obj_nums) +:+ " >>").

(** The pass that puts the number of the page tree in place of the
    placeholder, in every object. *)
Definition fix_object (pages_obj : nat) (o : nat * bytes) : nat * bytes :=
  let '(obj_number, data) := o in
  if contains placeholder data
  then (obj_number, replace placeholder (encode (str_nat pages_obj)) data)
  else (obj_number, data).

(** The catalog object. *)
Definition catalog_object (pages_obj : nat) : bytes :=
  encode ("<< /Type /Catalog /Pages " +:+ str_nat pages_obj +:+ " 0 R >>").

(** [save] up to the point where the file is opened: the document with
    its final objects, and the number of the catalog. *)
Definition finalize (self : PDF) (show_page_numbers : bool)
    : result (PDF * nat) :=
  let '(self, font_objs) := add_fonts self font_map in
  let image_objs : gmap string nat :=
    (fun '(_, obj_num, _, _) => obj_num) <$> images self in
  let image_sizes : gmap string (Z * Z) :=
    (fun '(_, _, w, h) => (w, h)) <$> images self in
  pages' ← resolve_pages image_objs (pages self);
  let self :=
    {| pages := pages'; objects := objects self; images := images self;
       page_dimensions := page_dimensions self |} in
  '(self, content_obj_nums) ←
    add_content_objects image_sizes show_page_numbers 0 (pages self) self;
  let '(self, page_obj_nums) :=
    add_page_objects font_objs (pages self) content_obj_nums self in
  let '(self, pages_obj) := add_object self (pages_object page_obj_nums) in
  let self :=
    {| pages := pages self;
       objects := map (fix_object pages_obj) (objects self);
       images := images self;
       page_dimensions := page_dimensions self |} in
  let '(self, catalog_obj) := add_object self (catalog_object pages_obj) in
  Ok (self, catalog_obj).

(** The header [save] writes before object [obj_number]. *)
Definition obj_header (obj_number : nat) : bytes :=
  encode (str_nat obj_number +:+ " 0 obj" +:+ nl).

(** The loop that writes the objects: [f] is the content of the file so
    far, [f.tell()] its length, and every [f.write] appends. *)
Fixpoint write_objects (objs : list (nat * bytes)) (f : bytes)
    (offsets : list nat) : bytes * list nat :=
  match objs with
  | [] => (f, offsets)
  | (obj_number, content) :: rest =>
      let offsets := offsets ++ [length f] in
      let f := f ++ obj_header obj_number in
      let f := f ++ content in
      let f := f ++ encode (nl +:+ "endobj" +:+ nl) in
      write_objects rest f offsets
  end.

(** One line of the cross-reference table. *)
Definition xref_entry (offset : nat) : bytes :=
  encode (fmt_010d offset +:+ " 00000 n " +:+ nl).

(** The cross-reference table, written after the objects. *)
Definition xref_section (offsets : list nat) : bytes :=
  encode ("xref" +:+ nl +:+ "0 " +:+ str_nat (length offsets) +:+ nl)
  ++ encode ("0000000000 65535 f " +:+ nl)
  ++ flat_map xref_entry (tail offsets).

(** The trailer, written last. *)
Definition trailer_section (offsets : list nat) (catalog_obj xref_offset : nat)
    : bytes :=
  encode ("trailer" +:+ nl)
  ++ encode ("<< /Size " +:+ str_nat (length offsets) +:+ " /Root "
             +:+ str_nat catalog_obj +:+ " 0 R >>" +:+ nl)
  ++ encode ("startxref" +:+ nl)
  ++ encode (str_nat xref_offset +:+ nl)
  ++ encode ("%%EOF" +:+ nl).

(** The body of [with open(filename, "wb") as f]: the bytes of the file
    when it is closed. *)
Definition write_file (objs : list (nat * bytes)) (catalog_obj : nat) : bytes :=
  let f := encode ("%PDF-1.4" +:+ nl) in
  let '(f, offsets) := write_objects objs f [0] in
  let xref_offset := length f in
  let f := f ++ xref_section offsets in
  f ++ trailer_section offsets catalog_obj xref_offset.

(** [PDF.save]: the outcome of the call (the document after it, or the
    exception) and the files after it.  The file is opened, and so
    created or emptied, only once [finalize] has returned. *)
Definition save (self : PDF) (fs : gmap string bytes) (filename : string)
    (show_page_numbers : bool) : result PDF * gmap string bytes :=
  match finalize self show_page_numbers with
  | Raise e => (Raise e, fs)
  | Ok (self', catalog_obj) =>
      (Ok self', <[filename := write_file (objects self') catalog_obj]> fs)
  end.

End Save.

End PDFImpl.

(** * The vocabulary of the properties

    The predicates and readers the statements below are written with, and
    the documents of the examples. *)

Module Spec.
Import PyStr PyNum PyBytes PageImpl PDFImpl.

(** A string without whitespace in it. *)
Fixpoint no_space (s : string) : bool :=
  match s with
  | "" => true
  | String c s' => negb (isspace c) && no_space s'
  end.

(** The inverse reading of a run of decimal digits. *)
Definition parse_nat (s : string) : option nat :=
  match s with
  | "" => None
  | _ => Nat.of_uint <$> NilEmpty.uint_of_string s
  end.

(** The character budget of a line, [int(max_width / avg_char_width)]. *)
Definition max_chars_of (max_width : Q) (font_size : Z) : Z :=
  let avg_char_width := ((1 # 2) * inject_Z font_size)%Q in
  PyNum.int (max_width / avg_char_width)%Q.

(** The bounding rectangle [add_text] computes for line [i]. *)
Definition line_rect (x y : Q) (size : Z) (align : string) (i : nat)
    (line : string) : Q * Q * Q * Q :=
  let text_width := text_width_of size line in
  (line_x_of x align text_width, line_y_of y size i, text_width, inject_Z size).

(** The sequence of calls [add_object(c)] for [c] in [contents], with the
    numbers they return. *)
Fixpoint add_objects (self : PDF) (contents : list bytes) : PDF * list nat :=
  match contents with
  | [] => (self, [])
  | c :: rest =>
      let '(self1, n) := add_object self c in
      let '(self2, ns) := add_objects self1 rest in
      (self2, n :: ns)
  end.

(** A word, as [split] returns them: not empty, no whitespace in it. *)
Definition is_word (w : string) : Prop :=
  nonempty w = true /\ no_space w = true.

(** A string that starts with a character that is not whitespace. *)
Definition head_ok (s : string) : bool :=
  match s with
  | String c _ => negb (isspace c)
  | "" => false
  end.

(** A character that is not whitespace, somewhere in the string. *)
Fixpoint has_word_char (s : string) : bool :=
  match s with
  | "" => false
  | String c s' => negb (isspace c) || has_word_char s'
  end.

(** A page for the examples: A4, padding 50. *)
Definition a4_page : Page := PageImpl.init (59528 # 100) (84189 # 100) 50 50.

(** What [wrap_text] returns once the loop has ended. *)
Definition finish (st : list string * string) : list string :=
  if nonempty st.2 then st.1 ++ [st.2] else st.1.

(** A line within the budget, or a single word of the text that is longer
    than the budget. *)
Definition line_ok (mc : Z) (words : list string) (line : string) : Prop :=
  (len line <= mc)%Z \/ (line ∈ words /\ (mc < len line)%Z).

Definition all_ascii : list ascii := map ascii_of_nat (seq 0 256).

(** The objects of a store carry the numbers 1, 2, 3, ... in order. *)
Definition numbered (objs : list (nat * bytes)) : Prop :=
  forall k n content, objs !! k = Some (n, content) -> n = S k.

Definition is_hex_digit (c : ascii) : bool :=
  match hexval c with Some _ => true | None => false end.

Fixpoint all_hex (s : string) : bool :=
  match s with
  | "" => true
  | String c s' => is_hex_digit c && all_hex s'
  end.

(** A hex colour without its marker: three or six hexadecimal digits. *)
Definition valid_hex (h : string) : bool :=
  ((String.length h =? 3) || (String.length h =? 6)) && all_hex h.

(** The value of the two-digit literal [ab]. *)
Definition hex_pair (a b : ascii) : Z :=
  (16 * default 0 (hexval a) + default 0 (hexval b))%Z.

(** What [hex_to_rgb] does once the marker and the blanks are gone. *)
Definition hex_digits_to_rgb (h : string) : result (Z * Z * Z) :=
  let h := if String.length h =? 3 then double_chars h else h in
  if negb (String.length h =? 6)
  then Raise (ValueError ("Invalid hex color: " +:+ h))
  else
    r ← int16 (slice 0 2 h);
    g ← int16 (slice 2 4 h);
    b ← int16 (slice 4 6 h);
    Ok (r, g, b).

(** The link [add_text] records for line [i]: its bounding rectangle and the
    target. *)
Definition line_link (x y : Q) (size : Z) (align : string) (uri : string)
    (i : nat) (line : string) : Link :=
  let '(line_x, line_y, text_width, text_height) := line_rect x y size align i line in
  MkLink line_x line_y text_width text_height uri.

(** The lines an [add_text] call emits. *)
Definition emitted_lines (self : Page) (text : string) (size : Z)
    (max_width : option Q) : result (list string) :=
  if truthy_num max_width then
    match max_width with
    | Some mw => wrap_text self text mw size
    | None => Ok [text]
    end
  else Ok [text].

Definition digit_char (c : ascii) : bool :=
  let n := nat_of_ascii c in (48 <=? n) && (n <=? 57).

Fixpoint all_digits (s : string) : bool :=
  match s with
  | "" => true
  | String c s' => digit_char c && all_digits s'
  end.

Definition digit_byte (b : byte) : bool := digit_char (ascii_of_byte b).

(** The objects [add_object] makes of [contents] in a store of [base]
    objects. *)
Definition tagged (base : nat) (contents : list bytes) : list (nat * bytes) :=
  imap (fun i c => (base + i + 1, c)) contents.

(** [self'] is [self] after some calls of [add_object], the pages aside. *)
Definition grows (self self' : PDF) : Prop :=
  images self' = images self /\
  exists contents,
    objects self' = objects self ++ tagged (length (objects self)) contents.

(** The exception [save] raises for a name without image object. *)
Definition UnresolvedResource (name : string) : exn :=
  ValueError ("Image object for " +:+ name +:+ " not found.").

(** The first line of the file. *)
Definition file_header : bytes := encode ("%PDF-1.4" +:+ nl).

(** What the loop writes for one object. *)
Definition obj_bytes (o : nat * bytes) : bytes :=
  obj_header o.1 ++ o.2 ++ encode (nl +:+ "endobj" +:+ nl).

(** The positions at which the objects begin when the first begins at
    [pos]. *)
Fixpoint obj_offsets (pos : nat) (objs : list (nat * bytes)) : list nat :=
  match objs with
  | [] => []
  | o :: rest => pos :: obj_offsets (pos + length (obj_bytes o)) rest
  end.

(** The digits at the head of a line. *)
Fixpoint leading_digits (line : bytes) : bytes :=
  match line with
  | [] => []
  | b :: rest => if digit_byte b then b :: leading_digits rest else []
  end.

(** Reading an entry of the table: the number its leading digits write. *)
Definition entry_offset (entry : bytes) : option nat :=
  parse_nat (String.string_of_list_byte (leading_digits entry)).

(** [data.split(b"\n")]: the lines of a run of bytes. *)
Fixpoint lines_of (data : bytes) : list bytes :=
  match data with
  | [] => [[]]
  | b :: rest =>
      if Byte.eqb b "010"
      then [] :: lines_of rest
      else match lines_of rest with
           | l :: ls => (b :: l) :: ls
           | [] => [[b]]
           end
  end.

(** A run of bytes without a line break. *)
Definition one_line (l : bytes) : bool :=
  forallb (fun b => negb (Byte.eqb b "010")) l.

(** A string without the opening brace of the placeholder. *)
Fixpoint no_brace (s : string) : bool :=
  match s with
  | "" => true
  | String c s' => negb (Ascii.eqb c "{") && no_brace s'
  end.

(** [str(x)] for the floats of the examples, which have at most one
    decimal. *)
Definition float_str_short : Q -> string := PyNum.fmt_fixed 1.

(** A new document with one A4 page and one [add_text(text)] call with the
    default arguments. *)
Definition text_doc (text : string) : PDF :=
  let '(d, i) := add_page init "A4" "portrait" None None 50 50 in
  match on_page d i (fun p =>
          add_text p text 100 700 24 (ColorStr "black") "Helvetica" false false
            "left" false false None None None) with
  | Ok (d', _) => d'
  | Raise _ => d
  end.

(** A new document with one A4 page that places the image [name], and no
    [embed_image] call. *)
Definition image_doc (name : string) : PDF :=
  let '(d, i) := add_page init "A4" "portrait" None None 50 50 in
  match on_page d i (fun p => add_image p name 100 100 None None 1 None) with
  | Ok (d', _) => d'
  | Raise _ => d
  end.

End Spec.

(** * The vocabulary of the further properties

    What a call keeps and what it changes, the pieces of a saved document,
    and the documents a program builds with the calls. *)

Module SpecX.
Import PyStr PyNum PyBytes PageImpl PDFImpl Spec.

(** On a page built by the calls, the usages name the images placed, in
    the order of the calls. *)
Definition usages_match (p : Page) : Prop :=
  map fst (image_usages p) = map ie_name (image_elements p).

(** Two pages of the same size and padding. *)
Definition same_box (p p' : Page) : Prop :=
  width p' = width p /\ height p' = height p /\
  padding_h p' = padding_h p /\ padding_v p' = padding_v p.

(** The links a call records for [lines], the first of them being line
    [i], when it carries a target. *)
Definition links_from (x y : Q) (size : Z) (align : string) (link : option string)
    (i : nat) (lines : list string) : list Link :=
  match link with
  | Some uri =>
      if nonempty uri
      then imap (fun j => line_link x y size align uri (i + j)) lines
      else []
  | None => []
  end.

(** [image_objs] and [image_sizes] of [save]. *)
Definition image_objs_of (self : PDF) : gmap string nat :=
  (fun '(_, obj_num, _, _) => obj_num) <$> images self.

Definition image_sizes_of (self : PDF) : gmap string (Z * Z) :=
  (fun '(_, _, w, h) => (w, h)) <$> images self.

(** [p'] is [p] with every usage given the number of its image object,
    and nothing else changed. *)
Definition resolved_from (image_objs : gmap string nat) (p p' : Page) : Prop :=
  same_box p p' /\
  text_elements p' = text_elements p /\
  image_elements p' = image_elements p /\
  links p' = links p /\
  image_usages p' = map (fun u => (u.1, image_objs !! u.1)) (image_usages p).

(** The number of links of the pages. *)
Definition total_links (ps : list Page) : nat :=
  sum_list (map (fun p => length (links p)) ps).


(** [page_dimensions] lists the sizes of the pages, in their order. *)
Definition dims_match (self : PDF) : Prop :=
  page_dimensions self = map (fun p => (width p, height p)) (pages self).

(** Every entry of [images] is filed under the name made of the number of
    its object, an object of the store, with the size of the image. *)
Definition images_named (self : PDF) : Prop :=
  forall name img n w h,
    images self !! name = Some (img, n, w, h) ->
    name = "Im" +:+ str_nat n /\ 1 <= n <= length (objects self) /\
    img_size img = (w, h).

Section Built.
Variable float_str : Q -> string.
Variable open_image : string -> option DecodedImage.

(** The documents a program builds with the methods of the two classes:
    a new document, and a document after a call that has returned. *)
Inductive built : PDF -> Prop :=
| built_init : built init
| built_add_page (self : PDF) (page_size orientation : string)
    (width height : option Q) (padding_horizontal padding_vertical : Q) :
    built self ->
    built (add_page self page_size orientation width height
             padding_horizontal padding_vertical).1
| built_add_text (self self' : PDF) (i : nat) (text : string) (x y : Q) (size : Z)
    (color : color_arg) (font : string) (bold italic : bool) (align : string)
    (underline strike : bool) (background : option color_arg)
    (max_width : option Q) (link : option string) (printed : list string) :
    built self ->
    on_page self i (fun p =>
      add_text p text x y size color font bold italic align underline strike
        background max_width link) = Ok (self', printed) ->
    built self'
| built_add_image (self self' : PDF) (i : nat) (name : string) (x y : Q)
    (w h : option Q) (scale : Q) (caption : option string)
    (printed : list string) :
    built self ->
    on_page self i (fun p => add_image p name x y w h scale caption)
    = Ok (self', printed) ->
    built self'
| built_add_object (self : PDF) (content : bytes) :
    built self -> built (add_object self content).1
| built_embed_image (self self' : PDF) (img_path : string) (compress : bool)
    (r : string * nat * Z * Z) :
    built self ->
    embed_image open_image self img_path compress = Ok (self', r) ->
    built self'
| built_save (self self' : PDF) (fs fs' : gmap string bytes) (filename : string)
    (show_page_numbers : bool) :
    built self ->
    save float_str self fs filename show_page_numbers = (Ok self', fs') ->
    built self'.
End Built.


(** A picture of two pixels, the way of opening it, and a new document
    with one A4 page on which the picture, embedded uncompressed, is placed
    with a caption under the name [embed_image] returned. *)
Definition dots_image : DecodedImage :=
  MkDecodedImage (2, 1)%Z
    ["255"%byte; "000"%byte; "000"%byte; "000"%byte; "000"%byte; "255"%byte]
    ["255"%byte; "216"%byte; "255"%byte; "217"%byte].

Definition open_dots (path : string) : option DecodedImage :=
  if String.eqb path "dots.png" then Some dots_image else None.

Definition picture_doc : PDF :=
  let '(d, i) := add_page init "A4" "portrait" None None 50 50 in
  match embed_image open_dots d "dots.png" false with
  | Ok (d1, (name, _, _, _)) =>
      match on_page d1 i (fun p =>
              add_image p name 100 600 None None 1 (Some "Two dots")) with
      | Ok (d2, _) => d2
      | Raise _ => d1
      end
  | Raise _ => d
  end.

End SpecX.

(** * Properties *)

(** ** Strings: stripping and splitting *)

Module PyStrFacts.
Import Spec.
Import PyStr.

Lemma append_assoc (a b c : string) : (a +:+ b) +:+ c = a +:+ (b +:+ c).
Proof.
  induction a as [|x a IH]; [reflexivity|].
  change (String x ((a +:+ b) +:+ c) = String x (a +:+ (b +:+ c))).
  now rewrite IH.
Qed.


Lemma nonempty_app_r (a b : string) : nonempty b = true -> nonempty (a +:+ b) = true.
Proof. destruct a; simpl; auto. Qed.

Lemma length_app (a b : string) :
  String.length (a +:+ b) = String.length a + String.length b.
Proof. induction a as [|c a IH]; simpl; [reflexivity | now rewrite IH]. Qed.

Lemma no_space_snoc (cur : string) (c : ascii) :
  no_space cur = true -> isspace c = false ->
  no_space (cur +:+ String c "") = true.
Proof.
  induction cur as [|d cur IH]; simpl; intros Hcur Hc.
  - now rewrite Hc.
  - apply andb_true_iff in Hcur as [Hd Hcur]. rewrite Hd. simpl. now apply IH.
Qed.

Lemma split_from_words (s cur : string) :
  no_space cur = true -> Forall is_word (split_from cur s).
Proof.
  revert cur. induction s as [|c s IH]; simpl; intros cur Hcur.
  - destruct (nonempty cur) eqn:Hne; constructor; [split; assumption | constructor].
  - destruct (isspace c) eqn:Hc.
    + destruct (nonempty cur) eqn:Hne.
      * constructor; [split; assumption | now apply IH].
      * now apply IH.
    + apply IH. now apply no_space_snoc.
Qed.

Lemma split_words (s : string) : Forall is_word (split s).
Proof. now apply split_from_words. Qed.

Lemma word_head_ok (w : string) : is_word w -> head_ok w = true.
Proof.
  intros [Hne Hns]. destruct w as [|c w]; [discriminate|].
  simpl in *. now apply andb_true_iff in Hns as [-> _].
Qed.

Lemma lstrip_head_ok (s : string) : head_ok s = true -> lstrip s = s.
Proof.
  destruct s as [|c s]; simpl; [discriminate|].
  intros H. apply negb_true_iff in H. now rewrite H.
Qed.

Lemma rstrip_no_space (w : string) : no_space w = true -> rstrip w = w.
Proof.
  induction w as [|c w IH]; simpl; [reflexivity|].
  intros H. apply andb_true_iff in H as [Hc Hw].
  apply negb_true_iff in Hc. rewrite (IH Hw), Hc.
  now rewrite andb_false_r.
Qed.

Lemma rstrip_app (a b : string) :
  rstrip b = b -> nonempty b = true -> rstrip (a +:+ b) = a +:+ b.
Proof.
  intros Hb Hne. induction a as [|c a IH]; simpl; [assumption|].
  rewrite IH, (nonempty_app_r a b Hne). reflexivity.
Qed.

(** The first line of [wrap_text]: an empty current line and a word. *)
Lemma strip_first_word (w : string) : is_word w -> strip ("" +:+ " " +:+ w) = w.
Proof.
  intros Hw. unfold strip.
  change (lstrip ("" +:+ " " +:+ w)) with (lstrip w).
  rewrite (lstrip_head_ok w (word_head_ok w Hw)).
  apply rstrip_no_space, Hw.
Qed.

(** A later line: the current line and a word, joined by one blank. *)
Lemma strip_joined (cur w : string) :
  head_ok cur = true -> is_word w ->
  strip (cur +:+ " " +:+ w) = cur +:+ " " +:+ w.
Proof.
  intros Hcur Hw. unfold strip.
  rewrite lstrip_head_ok by (destruct cur; [discriminate | exact Hcur]).
  apply rstrip_app; [|reflexivity].
  destruct Hw as [Hne Hns].
  change (rstrip (" " +:+ w))
    with (if negb (nonempty (rstrip w)) && isspace " " then ""
          else String " " (rstrip w)).
  rewrite (rstrip_no_space w Hns), Hne. reflexivity.
Qed.

Lemma head_ok_app (a b : string) : head_ok a = true -> head_ok (a +:+ b) = true.
Proof. destruct a; simpl; [discriminate | auto]. Qed.

Lemma head_ok_nonempty (s : string) : head_ok s = true -> nonempty s = true.
Proof. destruct s; simpl; [discriminate | reflexivity]. Qed.

Lemma split_from_nonempty (s cur : string) :
  nonempty cur = true \/ has_word_char s = true -> split_from cur s <> [].
Proof.
  revert cur. induction s as [|c s IH]; simpl; intros cur H.
  - destruct H as [-> | H]; [discriminate | discriminate].
  - destruct (isspace c) eqn:Hc; simpl in H.
    + destruct (nonempty cur) eqn:Hne; [discriminate|].
      apply IH. destruct H as [H | H]; [discriminate | now right].
    + apply IH. left. apply nonempty_app_r. reflexivity.
Qed.

Lemma split_nonempty (s : string) : has_word_char s = true -> split s <> [].
Proof. intros H. apply split_from_nonempty. now right. Qed.

Lemma split_from_blank (s : string) :
  has_word_char s = false -> split_from "" s = [].
Proof.
  induction s as [|c s IH]; simpl; [reflexivity|].
  intros H. apply orb_false_iff in H as [Hc Hs].
  apply negb_false_iff in Hc. rewrite Hc. simpl. now apply IH.
Qed.

End PyStrFacts.

(** ** [Page.wrap_text] *)

Module WrapText.
Import Spec.
Import PyStr PyStrFacts PageImpl.

Lemma avg_char_width_nonzero (font_size : Z) :
  font_size <> 0%Z ->
  PyNum.is_zero ((1 # 2) * inject_Z font_size)%Q = false.
Proof.
  intros Hne. unfold PyNum.is_zero.
  destruct (Qeq_bool _ 0) eqn:E; [|reflexivity].
  apply Qeq_bool_iff in E. unfold Qeq in E. simpl in E. lia.
Qed.

(** What a call of [wrap_text] that returns has computed: the font size
    is not zero, and the lines are those of the loop run with the budget. *)
Lemma wrap_text_inv (self : Page) (text : string) (max_width : Q)
    (font_size : Z) (lines : list string) :
  wrap_text self text max_width font_size = Ok lines ->
  font_size <> 0%Z /\
  lines = finish (wrap_loop (max_chars_of max_width font_size) (split text) [] "").
Proof.
  unfold wrap_text, PyNum.float_of_int, PyNum.int_of_float, finish, max_chars_of.
  destruct (PyNum.float_overflows (inject_Z font_size));
    cbn [mbind result_bind]; [discriminate|].
  destruct (PyNum.is_zero _) eqn:Ez; [discriminate|].
  destruct (PyNum.float_overflows _); cbn [mbind result_bind]; [discriminate|].
  destruct (wrap_loop _ _ _ _) as [ls cur]. intros H. injection H as <-.
  split; [|reflexivity].
  intros ->. unfold PyNum.is_zero in Ez. discriminate.
Qed.

(** [wrap_text] returns when the font size is not zero and the numbers it
    computes are finite as floats. *)
Lemma wrap_text_returns (self : Page) (text : string) (max_width : Q)
    (font_size : Z) :
  font_size <> 0%Z ->
  PyNum.float_overflows (inject_Z font_size) = false ->
  PyNum.float_overflows (max_width / ((1 # 2) * inject_Z font_size))%Q = false ->
  wrap_text self text max_width font_size
  = Ok (finish (wrap_loop (max_chars_of max_width font_size) (split text) [] "")).
Proof.
  intros Hne Hs Hq.
  unfold wrap_text, PyNum.float_of_int, PyNum.int_of_float, finish, max_chars_of.
  rewrite Hs. cbn [mbind result_bind].
  rewrite (avg_char_width_nonzero font_size Hne), Hq. cbn [mbind result_bind].
  now destruct (wrap_loop _ _ _ _).
Qed.

(** [wrap_text] raises when the quotient is an infinity: [int] has no
    value for it. *)
Lemma wrap_text_budget_overflow (self : Page) (text : string) (max_width : Q)
    (font_size : Z) :
  font_size <> 0%Z ->
  PyNum.float_overflows (inject_Z font_size) = false ->
  PyNum.float_overflows (max_width / ((1 # 2) * inject_Z font_size))%Q = true ->
  wrap_text self text max_width font_size
  = Raise (OverflowError "cannot convert float infinity to integer").
Proof.
  intros Hne Hs Hq. unfold wrap_text, PyNum.float_of_int, PyNum.int_of_float.
  rewrite Hs. cbn [mbind result_bind].
  now rewrite (avg_char_width_nonzero font_size Hne), Hq.
Qed.

Lemma Qnum_pos (q : Q) : (0 < q)%Q -> (0 < Qnum q)%Z.
Proof. unfold Qlt. simpl. lia. Qed.

Lemma max_chars_nonneg (max_width : Q) (font_size : Z) :
  (0 < max_width)%Q -> (0 < font_size)%Z ->
  (0 <= max_chars_of max_width font_size)%Z.
Proof.
  intros Hw Hs. unfold max_chars_of, PyNum.int.
  apply Z.quot_pos; [|lia].
  apply Z.lt_le_incl, Qnum_pos.
  apply Qlt_shift_div_l.
  - unfold Qlt. simpl. lia.
  - now rewrite Qmult_0_l.
Qed.

(** The lines the loop appends do not depend on the lines before them. *)
Lemma wrap_loop_app (mc : Z) (ws l1 l2 : list string) (cur : string) :
  wrap_loop mc ws (l1 ++ l2) cur
  = (l1 ++ (wrap_loop mc ws l2 cur).1, (wrap_loop mc ws l2 cur).2).
Proof.
  revert l2 cur. induction ws as [|w ws IH]; intros l2 cur; simpl.
  - reflexivity.
  - destruct (len _ <=? mc)%Z.
    + apply IH.
    + rewrite <- (assoc (++)). apply IH.
Qed.

Lemma wrap_loop_budget (mc : Z) (all ws lines : list string) (cur : string) :
  ws ⊆ all ->
  Forall (line_ok mc all) lines -> line_ok mc all cur ->
  Forall (line_ok mc all) (finish (wrap_loop mc ws lines cur)).
Proof.
  revert lines cur. induction ws as [|w ws IH]; intros lines cur Hsub Hl Hc.
  - simpl. unfold finish. simpl.
    destruct (nonempty cur); [|assumption].
    apply Forall_app. split; [assumption | now constructor].
  - simpl. destruct (len _ <=? mc)%Z eqn:E.
    + apply IH; [set_solver | assumption |].
      left. now apply Z.leb_le.
    + apply IH; [set_solver | |].
      * apply Forall_app. split; [assumption | now constructor].
      * destruct (Z_le_gt_dec (len w) mc) as [Hle | Hgt]; [now left | right].
        split; [set_solver | lia].
Qed.

(** The state of the loop after at least one word: the current line starts
    with a character of a word. *)
Lemma wrap_loop_current (mc : Z) (ws lines : list string) (cur : string) :
  Forall is_word ws -> head_ok cur = true ->
  head_ok (wrap_loop mc ws lines cur).2 = true.
Proof.
  revert lines cur. induction ws as [|w ws IH]; intros lines cur Hws Hc; simpl.
  - assumption.
  - apply Forall_cons in Hws as [Hw Hws].
    destruct (len _ <=? mc)%Z.
    + apply IH; [assumption|].
      rewrite (strip_joined cur w Hc Hw). now apply head_ok_app.
    + apply IH; [assumption | now apply word_head_ok].
Qed.

(** A word longer than the budget, as the current line, is appended alone
    whatever follows. *)
Lemma wrap_loop_long_current (mc : Z) (ws lines : list string) (cur : string) :
  Forall is_word ws -> is_word cur -> (mc < len cur)%Z ->
  exists more, finish (wrap_loop mc ws lines cur) = lines ++ cur :: more.
Proof.
  intros Hws Hcur Hlong. destruct ws as [|w ws].
  - exists []. unfold finish. simpl. now destruct Hcur as [-> _].
  - apply Forall_cons in Hws as [Hw Hws]. simpl.
    rewrite (strip_joined cur w (word_head_ok cur Hcur) Hw).
    assert ((len (cur +:+ " " +:+ w) <=? mc)%Z = false) as ->.
    { apply Z.leb_gt. unfold len in *. rewrite length_app. lia. }
    pose proof (wrap_loop_app mc ws (lines ++ [cur]) [] w) as E.
    rewrite app_nil_r in E. unfold finish. rewrite E. simpl.
    destruct (nonempty _).
    + eexists. rewrite <- !(assoc (++)). simpl. reflexivity.
    + eexists. rewrite <- !(assoc (++)). simpl. reflexivity.
Qed.

(** A width of 10^308 points at font size 1: the quotient is an infinity
    and the call raises. *)
Lemma wrap_text_huge_width_raises :
  wrap_text a4_page "one two three" (inject_Z (10 ^ 308)) 1
  = Raise (OverflowError "cannot convert float infinity to integer").
Proof. vm_compute. reflexivity. Qed.

(** C6. For every text and every positive [max_width] and [font_size],
    every line that [wrap_text] returns has at most
    [int(max_width / (0.5 * font_size))] characters, unless the line is a
    single word of the text that is itself longer than that budget. *)
Theorem wrap_text_within_budget (self : Page) (text : string) (max_width : Q)
    (font_size : Z) (lines : list string) :
  (0 < max_width)%Q -> (0 < font_size)%Z ->
  wrap_text self text max_width font_size = Ok lines ->
  Forall (line_ok (max_chars_of max_width font_size) (split text)) lines.
Proof.
  intros Hw Hs Hcall. apply wrap_text_inv in Hcall as [_ ->].
  apply wrap_loop_budget; [set_solver | constructor |].
  left. apply (max_chars_nonneg max_width font_size Hw Hs).
Qed.

Lemma wrap_text_within_budget_witness :
  exists lines,
    wrap_text a4_page "Supercalifragilistic is a long word" 60 12 = Ok lines /\
    Forall (line_ok (max_chars_of 60 12)
              (split "Supercalifragilistic is a long word")) lines.
Proof.
  eexists.
  assert (wrap_text a4_page "Supercalifragilistic is a long word" 60 12 = Ok _)
    as Hcall by (vm_compute; reflexivity).
  split; [exact Hcall|].
  apply (wrap_text_within_budget a4_page _ 60 12 _); [reflexivity .. | exact Hcall].
Defined.

(** C7 as stated fails: a text of one blank is not empty and
    [wrap_text] returns no line for it. *)
Lemma wrap_text_blank_no_line :
  " " <> "" /\ (0 < 100)%Q /\ (0 < 12)%Z /\
  wrap_text a4_page " " 100 12 = Ok [].
Proof.
  split; [discriminate|]. split; [reflexivity|]. split; [reflexivity|].
  vm_compute. reflexivity.
Qed.

(** C7, amended. For every text that holds a character that is not
    whitespace, and every positive [max_width] and [font_size], a call of
    [wrap_text] that returns, returns at least one line; and when the text is
    a single word, also one longer than the budget, that word is one of the
    lines. *)
Theorem wrap_text_at_least_one_line (self : Page) (text : string)
    (max_width : Q) (font_size : Z) (lines : list string) :
  (0 < max_width)%Q -> (0 < font_size)%Z -> has_word_char text = true ->
  wrap_text self text max_width font_size = Ok lines ->
  lines <> [] /\
  (forall w, split text = [w] -> w ∈ lines).
Proof.
  intros Hw Hs Htext Hcall. apply wrap_text_inv in Hcall as [_ ->].
  pose proof (split_words text) as Hwords.
  pose proof (split_nonempty text Htext) as Hne.
  set (mc := max_chars_of max_width font_size).
  destruct (split text) as [|w ws] eqn:E; [congruence|].
  apply Forall_cons in Hwords as [Hword Hwords].
  split.
  - simpl. rewrite (strip_first_word w Hword).
    assert (forall lines cur, head_ok cur = true ->
              finish (wrap_loop mc ws lines cur) <> []) as Hfin.
    { intros lines cur Hcur. unfold finish.
      rewrite (head_ok_nonempty _ (wrap_loop_current mc ws lines cur Hwords Hcur)).
      intros Hnil. now apply app_eq_nil in Hnil as [_ ?]. }
    destruct (len w <=? mc)%Z; apply Hfin; now apply word_head_ok.
  - intros w' Hw'. injection Hw' as Hw1 Hw2. subst w' ws. simpl.
    rewrite (strip_first_word w Hword).
    destruct Hword as [Hnonempty _].
    destruct (len w <=? mc)%Z; unfold finish; simpl; rewrite Hnonempty; set_solver.
Qed.

Lemma wrap_text_at_least_one_line_witness :
  exists lines,
    wrap_text a4_page "Supercalifragilistic" 60 12 = Ok lines /\
    lines <> [] /\
    (forall w, split "Supercalifragilistic" = [w] -> w ∈ lines).
Proof.
  eexists.
  assert (wrap_text a4_page "Supercalifragilistic" 60 12 = Ok _)
    as Hcall by (vm_compute; reflexivity).
  split; [exact Hcall|].
  apply (wrap_text_at_least_one_line a4_page _ 60 12 _);
    [reflexivity .. | exact Hcall].
Defined.

(** C10. For every call of [wrap_text] that returns and whose text has a
    first word longer than the budget, the list returned begins with an
    empty line, and the line after it is that word. *)
Theorem wrap_text_leading_empty_line (self : Page) (text : string)
    (max_width : Q) (font_size : Z) (word : string) (rest lines : list string) :
  split text = word :: rest ->
  (max_chars_of max_width font_size < len word)%Z ->
  wrap_text self text max_width font_size = Ok lines ->
  exists more, lines = "" :: word :: more.
Proof.
  intros Hsplit Hlong Hcall. apply wrap_text_inv in Hcall as [_ ->].
  rewrite Hsplit.
  pose proof (split_words text) as Hwords. rewrite Hsplit in Hwords.
  apply Forall_cons in Hwords as [Hword Hwords].
  simpl. rewrite (strip_first_word word Hword).
  apply Z.leb_gt in Hlong. rewrite Hlong.
  destruct (wrap_loop_long_current _ rest [""] word Hwords Hword
              (proj1 (Z.leb_gt _ _) Hlong)) as [more ->].
  now exists more.
Qed.

Lemma wrap_text_leading_empty_line_witness :
  exists lines more,
    wrap_text a4_page "Supercalifragilistic is a long word" 60 12 = Ok lines /\
    lines = "" :: "Supercalifragilistic" :: more.
Proof.
  eexists.
  assert (wrap_text a4_page "Supercalifragilistic is a long word" 60 12 = Ok _)
    as Hcall by (vm_compute; reflexivity).
  destruct (wrap_text_leading_empty_line a4_page
              "Supercalifragilistic is a long word" 60 12
              "Supercalifragilistic" ["is"; "a"; "long"; "word"] _
              eq_refl eq_refl Hcall) as [more Hmore].
  exists more. split; [exact Hcall | exact Hmore].
Defined.

End WrapText.

(** ** Characters, by enumeration *)

Module AsciiEnum.
Import Spec.

Lemma all_ascii_complete (c : ascii) : In c all_ascii.
Proof.
  unfold all_ascii. rewrite <- (ascii_nat_embedding c).
  apply in_map, in_seq. pose proof (nat_ascii_bounded c). lia.
Qed.

(** A property of one character holds when it holds of the 256 of them. *)
Lemma for_all_ascii (P : ascii -> bool) :
  forallb P all_ascii = true -> forall c, P c = true.
Proof.
  intros H c. rewrite forallb_forall in H. apply H, all_ascii_complete.
Qed.

Lemma for_all_ascii2 (P : ascii -> ascii -> bool) :
  forallb (fun a => forallb (P a) all_ascii) all_ascii = true ->
  forall a b, P a b = true.
Proof.
  intros H a b.
  apply (for_all_ascii (P a)), (for_all_ascii (fun a => forallb (P a) all_ascii) H).
Qed.

End AsciiEnum.

(** ** [PDF.add_object] *)

Module ObjectStore.
Import Spec.
Import PDFImpl.

Lemma add_object_number (self : PDF) (content : bytes) :
  (add_object self content).2 = length (objects self) + 1.
Proof. reflexivity. Qed.

Lemma add_object_objects (self : PDF) (content : bytes) :
  objects (add_object self content).1
  = objects self ++ [(length (objects self) + 1, content)].
Proof. reflexivity. Qed.

Lemma add_objects_numbers (self : PDF) (contents : list bytes) :
  (add_objects self contents).2
  = seq (length (objects self) + 1) (length contents).
Proof.
  revert self. induction contents as [|c rest IH]; intros self; simpl.
  - reflexivity.
  - specialize (IH (add_object self c).1).
    destruct (add_objects _ rest) as [self2 ns]. simpl in *.
    rewrite IH, length_app. simpl. do 2 f_equal. lia.
Qed.

Lemma add_objects_length (self : PDF) (contents : list bytes) :
  length (objects (add_objects self contents).1)
  = length (objects self) + length contents.
Proof.
  revert self. induction contents as [|c rest IH]; intros self; simpl.
  - lia.
  - specialize (IH (add_object self c).1).
    destruct (add_objects _ rest) as [self2 ns]. simpl in *.
    rewrite IH, length_app. simpl. lia.
Qed.

(** C5. For every sequence of [add_object] calls on a document, every call
    returns the length of the store plus one and makes the store one longer,
    so the numbers returned are consecutive; on a new document they are
    1, 2, 3, ... in call order. *)
Theorem add_object_identities (contents : list bytes) :
  (forall (self : PDF) (content : bytes),
      (add_object self content).2 = length (objects self) + 1 /\
      length (objects (add_object self content).1) = length (objects self) + 1) /\
  (forall self : PDF,
      (add_objects self contents).2
      = seq (length (objects self) + 1) (length contents)) /\
  (add_objects init contents).2 = seq 1 (length contents).
Proof.
  split; [|split].
  - intros self content. split; [reflexivity|].
    rewrite add_object_objects, length_app. reflexivity.
  - intros self. apply add_objects_numbers.
  - apply (add_objects_numbers init).
Qed.

End ObjectStore.

(** ** Colours: [hex_to_rgb] and [parse_color] *)

Module Colors.
Import Spec.
Import PyStr PyStrFacts PyNum PageImpl AsciiEnum.

(** [int] reads two hexadecimal digits as the number they write. *)
Lemma int16_hex_pair (a b : ascii) :
  is_hex_digit a = true -> is_hex_digit b = true ->
  int16 (String a (String b "")) = Ok (hex_pair a b).
Proof.
  intros Ha Hb.
  assert (forall a b, (negb (is_hex_digit a && is_hex_digit b)
            || match int16 (String a (String b "")) with
               | Ok v => (v =? hex_pair a b)%Z
               | Raise _ => false
               end) = true) as H.
  { apply for_all_ascii2. vm_compute. reflexivity. }
  specialize (H a b). rewrite Ha, Hb in H. simpl in H.
  destruct (int16 _) as [v|]; [|discriminate].
  apply Z.eqb_eq in H. now subst.
Qed.

Lemma hex_digit_facts (c : ascii) :
  is_hex_digit c = true ->
  isspace c = false /\ Ascii.eqb c "#" = false /\
  is_hex_digit (lower_char c) = true.
Proof.
  intros Hc.
  assert (forall c, (negb (is_hex_digit c)
            || (negb (isspace c) && negb (Ascii.eqb c "#")
                && is_hex_digit (lower_char c))) = true) as H.
  { apply for_all_ascii. vm_compute. reflexivity. }
  specialize (H c). rewrite Hc in H. simpl in H.
  apply andb_true_iff in H as [H H3]. apply andb_true_iff in H as [H1 H2].
  apply negb_true_iff in H1, H2. auto.
Qed.

Lemma all_hex_no_space (s : string) : all_hex s = true -> no_space s = true.
Proof.
  induction s as [|c s IH]; simpl; [reflexivity|].
  intros H. apply andb_true_iff in H as [Hc Hs].
  destruct (hex_digit_facts c Hc) as (-> & _ & _). simpl. auto.
Qed.

Lemma all_hex_lower (s : string) : all_hex s = true -> all_hex (lower s) = true.
Proof.
  induction s as [|c s IH]; simpl; [reflexivity|].
  intros H. apply andb_true_iff in H as [Hc Hs].
  destruct (hex_digit_facts c Hc) as (_ & _ & ->). simpl. auto.
Qed.

Lemma length_lower (s : string) : String.length (lower s) = String.length s.
Proof. induction s as [|c s IH]; simpl; [reflexivity | now rewrite IH]. Qed.

Lemma valid_hex_lower (s : string) : valid_hex s = true -> valid_hex (lower s) = true.
Proof.
  unfold valid_hex. rewrite length_lower. intros H.
  apply andb_true_iff in H as [-> H]. simpl. now apply all_hex_lower.
Qed.

(** No name of [color_MAP] is a hex colour without its marker. *)
Lemma color_MAP_no_hex (s : string) : valid_hex s = true -> color_MAP !! s = None.
Proof.
  intros Hs. destruct (color_MAP !! s) as [v|] eqn:E; [|reflexivity].
  apply elem_of_list_to_map_2 in E.
  assert (Forall (fun kv => valid_hex kv.1 = false) color_MAP_items) as Hall.
  { repeat constructor. }
  rewrite Forall_forall in Hall. apply Hall in E. simpl in E. congruence.
Qed.

Lemma valid_hex_head (h : string) :
  valid_hex h = true -> exists c h', h = String c h' /\ is_hex_digit c = true.
Proof.
  unfold valid_hex. destruct h as [|c h']; [discriminate|]. simpl.
  intros H. apply andb_true_iff in H as [_ H].
  apply andb_true_iff in H as [Hc _]. eauto.
Qed.

Lemma hex_to_rgb_plain (h : string) :
  valid_hex h = true -> hex_to_rgb h = hex_digits_to_rgb h.
Proof.
  intros Hv. unfold hex_to_rgb, hex_digits_to_rgb.
  assert (lstrip_char "#" (strip h) = h) as ->; [|reflexivity].
  pose proof Hv as Hv'. unfold valid_hex in Hv'.
  apply andb_true_iff in Hv' as [_ Hall].
  destruct (valid_hex_head h Hv) as (c & h' & -> & Hc).
  destruct (hex_digit_facts c Hc) as (Hsp & Hm & _).
  unfold strip. rewrite lstrip_head_ok by (simpl; now rewrite Hsp).
  rewrite rstrip_no_space by now apply all_hex_no_space.
  simpl. now rewrite Hm.
Qed.

Lemma hex_to_rgb_marked (h : string) :
  valid_hex h = true -> hex_to_rgb ("#" +:+ h) = hex_digits_to_rgb h.
Proof.
  intros Hv. unfold hex_to_rgb, hex_digits_to_rgb.
  assert (lstrip_char "#" (strip ("#" +:+ h)) = h) as ->; [|reflexivity].
  pose proof Hv as Hv'. unfold valid_hex in Hv'.
  apply andb_true_iff in Hv' as [_ Hall].
  destruct (valid_hex_head h Hv) as (c & h' & -> & Hc).
  destruct (hex_digit_facts c Hc) as (Hsp & Hm & _).
  unfold strip.
  rewrite lstrip_head_ok by reflexivity.
  rewrite (rstrip_app "#" (String c h')); [| |reflexivity].
  - simpl. now rewrite Hm.
  - now apply rstrip_no_space, all_hex_no_space.
Qed.

Lemma hex_digits_to_rgb_ok (h : string) :
  valid_hex h = true -> exists rgb, hex_digits_to_rgb h = Ok rgb.
Proof.
  unfold valid_hex. intros H. apply andb_true_iff in H as [Hlen Hall].
  apply orb_true_iff in Hlen as [Hlen | Hlen]; apply Nat.eqb_eq in Hlen.
  - destruct h as [|a [|b [|c [|? ?]]]]; try discriminate.
    simpl in Hall.
    repeat (apply andb_true_iff in Hall as [? Hall]).
    unfold hex_digits_to_rgb. simpl.
    change (slice 0 2 ?s) with (String.substring 0 2 s).
    unfold slice. simpl.
    rewrite !int16_hex_pair by assumption. simpl. eauto.
  - destruct h as [|a [|b [|c [|d [|e [|f [|? ?]]]]]]]; try discriminate.
    simpl in Hall.
    repeat (apply andb_true_iff in Hall as [? Hall]).
    unfold hex_digits_to_rgb, slice. simpl.
    rewrite !int16_hex_pair by assumption. simpl. eauto.
Qed.

(** C8 as stated fails: [add_text] resolves ["#FF0000"] and
    rejects the same digits without the marker. *)
Lemma parse_color_needs_marker :
  valid_hex "FF0000" = true /\
  resolve_color (ColorStr "#FF0000") = Ok (255 # 255, 0 # 255, 0 # 255)%Q /\
  resolve_color (ColorStr "FF0000") = Raise (ValueError "Unknown color: FF0000").
Proof. repeat split; vm_compute; reflexivity. Qed.

(** C8, amended. For every string of three or six hexadecimal digits,
    [hex_to_rgb] accepts it with and without the leading marker and yields
    the same triple; the colour resolution of [add_text] accepts it with the
    marker, where it yields that triple normalised, and rejects it without the
    marker as an unknown colour. *)
Theorem hex_color_with_and_without_marker (h : string) :
  valid_hex h = true ->
  exists r g b,
    hex_to_rgb h = Ok (r, g, b) /\
    hex_to_rgb ("#" +:+ h) = Ok (r, g, b) /\
    resolve_color (ColorStr ("#" +:+ h))
    = Ok (normalize (inject_Z r), normalize (inject_Z g), normalize (inject_Z b)) /\
    resolve_color (ColorStr h) = Raise (ValueError ("Unknown color: " +:+ h)).
Proof.
  intros Hv. destruct (hex_digits_to_rgb_ok h Hv) as [[[r g] b] Hrgb].
  exists r, g, b.
  rewrite (hex_to_rgb_plain h Hv), (hex_to_rgb_marked h Hv), Hrgb.
  split; [reflexivity | split; [reflexivity | split]].
  - unfold resolve_color, parse_color.
    change (startswith_char "#" ("#" +:+ h)) with true. cbv iota.
    rewrite (hex_to_rgb_marked h Hv), Hrgb. reflexivity.
  - unfold resolve_color, parse_color.
    destruct (valid_hex_head h Hv) as (c & h' & Hh & Hc).
    destruct (hex_digit_facts c Hc) as (_ & Hm & _).
    assert (startswith_char "#" h = false) as -> by (subst h; exact Hm).
    rewrite (color_MAP_no_hex (lower h) (valid_hex_lower h Hv)). reflexivity.
Qed.

Lemma hex_color_with_and_without_marker_witness :
  exists r g b,
    hex_to_rgb "F00" = Ok (r, g, b) /\
    hex_to_rgb ("#" +:+ "F00") = Ok (r, g, b) /\
    resolve_color (ColorStr ("#" +:+ "F00"))
    = Ok (normalize (inject_Z r), normalize (inject_Z g), normalize (inject_Z b)) /\
    resolve_color (ColorStr "F00") = Raise (ValueError ("Unknown color: " +:+ "F00")).
Proof. apply hex_color_with_and_without_marker. reflexivity. Defined.

End Colors.

(** ** [Page.add_text]: links *)

Module TextLinks.
Import Spec.
Import PyStr PyStrFacts PageImpl.


Section OneCall.
Variables (x y : Q) (size : Z) (rgb : Q * Q * Q) (font_ref align : string).
Variables (underline strike : bool) (background : option color_arg).
Variable uri : string.
Hypothesis uri_given : uri <> "".

Let step := add_text_line x y size rgb font_ref align underline strike
              background (Some uri).




End OneCall.



End TextLinks.

(** ** Bytes: searching and replacing *)

Module BytesFacts.
Import Spec.
Import PyBytes.


Lemma starts_with_true (pat data : bytes) :
  starts_with pat data = true -> exists rest, data = pat ++ rest.
Proof.
  revert data. induction pat as [|p pat IH]; intros data; simpl.
  - intros _. now exists data.
  - destruct data as [|d data]; [discriminate|].
    intros H. apply andb_true_iff in H as [Hp H].
    apply byte_dec_bl in Hp as ->. destruct (IH data H) as [rest ->].
    now exists rest.
Qed.

Lemma contains_cons (pat : bytes) (c : byte) (data : bytes) :
  contains pat (c :: data) = starts_with pat (c :: data) || contains pat data.
Proof. reflexivity. Qed.

(** Bytes that are not the first byte of the pattern start no occurrence. *)
Lemma contains_app_other (o0 : byte) (old' a x : bytes) :
  o0 ∉ a -> contains (o0 :: old') (a ++ x) = contains (o0 :: old') x.
Proof.
  induction a as [|c a IH]; intros Ha; [reflexivity|].
  change ((c :: a) ++ x) with (c :: (a ++ x)).
  rewrite contains_cons, IH by set_solver.
  assert (starts_with (o0 :: old') (c :: a ++ x) = false) as ->; [|reflexivity].
  simpl. destruct (Byte.eqb o0 c) eqn:E; [|reflexivity].
  apply byte_dec_bl in E. set_solver.
Qed.

Section Replace.
Variables (o0 : byte) (old' : bytes) (n0 : byte) (new' : bytes).

Let old := o0 :: old'.
Let new := n0 :: new'.

(** The bytes put in are none of the bytes of the pattern. *)
Hypothesis disjoint : forall b, b ∈ old -> b ∉ new.

Lemma replace_from_skip (k : nat) (data : bytes) :
  replace_from old new k data = replace_from old new 0 (drop k data).
Proof.
  revert k. induction data as [|c data IH]; intros k.
  - now destruct k.
  - destruct k as [|k]; [reflexivity|]. simpl. apply IH.
Qed.

Lemma replace_from_cons (c : byte) (data : bytes) :
  replace_from old new 0 (c :: data)
  = if starts_with old (c :: data)
    then new ++ replace_from old new 0 (drop (length old) (c :: data))
    else c :: replace_from old new 0 data.
Proof.
  change (replace_from old new 0 (c :: data))
    with (if starts_with old (c :: data)
          then new ++ replace_from old new (length old - 1) data
          else c :: replace_from old new 0 data).
  destruct (starts_with old (c :: data)); [|reflexivity].
  rewrite replace_from_skip. simpl. now rewrite Nat.sub_0_r.
Qed.

(** A run of pattern bytes at the head of the result was at the head of the
    data. *)
Lemma starts_with_replace (w data : bytes) :
  (forall b, b ∈ w -> b ∈ old) ->
  starts_with w (replace_from old new 0 data) = true ->
  starts_with w data = true.
Proof.
  revert w. induction data as [|c data IH]; intros w Hw.
  - simpl. auto.
  - destruct w as [|b w]; [reflexivity|].
    rewrite replace_from_cons.
    destruct (starts_with old (c :: data)) eqn:E.
    + simpl. intros H. apply andb_true_iff in H as [Hb _].
      apply byte_dec_bl in Hb. subst n0.
      exfalso. apply (disjoint b); [apply Hw|]; set_solver.
    + simpl. intros H. apply andb_true_iff in H as [-> H]. simpl.
      apply IH; [|assumption]. intros b' Hb'. apply Hw. set_solver.
Qed.

Lemma replace_from_no_occurrence_fuel (fuel : nat) (data : bytes) :
  length data <= fuel -> contains old (replace_from old new 0 data) = false.
Proof.
  revert data. induction fuel as [|fuel IH]; intros data Hlen.
  - destruct data; [reflexivity | simpl in Hlen; lia].
  - destruct data as [|c data]; [reflexivity|].
    rewrite replace_from_cons.
    destruct (starts_with old (c :: data)) eqn:E.
    + unfold old at 1. rewrite contains_app_other.
      * apply IH. rewrite length_drop. simpl in *. lia.
      * apply disjoint. set_solver.
    + rewrite contains_cons, IH by (simpl in Hlen; lia).
      rewrite orb_false_r.
      destruct (starts_with old (c :: replace_from old new 0 data)) eqn:E';
        [|reflexivity].
      assert (starts_with old (replace_from old new 0 (c :: data)) = true) as H.
      { now rewrite replace_from_cons, E. }
      apply starts_with_replace in H; [congruence | auto].
  Qed.

(** After the replacement the pattern occurs nowhere. *)
Lemma replace_no_occurrence (data : bytes) :
  contains old (replace old new data) = false.
Proof. apply (replace_from_no_occurrence_fuel (length data)). lia. Qed.

End Replace.

(** Where the pattern does not occur, the replacement changes nothing. *)
Lemma replace_from_absent (old new data : bytes) :
  contains old data = false -> replace_from old new 0 data = data.
Proof.
  induction data as [|c data IH]; [reflexivity|].
  rewrite contains_cons. intros H. apply orb_false_iff in H as [H1 H2].
  simpl in *. rewrite H1. f_equal. now apply IH.
Qed.

End BytesFacts.

(** ** Decimal numbers and their encoding *)

Module Digits.
Import Spec.
Import PyStr PyNum PyBytes AsciiEnum.

Lemma encode_app (a b : string) : encode (a +:+ b) = encode a ++ encode b.
Proof.
  induction a as [|c a IH]; simpl; [reflexivity|].
  now rewrite IH, (assoc (++)).
Qed.

Lemma string_of_uint_digits (d : Decimal.uint) :
  all_digits (NilEmpty.string_of_uint d) = true.
Proof. induction d; simpl; auto. Qed.

Lemma to_uint_nonnil (n : nat) : Nat.to_uint n <> Decimal.Nil.
Proof.
  rewrite <- (DecimalNat.Unsigned.of_to n) at 1.
  rewrite DecimalNat.Unsigned.to_of. apply DecimalFacts.unorm_nonnil.
Qed.

Lemma str_nat_digits (n : nat) : all_digits (str_nat n) = true.
Proof. apply string_of_uint_digits. Qed.

Lemma str_nat_nonempty (n : nat) : nonempty (str_nat n) = true.
Proof.
  unfold str_nat. pose proof (to_uint_nonnil n) as H.
  destruct (Nat.to_uint n); [congruence | reflexivity ..].
Qed.

Lemma utf8_digit (c : ascii) :
  digit_char c = true ->
  utf8_char c = [byte_of_ascii c] /\ digit_byte (byte_of_ascii c) = true.
Proof.
  intros Hc.
  assert (forall c, (negb (digit_char c)
            || (bool_decide (utf8_char c = [byte_of_ascii c])
                && digit_byte (byte_of_ascii c))) = true) as H.
  { apply for_all_ascii. vm_compute. reflexivity. }
  specialize (H c). rewrite Hc in H. simpl in H.
  apply andb_true_iff in H as [H1 H2]. apply bool_decide_eq_true in H1. auto.
Qed.

(** The encoding of a run of digits: one digit byte per digit. *)
Lemma encode_digits (s : string) :
  all_digits s = true ->
  encode s = String.list_byte_of_string s /\ forallb digit_byte (encode s) = true.
Proof.
  induction s as [|c s IH]; simpl; [auto|].
  intros H. apply andb_true_iff in H as [Hc Hs].
  destruct (utf8_digit c Hc) as [-> Hb]. destruct (IH Hs) as [-> Hall].
  simpl. rewrite Hb. auto.
Qed.

Lemma encode_str_nat (n : nat) :
  exists d ds, encode (str_nat n) = d :: ds /\ forallb digit_byte (d :: ds) = true.
Proof.
  destruct (encode_digits (str_nat n) (str_nat_digits n)) as [E Hall].
  pose proof (str_nat_nonempty n) as Hne.
  destruct (str_nat n) as [|c s]; [discriminate|].
  rewrite E in *. simpl in *. eauto.
Qed.

End Digits.

(** ** [PDF.save]: the objects of the document *)

Module Finalize.
Import Spec.
Import PyStr PyNum PyBytes PageImpl PDFImpl ObjectStore BytesFacts Digits.

Lemma tagged_app (base : nat) (c1 c2 : list bytes) :
  tagged base (c1 ++ c2) = tagged base c1 ++ tagged (base + length c1) c2.
Proof.
  unfold tagged. rewrite imap_app. f_equal.
  apply imap_ext. intros i c _. simpl. f_equal. lia.
Qed.

Lemma length_tagged (base : nat) (contents : list bytes) :
  length (tagged base contents) = length contents.
Proof. apply length_imap. Qed.

Lemma grows_refl (self : PDF) : grows self self.
Proof. split; [reflexivity|]. exists []. simpl. now rewrite app_nil_r. Qed.

Lemma grows_trans (a b c : PDF) : grows a b -> grows b c -> grows a c.
Proof.
  intros (Hi1 & c1 & H1) (Hi2 & c2 & H2). split; [congruence|].
  exists (c1 ++ c2).
  rewrite H2, H1, tagged_app, length_app, length_tagged, (assoc (++)).
  reflexivity.
Qed.

Lemma grows_add_object (self : PDF) (content : bytes) :
  grows self (add_object self content).1.
Proof.
  split; [reflexivity|]. exists [content].
  unfold add_object, tagged. cbn [fst objects imap].
  now rewrite Nat.add_0_r.
Qed.

Lemma add_object_pages (self : PDF) (content : bytes) :
  pages (add_object self content).1 = pages self.
Proof. reflexivity. Qed.

Lemma numbered_tagged (objs : list (nat * bytes)) (contents : list bytes) :
  numbered objs -> numbered (objs ++ tagged (length objs) contents).
Proof.
  intros Hn k n c Hk.
  apply lookup_app_Some in Hk as [Hk | [Hge Hk]]; [now apply (Hn k n c)|].
  unfold tagged in Hk. rewrite list_lookup_imap in Hk.
  destruct (contents !! _); simpl in Hk; [|discriminate].
  injection Hk as <- _. lia.
Qed.

Lemma grows_numbered (self self' : PDF) :
  grows self self' -> numbered (objects self) -> numbered (objects self').
Proof. intros (_ & contents & ->). apply numbered_tagged. Qed.

Lemma add_fonts_grows (items : list (string * string)) (self : PDF) :
  grows self (add_fonts self items).1 /\
  pages (add_fonts self items).1 = pages self.
Proof.
  revert self. induction items as [|[k v] rest IH]; intros self; cbn [add_fonts].
  - split; [apply grows_refl | reflexivity].
  - match goal with |- context [add_object self ?c] =>
      pose proof (grows_add_object self c) as Hg;
      pose proof (add_object_pages self c) as Hp;
      destruct (add_object self c) as [self1 n]
    end.
    destruct (IH self1) as [Hg2 Hp2].
    destruct (add_fonts self1 rest) as [self2 more]. simpl in *.
    split; [eapply grows_trans; eassumption | congruence].
Qed.

Section Save.
Variable float_str : Q -> string.

Lemma add_content_objects_grows (image_sizes : gmap string (Z * Z))
    (show : bool) (ps : list Page) (idx : nat) (self self' : PDF) (nums : list nat) :
  add_content_objects float_str image_sizes show idx ps self = Ok (self', nums) ->
  grows self self' /\ pages self' = pages self.
Proof.
  revert idx self self' nums.
  induction ps as [|page rest IH]; intros idx self self' nums;
    cbn [add_content_objects].
  - intros H. injection H as <- _. split; [apply grows_refl | reflexivity].
  - destruct (page_stream _ _ _ _ _) as [stream|e]; cbn [mbind result_bind];
      [|discriminate].
    pose proof (grows_add_object self (stream_object stream)) as Hg.
    pose proof (add_object_pages self (stream_object stream)) as Hp.
    destruct (add_object self (stream_object stream)) as [self1 n].
    destruct (add_content_objects float_str image_sizes show (S idx) rest self1)
      as [[self2 more]|e] eqn:E2; cbn [mbind result_bind]; [|discriminate].
    intros H. injection H as <- _.
    destruct (IH _ _ _ _ E2) as [Hg2 Hp2]. cbn [fst] in Hg, Hp.
    split; [eapply grows_trans; eassumption | congruence].
Qed.

Lemma add_annotations_grows (ls : list Link) (self : PDF) :
  grows self (add_annotations ls self).1 /\
  pages (add_annotations ls self).1 = pages self.
Proof.
  revert self. induction ls as [|l rest IH]; intros self; cbn [add_annotations].
  - split; [apply grows_refl | reflexivity].
  - pose proof (grows_add_object self (annot_object l)) as Hg.
    pose proof (add_object_pages self (annot_object l)) as Hp.
    destruct (add_object self (annot_object l)) as [self1 n].
    destruct (IH self1) as [Hg2 Hp2].
    destruct (add_annotations rest self1) as [self2 more]. simpl in *.
    split; [eapply grows_trans; eassumption | congruence].
Qed.

Lemma add_page_objects_grows (font_objs : list (string * nat))
    (ps : list Page) (refs : list nat) (self : PDF) :
  grows self (add_page_objects font_objs ps refs self).1 /\
  pages (add_page_objects font_objs ps refs self).1 = pages self.
Proof.
  revert refs self. induction ps as [|page rest IH]; intros refs self;
    destruct refs as [|r refs]; cbn [add_page_objects];
    try (split; [apply grows_refl | reflexivity]).
  destruct (add_annotations_grows (links page) self) as [Hg1 Hp1].
  destruct (add_annotations (links page) self) as [self1 annots].
  match goal with |- context [add_object self1 ?c] =>
    pose proof (grows_add_object self1 c) as Hg2;
    pose proof (add_object_pages self1 c) as Hp2;
    destruct (add_object self1 c) as [self2 n]
  end.
  destruct (IH refs self2) as [Hg3 Hp3].
  destruct (add_page_objects font_objs rest refs self2) as [self3 more].
  simpl in *. split; [|congruence].
  eapply grows_trans; [eassumption|]. eapply grows_trans; eassumption.
Qed.

(** The objects of a document that [finalize] has returned: those of the
    document before and the new ones, numbered in order, put through the
    substitution pass, and then the catalog. *)
Lemma finalize_objects (self self' : PDF) (show : bool) (catalog_obj : nat) :
  finalize float_str self show = Ok (self', catalog_obj) ->
  exists (contents : list bytes) (pages_obj : nat),
    let objs := objects self ++ tagged (length (objects self)) contents in
    objects self'
    = map (fix_object pages_obj) objs ++ [(length objs + 1, catalog_object pages_obj)]
    /\ catalog_obj = length objs + 1
    /\ resolve_pages ((fun '(_, obj_num, _, _) => obj_num) <$> images self)
         (pages self) = Ok (pages self').
Proof.
  unfold finalize.
  destruct (add_fonts_grows font_map self) as [[Hi1 [c1 Ho1]] Hp1].
  destruct (add_fonts self font_map) as [s1 font_objs]. simpl in Hi1, Ho1, Hp1.
  rewrite Hi1, Hp1.
  destruct (resolve_pages _ (pages self)) as [pages'|e]; simpl; [|discriminate].
  match goal with |- context [add_content_objects _ _ _ _ _ ?s] =>
    destruct (add_content_objects float_str
                ((fun '(_, _, w, h) => (w, h)) <$> images self) show 0 pages' s)
      as [[s2 nums]|e] eqn:E2
  end; simpl; [|discriminate].
  apply add_content_objects_grows in E2 as [[Hi2 [c2 Ho2]] Hp2].
  simpl in Hi2, Ho2, Hp2.
  destruct (add_page_objects_grows font_objs (pages s2) nums s2)
    as [[Hi3 [c3 Ho3]] Hp3].
  destruct (add_page_objects font_objs (pages s2) nums s2) as [s3 page_nums].
  simpl in Hi3, Ho3, Hp3. simpl.
  intros H. injection H as <- <-. simpl.
  exists (c1 ++ c2 ++ c3 ++ [pages_object page_nums]), (length (objects s3) + 1).
  assert (objects s3 ++ [(length (objects s3) + 1, pages_object page_nums)]
          = objects self
            ++ tagged (length (objects self))
                 (c1 ++ c2 ++ c3 ++ [pages_object page_nums])) as Hobjs.
  { rewrite Ho3, Ho2, Ho1, !tagged_app, !length_app, !length_tagged.
    rewrite <- !(assoc (++)). do 4 f_equal.
    unfold tagged. cbn [imap]. now rewrite Nat.add_0_r. }
  rewrite <- Hobjs.
  rewrite length_map.
  split; [reflexivity | split; [reflexivity|]].
  congruence.
Qed.

End Save.

End Finalize.

(** ** [PDF.save]: images that were never embedded *)

Module Unresolved.
Import Spec.
Import PyStr PyNum PyBytes PageImpl PDFImpl Finalize.

Lemma resolve_usages_ok (image_objs : gmap string nat)
    (usages usages' : list (string * option nat)) :
  resolve_usages image_objs usages = Ok usages' ->
  Forall (fun u => is_Some (image_objs !! u.1)) usages /\
  Forall (fun u => is_Some u.2) usages'.
Proof.
  revert usages'. induction usages as [|[name o] rest IH]; intros usages';
    cbn [resolve_usages].
  - intros H. injection H as <-. split; constructor.
  - destruct (image_objs !! name) as [n|] eqn:E; [|discriminate].
    destruct (resolve_usages image_objs rest) as [rest'|e];
      cbn [mbind result_bind]; [|discriminate].
    intros H. injection H as <-. destruct (IH rest' eq_refl) as [H1 H2].
    split; constructor; simpl; eauto.
Qed.

Lemma resolve_usages_raise (image_objs : gmap string nat)
    (usages : list (string * option nat)) (e : exn) :
  resolve_usages image_objs usages = Raise e ->
  exists missing o,
    (missing, o) ∈ usages /\ image_objs !! missing = None /\
    e = UnresolvedResource missing.
Proof.
  induction usages as [|[name o] rest IH]; cbn [resolve_usages]; [discriminate|].
  destruct (image_objs !! name) as [n|] eqn:E.
  - destruct (resolve_usages image_objs rest) as [rest'|e'];
      cbn [mbind result_bind]; [discriminate|].
    intros H. injection H as <-.
    destruct (IH eq_refl) as (missing & o' & Hin & Hnone & ->).
    exists missing, o'. split; [set_solver | auto].
  - intros H. injection H as <-. exists name, o. split; [set_solver | auto].
Qed.

Lemma resolve_pages_ok (image_objs : gmap string nat) (ps ps' : list Page) :
  resolve_pages image_objs ps = Ok ps' ->
  Forall (fun p => Forall (fun u => is_Some (image_objs !! u.1)) (image_usages p)) ps
  /\ Forall (fun p => Forall (fun u => is_Some u.2) (image_usages p)) ps'.
Proof.
  revert ps'. induction ps as [|page rest IH]; intros ps'; cbn [resolve_pages].
  - intros H. injection H as <-. split; constructor.
  - unfold resolve_page.
    destruct (resolve_usages image_objs (image_usages page)) as [us|e] eqn:E;
      cbn [mbind result_bind]; [|discriminate].
    destruct (resolve_pages image_objs rest) as [rest'|e];
      cbn [mbind result_bind]; [|discriminate].
    intros H. injection H as <-.
    destruct (IH rest' eq_refl) as [H1 H2].
    destruct (resolve_usages_ok _ _ _ E) as [H3 H4].
    split; constructor; auto.
Qed.

Lemma resolve_pages_raise (image_objs : gmap string nat) (ps : list Page)
    (e : exn) :
  resolve_pages image_objs ps = Raise e ->
  exists page missing o,
    page ∈ ps /\ (missing, o) ∈ image_usages page /\
    image_objs !! missing = None /\ e = UnresolvedResource missing.
Proof.
  induction ps as [|page rest IH]; cbn [resolve_pages]; [discriminate|].
  unfold resolve_page.
  destruct (resolve_usages image_objs (image_usages page)) as [us|e'] eqn:E;
    cbn [mbind result_bind].
  - destruct (resolve_pages image_objs rest) as [rest'|e''];
      cbn [mbind result_bind]; [discriminate|].
    intros H. injection H as <-.
    destruct (IH eq_refl) as (p & missing & o & Hp & Hin & Hnone & ->).
    exists p, missing, o. split; [set_solver | auto].
  - intros H. injection H as <-.
    destruct (resolve_usages_raise _ _ _ E) as (missing & o & Hin & Hnone & ->).
    exists page, missing, o. split; [set_solver | auto].
Qed.

(** A page that places an image carries the usage of its name. *)
Lemma add_image_usage (self page' : Page) (name : string) (x y : Q)
    (w h : option Q) (scale : Q) (caption : option string) (printed : list string) :
  add_image self name x y w h scale caption = Ok (page', printed) ->
  (name, None) ∈ image_usages page'.
Proof.
  unfold add_image. destruct (Qle_bool scale 0); [discriminate|].
  intros H. injection H as <- _. simpl. set_solver.
Qed.

(** The name [embed_image] returns is a key of [images]. *)
Lemma embed_image_registers (open_image : string -> option DecodedImage)
    (self self' : PDF) (img_path : string) (compress : bool)
    (name : string) (obj_num : nat) (w h : Z) :
  embed_image open_image self img_path compress = Ok (self', (name, obj_num, w, h)) ->
  is_Some (images self' !! name).
Proof.
  unfold embed_image. destruct (open_image img_path) as [img|]; [|discriminate].
  destruct (img_size img) as [iw ih].
  match goal with |- context [add_object self ?c] =>
    destruct (add_object self c) as [self1 n]
  end.
  intros H. injection H as <- <- _ _ _. simpl.
  rewrite lookup_insert_eq. eauto.
Qed.

Section Save.
Variable float_str : Q -> string.

(** C3. For every document in which a page carries the usage of an image
    name that is no key of [images] (no [embed_image] call returned it),
    [save] raises the exception for an image object that is not found, for a
    name of that kind used on a page, and the files are what they were before
    the call: the output file is neither created nor written. *)
Theorem save_unresolved_image (self : PDF) (fs : gmap string bytes)
    (filename : string) (show_page_numbers : bool) (page : Page) (name : string)
    (o : option nat) :
  page ∈ pages self -> (name, o) ∈ image_usages page ->
  images self !! name = None ->
  exists page' missing o',
    page' ∈ pages self /\ (missing, o') ∈ image_usages page' /\
    images self !! missing = None /\
    save float_str self fs filename show_page_numbers
    = (Raise (UnresolvedResource missing), fs).
Proof.
  intros Hpage Hin Hnone. unfold save.
  set (image_objs := (fun '(_, obj_num, _, _) => obj_num) <$> images self).
  assert (forall n, image_objs !! n = None -> images self !! n = None) as Hobjs.
  { intros n. unfold image_objs. rewrite lookup_fmap.
    now destruct (images self !! n). }
  destruct (finalize float_str self show_page_numbers) as [[self' cat]|e] eqn:E.
  - exfalso. apply finalize_objects in E as (_ & _ & _ & _ & Hres).
    apply resolve_pages_ok in Hres as [Hall _].
    rewrite Forall_forall in Hall. specialize (Hall page Hpage).
    rewrite Forall_forall in Hall. specialize (Hall (name, o) Hin).
    fold image_objs in Hall. simpl in Hall.
    unfold image_objs in Hall. rewrite lookup_fmap, Hnone in Hall.
    now destruct Hall.
  - revert E. unfold finalize.
    destruct (add_fonts_grows font_map self) as [[Hi1 _] Hp1].
    destruct (add_fonts self font_map) as [s1 font_objs]. simpl in Hi1, Hp1.
    rewrite Hi1, Hp1. fold image_objs.
    destruct (resolve_pages image_objs (pages self)) as [pages'|e'] eqn:Hres;
      cbn [mbind result_bind].
    + exfalso. apply resolve_pages_ok in Hres as [Hall _].
      rewrite Forall_forall in Hall. specialize (Hall page Hpage).
      rewrite Forall_forall in Hall. specialize (Hall (name, o) Hin).
      simpl in Hall. unfold image_objs in Hall.
      rewrite lookup_fmap, Hnone in Hall. now destruct Hall.
    + intros H. injection H as <-.
      apply resolve_pages_raise in Hres as (p & missing & o' & Hp & Hu & Hm & ->).
      exists p, missing, o'. auto.
Qed.

End Save.

End Unresolved.

(** ** [PDF.save]: the placeholder of the page tree *)

Module Placeholder.
Import Spec.
Import PyStr PyNum PyBytes PageImpl PDFImpl Finalize BytesFacts Digits.

Lemma placeholder_no_digit : forallb (fun b => negb (digit_byte b)) placeholder = true.
Proof. vm_compute. reflexivity. Qed.

(** No byte of the placeholder is a byte of a decimal number. *)
Lemma placeholder_disjoint (ds : bytes) :
  forallb digit_byte ds = true -> forall b, b ∈ placeholder -> b ∉ ds.
Proof.
  intros Hds b Hb Hin.
  pose proof placeholder_no_digit as Hp.
  rewrite forallb_forall in Hp, Hds.
  apply list_elem_of_In in Hb, Hin.
  specialize (Hp b Hb). specialize (Hds b Hin).
  rewrite Hds in Hp. discriminate.
Qed.

(** The substitution pass leaves no placeholder in an object. *)
Lemma fix_object_no_placeholder (pages_obj : nat) (o : nat * bytes) :
  contains placeholder (fix_object pages_obj o).2 = false.
Proof.
  destruct o as [n data]. unfold fix_object.
  destruct (contains placeholder data) eqn:E; [|exact E].
  destruct (encode_str_nat pages_obj) as (d & ds & -> & Hds).
  cbn [snd].
  apply (replace_no_occurrence "{"%byte (encode "pages}") d ds).
  apply (placeholder_disjoint (d :: ds) Hds).
Qed.

Lemma fix_object_number (pages_obj : nat) (o : nat * bytes) :
  (fix_object pages_obj o).1 = o.1.
Proof. destruct o as [n data]. unfold fix_object. now destruct (contains _ _). Qed.

Lemma contains_without_head (a : bytes) :
  "{"%byte ∉ a -> contains placeholder a = false.
Proof.
  intros Ha.
  pose proof (contains_app_other "{"%byte (encode "pages}") a [] Ha) as H.
  rewrite app_nil_r in H. exact H.
Qed.

Lemma no_brace_check (l : bytes) :
  forallb (fun b => negb (Byte.eqb "{" b)) l = true -> "{"%byte ∉ l.
Proof.
  intros Hall Hin. rewrite forallb_forall in Hall.
  apply list_elem_of_In, Hall in Hin. simpl in Hin. discriminate.
Qed.

Lemma digits_no_brace (n : nat) : "{"%byte ∉ encode (str_nat n).
Proof.
  destruct (encode_str_nat n) as (d & ds & -> & Hds).
  apply (placeholder_disjoint (d :: ds) Hds). apply list_elem_of_here.
Qed.

Lemma catalog_no_placeholder (pages_obj : nat) :
  contains placeholder (catalog_object pages_obj) = false.
Proof.
  apply contains_without_head. unfold catalog_object.
  rewrite !encode_app. intros H.
  apply elem_of_app in H as [H | H].
  - revert H. now apply no_brace_check.
  - apply elem_of_app in H as [H | H]; [now apply digits_no_brace in H|].
    revert H. now apply no_brace_check.
Qed.

End Placeholder.

(** ** [PDF.save]: the bytes of the file *)

Module WritePass.
Import Spec.
Import PyStr PyNum PyBytes PageImpl PDFImpl ObjectStore Finalize BytesFacts Digits.

Lemma write_objects_spec (objs : list (nat * bytes)) (f : bytes)
    (offsets : list nat) :
  write_objects objs f offsets
  = (f ++ flat_map obj_bytes objs, offsets ++ obj_offsets (length f) objs).
Proof.
  revert f offsets. induction objs as [|[n content] rest IH]; intros f offsets.
  - simpl. now rewrite !app_nil_r.
  - cbn [write_objects]. rewrite IH. cbn [flat_map obj_offsets].
    unfold obj_bytes. cbn [fst snd].
    rewrite !length_app, <- !(assoc (++)). cbn [app].
    f_equal. do 2 f_equal. f_equal. lia.
Qed.

Lemma length_obj_offsets (pos : nat) (objs : list (nat * bytes)) :
  length (obj_offsets pos objs) = length objs.
Proof.
  revert pos. induction objs as [|o rest IH]; intros pos; simpl;
    [reflexivity | now rewrite IH].
Qed.

(** The file, piece by piece. *)
Lemma write_file_eq (objs : list (nat * bytes)) (catalog_obj : nat) :
  let body := file_header ++ flat_map obj_bytes objs in
  let offsets := 0 :: obj_offsets (length file_header) objs in
  write_file objs catalog_obj
  = body ++ xref_section offsets
    ++ trailer_section offsets catalog_obj (length body).
Proof.
  unfold write_file. fold file_header.
  rewrite write_objects_spec. cbn zeta. cbn [app].
  now rewrite <- (assoc (++)).
Qed.

(** The offset of object [k] is the length of what is written before it. *)
Lemma obj_offsets_lookup (objs : list (nat * bytes)) (pos k : nat) (o : nat * bytes) :
  objs !! k = Some o ->
  obj_offsets pos objs !! k
  = Some (pos + length (flat_map obj_bytes (take k objs))).
Proof.
  revert pos k. induction objs as [|o' rest IH]; intros pos k Hk; [discriminate|].
  destruct k as [|k]; simpl.
  - f_equal. lia.
  - simpl in Hk. rewrite (IH _ _ Hk), length_app. f_equal. lia.
Qed.

(** At its offset in the file, object [k] begins. *)
Lemma object_at_offset (objs : list (nat * bytes)) (pre post : bytes)
    (k : nat) (o : nat * bytes) :
  objs !! k = Some o ->
  drop (length pre + length (flat_map obj_bytes (take k objs)))
    (pre ++ flat_map obj_bytes objs ++ post)
  = obj_bytes o ++ flat_map obj_bytes (drop (S k) objs) ++ post.
Proof.
  intros Hk.
  rewrite <- (take_drop_middle objs k o Hk) at 2.
  rewrite flat_map_app. cbn [flat_map].
  rewrite drop_app_add, <- !(assoc (++)).
  now rewrite drop_app_length.
Qed.

End WritePass.

(** ** [PDF.save]: the cross-reference table *)

Module Xref.
Import Spec.
Import PyStr PyNum PyBytes PageImpl PDFImpl ObjectStore Finalize BytesFacts Digits
  Placeholder WritePass.

Lemma leading_digits_app (ds rest : bytes) (b : byte) :
  forallb digit_byte ds = true -> digit_byte b = false ->
  leading_digits (ds ++ b :: rest) = ds.
Proof.
  intros Hds Hb. induction ds as [|d ds IH]; simpl.
  - now rewrite Hb.
  - simpl in Hds. apply andb_true_iff in Hds as [-> Hds]. now rewrite IH.
Qed.

Lemma all_digits_app (a b : string) :
  all_digits a = true -> all_digits b = true -> all_digits (a +:+ b) = true.
Proof.
  intros Ha Hb. induction a as [|c a IH]; simpl in *; [assumption|].
  apply andb_true_iff in Ha as [-> Ha]. simpl. auto.
Qed.

Lemma zeros_digits (k : nat) : all_digits (zeros k) = true.
Proof. induction k; simpl; auto. Qed.

Lemma uint_of_string_zeros (k : nat) (s : string) (d : Decimal.uint) :
  NilEmpty.uint_of_string s = Some d ->
  exists d', NilEmpty.uint_of_string (zeros k +:+ s) = Some d' /\
             Nat.of_uint d' = Nat.of_uint d.
Proof.
  intros Hs. induction k as [|k (d' & Hd' & Hv)]; simpl.
  - eauto.
  - rewrite Hd'. simpl. exists (Decimal.D0 d'). split; [reflexivity|].
    rewrite <- Hv. reflexivity.
Qed.

(** A zero-padded decimal number reads back as the number. *)
Lemma parse_fmt_010d (n : nat) : parse_nat (fmt_010d n) = Some n.
Proof.
  unfold fmt_010d, zfill, str_nat.
  destruct (uint_of_string_zeros (10 - String.length (NilEmpty.string_of_uint (Nat.to_uint n)))
              _ _ (NilEmpty.usu (Nat.to_uint n))) as (d' & Hd' & Hv).
  unfold parse_nat. rewrite Hd'. simpl.
  rewrite Hv, DecimalNat.Unsigned.of_to.
  pose proof (PyStrFacts.nonempty_app_r
                (zeros (10 - String.length (NilEmpty.string_of_uint (Nat.to_uint n))))
                _ (str_nat_nonempty n)) as Hne.
  unfold str_nat in Hne.
  destruct (zeros _ +:+ _); [discriminate | reflexivity].
Qed.

Lemma lines_of_line (l rest : bytes) :
  one_line l = true -> lines_of (l ++ "010"%byte :: rest) = l :: lines_of rest.
Proof.
  induction l as [|b l IH]; intros Hl; [reflexivity|].
  cbn [one_line forallb] in Hl. apply andb_true_iff in Hl as [Hb Hl].
  cbn [app lines_of]. apply negb_true_iff in Hb. rewrite Hb.
  now rewrite (IH Hl).
Qed.

Lemma one_line_app (a b : bytes) :
  one_line a = true -> one_line b = true -> one_line (a ++ b) = true.
Proof. intros Ha Hb. unfold one_line in *. now rewrite forallb_app, Ha, Hb. Qed.

Lemma digits_one_line (l : bytes) : forallb digit_byte l = true -> one_line l = true.
Proof.
  induction l as [|b l IH]; [reflexivity|]. cbn [forallb one_line].
  intros H. apply andb_true_iff in H as [Hb Hl].
  apply andb_true_iff. split; [|now apply IH].
  apply negb_true_iff. destruct (Byte.eqb b "010") eqn:E; [|reflexivity].
  apply byte_dec_bl in E. subst b. discriminate.
Qed.

Lemma encode_line (s : string) : encode (s +:+ nl) = encode s ++ ["010"%byte].
Proof. now rewrite encode_app. Qed.

(** The line of the table for an offset. *)
Lemma xref_entry_line (off : nat) :
  xref_entry off = encode (fmt_010d off +:+ " 00000 n ") ++ ["010"%byte] /\
  one_line (encode (fmt_010d off +:+ " 00000 n ")) = true.
Proof.
  assert (all_digits (fmt_010d off) = true) as Hd.
  { apply all_digits_app; [apply zeros_digits | apply str_nat_digits]. }
  destruct (encode_digits _ Hd) as [_ Hall].
  split.
  - unfold xref_entry. now rewrite !encode_app, <- app_assoc.
  - rewrite encode_app. apply one_line_app; [now apply digits_one_line | reflexivity].
Qed.

Lemma entry_offset_line (off : nat) :
  entry_offset (encode (fmt_010d off +:+ " 00000 n ")) = Some off.
Proof.
  unfold entry_offset. rewrite encode_app.
  assert (all_digits (fmt_010d off) = true) as Hd.
  { apply all_digits_app; [apply zeros_digits | apply str_nat_digits]. }
  destruct (encode_digits _ Hd) as [E Hall].
  change (encode " 00000 n ") with (" "%byte :: encode "00000 n ").
  rewrite leading_digits_app by (assumption || reflexivity).
  rewrite E, String.string_of_list_byte_of_string. apply parse_fmt_010d.
Qed.

Lemma lines_of_entries (offs : list nat) (rest : bytes) :
  lines_of (flat_map xref_entry offs ++ rest)
  = map (fun off => encode (fmt_010d off +:+ " 00000 n ")) offs ++ lines_of rest.
Proof.
  induction offs as [|off offs IH]; [reflexivity|].
  cbn [flat_map map]. destruct (xref_entry_line off) as [-> Hl].
  rewrite <- !app_assoc. cbn [app]. rewrite (lines_of_line _ _ Hl), IH.
  reflexivity.
Qed.

(** The lines of the table, read from the bytes written after the objects. *)
Lemma lines_of_table (offsets : list nat) (cat xref_offset : nat) :
  exists rest,
    lines_of (xref_section offsets ++ trailer_section offsets cat xref_offset)
    = encode "xref"
      :: encode ("0 " +:+ str_nat (length offsets))
      :: encode "0000000000 65535 f "
      :: map (fun off => encode (fmt_010d off +:+ " 00000 n ")) (tail offsets)
         ++ encode "trailer" :: rest.
Proof.
  unfold xref_section, trailer_section.
  destruct (encode_digits _ (str_nat_digits (length offsets))) as [_ Hn].
  rewrite !encode_app, <- !app_assoc.
  change (encode nl) with ["010"%byte]. cbn [app].
  rewrite (lines_of_line (encode "xref")) by reflexivity.
  rewrite (app_assoc (encode "0 ")).
  rewrite (lines_of_line (encode "0 " ++ encode (str_nat (length offsets))))
    by (apply one_line_app; [reflexivity | now apply digits_one_line]).
  rewrite (lines_of_line (encode "0000000000 65535 f ")) by reflexivity.
  rewrite lines_of_entries.
  rewrite (lines_of_line (encode "trailer")) by reflexivity.
  eexists. reflexivity.
Qed.

Section Save.
Variable float_str : Q -> string.

Lemma finalize_numbered (self self' : PDF) (show : bool) (catalog_obj : nat) :
  numbered (objects self) ->
  finalize float_str self show = Ok (self', catalog_obj) ->
  numbered (objects self').
Proof.
  intros Hn H. apply finalize_objects in H as (contents & pages_obj & Ho & _ & _).
  cbn zeta in Ho. rewrite Ho.
  pose proof (numbered_tagged _ contents Hn) as Hn'.
  set (objs := objects self ++ tagged (length (objects self)) contents) in *.
  intros k n c Hk.
  apply lookup_app_Some in Hk as [Hk | [Hge Hk]].
  - rewrite list_lookup_fmap in Hk.
    destruct (objs !! k) as [o|] eqn:E; simpl in Hk; [|discriminate].
    pose proof (fix_object_number pages_obj o) as Hnum.
    injection Hk as Hk. rewrite Hk in Hnum. simpl in Hnum.
    destruct o as [n' c']. simpl in Hnum. subst n'. now apply (Hn' k n c').
  - rewrite length_map in Hk, Hge.
    destruct (k - length objs) as [|j] eqn:Ej; simpl in Hk; [|discriminate].
    injection Hk as <- _. lia.
Qed.

(** C1. For every document whose objects carry the numbers [add_object]
    gave them, when [save] returns, the file it wrote ends with [startxref]
    and the offset of the cross-reference table.  Read line by line from
    that offset, the table is [xref], the count line, the entry of the free
    object, one entry per object in the order of the numbers, and then
    [trailer].  The entry of object [k + 1] is a ten-digit offset followed by
    [ 00000 n ]; it reads as a number [off], and at the byte position [off]
    of the file begins the header [k + 1 0 obj] of that object, followed by
    its content and [endobj]. *)
Theorem save_xref_offsets (self : PDF) (fs : gmap string bytes)
    (filename : string) (show_page_numbers : bool) (self' : PDF)
    (fs' : gmap string bytes) :
  numbered (objects self) ->
  save float_str self fs filename show_page_numbers = (Ok self', fs') ->
  exists (out : bytes) (xref_offset : nat) (table : list bytes),
    fs' !! filename = Some out /\
    (exists pre,
       out = pre ++ encode ("startxref" +:+ nl +:+ str_nat xref_offset +:+ nl
                            +:+ "%%EOF" +:+ nl)) /\
    table = lines_of (drop xref_offset out) /\
    table !! 0 = Some (encode "xref") /\
    table !! 1 = Some (encode ("0 " +:+ str_nat (length (objects self') + 1))) /\
    table !! 2 = Some (encode "0000000000 65535 f ") /\
    table !! (length (objects self') + 3) = Some (encode "trailer") /\
    forall k, k < length (objects self') ->
      exists (entry : bytes) (off : nat) (content rest : bytes),
        table !! (k + 3) = Some entry /\
        entry = encode (fmt_010d off +:+ " 00000 n ") /\
        entry_offset entry = Some off /\
        objects self' !! k = Some (S k, content) /\
        drop off out
        = encode (str_nat (S k) +:+ " 0 obj" +:+ nl) ++ content
          ++ encode (nl +:+ "endobj" +:+ nl) ++ rest.
Proof.
  intros Hn. unfold save.
  destruct (finalize float_str self show_page_numbers) as [[s cat]|e] eqn:E;
    [|discriminate].
  intros H. injection H as <- <-.
  pose proof (finalize_numbered _ _ _ _ Hn E) as Hn'.
  set (objs := objects s) in *.
  set (body := file_header ++ flat_map obj_bytes objs).
  set (offs := obj_offsets (length file_header) objs).
  assert (write_file objs cat
          = body ++ xref_section (0 :: offs)
            ++ trailer_section (0 :: offs) cat (length body)) as Hout
    by apply write_file_eq.
  assert (length offs = length objs) as Hlen by apply length_obj_offsets.
  destruct (lines_of_table (0 :: offs) cat (length body)) as [rest Htable].
  cbn [tail length] in Htable.
  exists (write_file objs cat), (length body),
    (lines_of (drop (length body) (write_file objs cat))).
  split; [apply lookup_insert_eq|].
  split.
  { exists (body ++ xref_section (0 :: offs)
            ++ encode ("trailer" +:+ nl)
            ++ encode ("<< /Size " +:+ str_nat (length (0 :: offs)) +:+ " /Root "
                       +:+ str_nat cat +:+ " 0 R >>" +:+ nl)).
    rewrite Hout. unfold trailer_section.
    rewrite !encode_app, <- !app_assoc. reflexivity. }
  split; [reflexivity|].
  assert (lines_of (drop (length body) (write_file objs cat))
          = encode "xref"
            :: encode ("0 " +:+ str_nat (S (length offs)))
            :: encode "0000000000 65535 f "
            :: map (fun off => encode (fmt_010d off +:+ " 00000 n ")) offs
               ++ encode "trailer" :: rest) as ->
    by (rewrite Hout, drop_app_length; exact Htable).
  split; [reflexivity|].
  split.
  { cbn [lookup list_lookup]. rewrite Hlen.
    now replace (length objs + 1) with (S (length objs)) by lia. }
  split; [reflexivity|].
  split.
  { apply (list_lookup_middle
             (encode "xref" :: encode ("0 " +:+ str_nat (S (length offs)))
              :: encode "0000000000 65535 f "
              :: map (fun off => encode (fmt_010d off +:+ " 00000 n ")) offs)
             rest (encode "trailer")).
    cbn [length]. rewrite length_map, Hlen. lia. }
  intros k Hk.
  destruct (lookup_lt_is_Some_2 objs k Hk) as [[n content] Ho].
  pose proof (Hn' k n content Ho) as ->.
  pose proof (obj_offsets_lookup objs (length file_header) k _ Ho) as Hoff.
  fold offs in Hoff.
  set (off := length file_header + length (flat_map obj_bytes (take k objs))) in *.
  exists (encode (fmt_010d off +:+ " 00000 n ")), off, content,
    (flat_map obj_bytes (drop (S k) objs)
     ++ xref_section (0 :: offs) ++ trailer_section (0 :: offs) cat (length body)).
  split.
  { replace (k + 3) with (S (S (S k))) by lia.
    match goal with |- (_ :: _ :: _ :: ?L) !! _ = ?r => change (L !! k = r) end.
    rewrite lookup_app_l by (rewrite length_map, Hlen; exact Hk).
    now rewrite list_lookup_fmap, Hoff. }
  split; [reflexivity|].
  split; [apply entry_offset_line|].
  split; [exact Ho|].
  rewrite Hout. unfold body. rewrite <- app_assoc.
  unfold off. rewrite (object_at_offset _ _ _ _ _ Ho).
  unfold obj_bytes, obj_header. cbn [fst snd].
  now rewrite <- !app_assoc.
Qed.

End Save.

End Xref.

(** ** [PDF.save]: no placeholder in the file *)

Module Resolved.
Import Spec.
Import PyStr PyNum PyBytes PageImpl PDFImpl ObjectStore Finalize BytesFacts Digits
  Placeholder WritePass Xref Unresolved AsciiEnum.

Lemma no_brace_app (a b : string) :
  no_brace (a +:+ b) = no_brace a && no_brace b.
Proof.
  induction a as [|c a IH]; simpl; [reflexivity|].
  now rewrite IH, andb_assoc.
Qed.

Lemma utf8_char_no_brace (c : ascii) :
  Ascii.eqb c "{" = false ->
  forallb (fun b => negb (Byte.eqb "{" b)) (utf8_char c) = true.
Proof.
  intros Hc.
  assert (forall c, (Ascii.eqb c "{"
            || forallb (fun b => negb (Byte.eqb "{" b)) (utf8_char c)) = true) as H.
  { apply for_all_ascii. vm_compute. reflexivity. }
  specialize (H c). now rewrite Hc in H.
Qed.

Lemma encode_no_brace (s : string) : no_brace s = true -> "{"%byte ∉ encode s.
Proof.
  intros Hs. apply no_brace_check.
  induction s as [|c s IH]; simpl in *; [reflexivity|].
  apply andb_true_iff in Hs as [Hc Hs]. apply negb_true_iff in Hc.
  rewrite forallb_app, (utf8_char_no_brace c Hc). simpl. auto.
Qed.

Lemma digits_no_brace_str (s : string) : all_digits s = true -> no_brace s = true.
Proof.
  induction s as [|c s IH]; simpl; [reflexivity|].
  intros H. apply andb_true_iff in H as [Hc Hs].
  rewrite (IH Hs), andb_true_r.
  assert (forall c, (negb (digit_char c) || negb (Ascii.eqb c "{")) = true) as Hall.
  { apply for_all_ascii. vm_compute. reflexivity. }
  specialize (Hall c). now rewrite Hc in Hall.
Qed.

Lemma str_nat_no_brace (n : nat) : no_brace (str_nat n) = true.
Proof. apply digits_no_brace_str, str_nat_digits. Qed.

Lemma fmt_010d_no_brace (n : nat) : no_brace (fmt_010d n) = true.
Proof.
  apply digits_no_brace_str, all_digits_app;
    [apply zeros_digits | apply str_nat_digits].
Qed.

Lemma obj_header_no_brace (n : nat) : "{"%byte ∉ obj_header n.
Proof.
  apply encode_no_brace. rewrite no_brace_app, str_nat_no_brace. reflexivity.
Qed.

Lemma xref_entries_no_brace (offsets : list nat) :
  "{"%byte ∉ flat_map xref_entry offsets.
Proof.
  induction offsets as [|off rest IH]; simpl; [set_solver|].
  intros H. apply elem_of_app in H as [H | H]; [|contradiction].
  revert H. apply encode_no_brace.
  rewrite no_brace_app, fmt_010d_no_brace. reflexivity.
Qed.

Lemma xref_section_no_brace (offsets : list nat) : "{"%byte ∉ xref_section offsets.
Proof.
  unfold xref_section. intros H.
  apply elem_of_app in H as [H | H].
  - revert H. apply encode_no_brace.
    rewrite !no_brace_app, str_nat_no_brace. reflexivity.
  - apply elem_of_app in H as [H | H].
    + revert H. now apply encode_no_brace.
    + now apply xref_entries_no_brace in H.
Qed.

Lemma trailer_section_no_brace (offsets : list nat) (catalog_obj xref_offset : nat) :
  "{"%byte ∉ trailer_section offsets catalog_obj xref_offset.
Proof.
  unfold trailer_section. rewrite <- !encode_app.
  apply encode_no_brace.
  rewrite !no_brace_app, !str_nat_no_brace. reflexivity.
Qed.

(** An occurrence that begins in [x] and runs over a byte that is not in the
    pattern lies within [x]. *)
Lemma starts_with_sep (pat x rest : bytes) (sep : byte) :
  sep ∉ pat -> starts_with pat (x ++ sep :: rest) = true ->
  starts_with pat x = true.
Proof.
  revert x. induction pat as [|p pat IH]; intros x Hsep; [reflexivity|].
  destruct x as [|c x]; simpl.
  - intros H. apply andb_true_iff in H as [H _].
    apply byte_dec_bl in H. set_solver.
  - intros H. apply andb_true_iff in H as [-> H]. simpl.
    apply IH; [set_solver | assumption].
Qed.

Lemma contains_app_sep (pat x rest : bytes) (sep : byte) :
  sep ∉ pat -> contains pat x = false ->
  contains pat (x ++ sep :: rest) = contains pat (sep :: rest).
Proof.
  intros Hsep. induction x as [|c x IH]; [reflexivity|].
  rewrite contains_cons. intros H. apply orb_false_iff in H as [H1 H2].
  change ((c :: x) ++ sep :: rest) with (c :: (x ++ sep :: rest)).
  rewrite contains_cons, (IH H2).
  destruct (starts_with pat (c :: x ++ sep :: rest)) eqn:E; [|reflexivity].
  apply (starts_with_sep pat (c :: x) rest sep Hsep) in E. congruence.
Qed.

Lemma newline_not_in_placeholder : "010"%byte ∉ placeholder.
Proof.
  intros H. apply list_elem_of_In in H. vm_compute in H.
  repeat (destruct H as [H | H]; [discriminate|]). exact H.
Qed.

(** Objects without placeholder, written one after the other, give bytes
    without placeholder. *)
Lemma objects_no_placeholder (objs : list (nat * bytes)) (post : bytes) :
  Forall (fun o => contains placeholder o.2 = false) objs ->
  contains placeholder (flat_map obj_bytes objs ++ post) = contains placeholder post.
Proof.
  induction 1 as [|[n content] rest Ho Hrest IH]; [reflexivity|].
  cbn [flat_map]. unfold obj_bytes at 1. cbn [fst snd] in *.
  rewrite <- !(assoc (++)).
  change placeholder with ("{"%byte :: encode "pages}") at 1.
  rewrite contains_app_other by apply obj_header_no_brace.
  change (encode (nl +:+ "endobj" +:+ nl) ++ flat_map obj_bytes rest ++ post)
    with ("010"%byte :: encode ("endobj" +:+ nl) ++ flat_map obj_bytes rest ++ post).
  fold placeholder.
  rewrite (contains_app_sep _ _ _ _ newline_not_in_placeholder Ho).
  change ("010"%byte :: encode ("endobj" +:+ nl) ++ flat_map obj_bytes rest ++ post)
    with (encode (nl +:+ "endobj" +:+ nl) ++ flat_map obj_bytes rest ++ post).
  change placeholder with ("{"%byte :: encode "pages}") at 1.
  rewrite contains_app_other by now apply encode_no_brace.
  exact IH.
Qed.

Lemma write_file_no_placeholder (objs : list (nat * bytes)) (catalog_obj : nat) :
  Forall (fun o => contains placeholder o.2 = false) objs ->
  contains placeholder (write_file objs catalog_obj) = false.
Proof.
  intros Hobjs. rewrite write_file_eq. cbn zeta.
  rewrite <- (assoc (++)).
  change placeholder with ("{"%byte :: encode "pages}") at 1.
  rewrite contains_app_other by now apply encode_no_brace.
  fold placeholder. rewrite (objects_no_placeholder _ _ Hobjs).
  apply contains_without_head. intros H.
  apply elem_of_app in H as [H | H].
  - now apply xref_section_no_brace in H.
  - now apply trailer_section_no_brace in H.
Qed.

Section Save.
Variable float_str : Q -> string.

(** For every call of [save] that returns, no placeholder is left: the
    substitution pass has run over every object, no object of the document
    and no part of the file written holds the token [{pages}], and every
    image usage of every page carries the number of its object.  (The code
    has no check for a placeholder left, and none is needed.) *)
Theorem save_writes_no_placeholder (self : PDF) (fs : gmap string bytes)
    (filename : string) (show_page_numbers : bool) (self' : PDF)
    (fs' : gmap string bytes) :
  save float_str self fs filename show_page_numbers = (Ok self', fs') ->
  Forall (fun o => contains placeholder o.2 = false) (objects self') /\
  Forall (fun p => Forall (fun u => is_Some u.2) (image_usages p)) (pages self') /\
  exists out, fs' !! filename = Some out /\ contains placeholder out = false.
Proof.
  unfold save.
  destruct (finalize float_str self show_page_numbers) as [[s cat]|e] eqn:E;
    [|discriminate].
  intros H. injection H as <- <-.
  apply finalize_objects in E as (contents & pages_obj & Ho & _ & Hres).
  cbn zeta in Ho.
  assert (Forall (fun o => contains placeholder o.2 = false) (objects s)) as Hobjs.
  { rewrite Ho. apply Forall_app. split.
    - apply Forall_fmap, Forall_forall. intros o _.
      apply fix_object_no_placeholder.
    - repeat constructor. apply catalog_no_placeholder. }
  split; [exact Hobjs|].
  split; [now apply resolve_pages_ok in Hres as [_ ?]|].
  eexists. split; [apply lookup_insert_eq|].
  now apply write_file_no_placeholder.
Qed.

End Save.

End Resolved.

(** ** Example documents *)

Module Scenarios.
Import Spec.
Import PyStr PyNum PyBytes PageImpl PDFImpl ObjectStore Finalize BytesFacts
  Placeholder Unresolved Xref Resolved.

(** The documents the calls build keep the numbering of the objects. *)
Lemma numbered_init : numbered (objects init).
Proof. intros k n c Hk. discriminate. Qed.

Lemma numbered_on_page (self self' : PDF) (i : nat)
    (method : Page -> result (Page * list string)) (printed : list string) :
  on_page self i method = Ok (self', printed) ->
  numbered (objects self) -> numbered (objects self').
Proof.
  unfold on_page. destruct (pages self !! i) as [page|]; [|discriminate].
  destruct (method page) as [[page' out]|e]; cbn [mbind result_bind];
    [|discriminate].
  intros H. now injection H as <- _.
Qed.

Lemma numbered_add_object (self : PDF) (content : bytes) :
  numbered (objects self) -> numbered (objects (add_object self content).1).
Proof. apply grows_numbered, grows_add_object. Qed.

Lemma numbered_embed_image (open_image : string -> option DecodedImage)
    (self self' : PDF) (img_path : string) (compress : bool)
    (r : string * nat * Z * Z) :
  embed_image open_image self img_path compress = Ok (self', r) ->
  numbered (objects self) -> numbered (objects self').
Proof.
  unfold embed_image. destruct (open_image img_path) as [img|]; [|discriminate].
  destruct (img_size img) as [iw ih].
  match goal with |- context [add_object self ?c] =>
    pose proof (numbered_add_object self c) as Hn;
    destruct (add_object self c) as [self1 n]
  end.
  intros H. injection H as <- _. exact Hn.
Qed.

Lemma numbered_text_doc (text : string) : numbered (objects (text_doc text)).
Proof.
  unfold text_doc.
  destruct (add_page init "A4" "portrait" None None 50 50) as [d i] eqn:E.
  assert (numbered (objects d)) as Hd.
  { unfold add_page in E. simpl in E. injection E as <- _. apply numbered_init. }
  destruct (on_page d i _) as [[d' out]|e] eqn:E'; [|exact Hd].
  exact (numbered_on_page _ _ _ _ _ E' Hd).
Qed.

Lemma save_xref_offsets_witness :
  exists (self' : PDF) (fs' : gmap string bytes) (out : bytes)
         (xref_offset : nat) (table : list bytes),
    save float_str_short (text_doc "Hello") ∅ "hello.pdf" false = (Ok self', fs') /\
    fs' !! "hello.pdf" = Some out /\
    (exists pre,
       out = pre ++ encode ("startxref" +:+ nl +:+ str_nat xref_offset +:+ nl
                            +:+ "%%EOF" +:+ nl)) /\
    table = lines_of (drop xref_offset out) /\
    table !! 0 = Some (encode "xref") /\
    table !! 1 = Some (encode ("0 " +:+ str_nat (length (objects self') + 1))) /\
    table !! 2 = Some (encode "0000000000 65535 f ") /\
    table !! (length (objects self') + 3) = Some (encode "trailer") /\
    forall k, k < length (objects self') ->
      exists (entry : bytes) (off : nat) (content rest : bytes),
        table !! (k + 3) = Some entry /\
        entry = encode (fmt_010d off +:+ " 00000 n ") /\
        entry_offset entry = Some off /\
        objects self' !! k = Some (S k, content) /\
        drop off out
        = encode (str_nat (S k) +:+ " 0 obj" +:+ nl) ++ content
          ++ encode (nl +:+ "endobj" +:+ nl) ++ rest.
Proof.
  eexists _, _.
  assert (save float_str_short (text_doc "Hello") ∅ "hello.pdf" false = (Ok _, _))
    as Hsave by (vm_compute; reflexivity).
  destruct (save_xref_offsets float_str_short _ _ _ _ _ _
              (numbered_text_doc "Hello") Hsave)
    as (out & xref_offset & table & H).
  exists out, xref_offset, table. split; [exact Hsave | exact H].
Defined.

Lemma save_unresolved_image_witness :
  exists page' missing o',
    page' ∈ pages (image_doc "Im9") /\
    (missing, o') ∈ image_usages page' /\
    images (image_doc "Im9") !! missing = None /\
    save float_str_short (image_doc "Im9") ∅ "out.pdf" false
    = (Raise (UnresolvedResource missing), ∅).
Proof.
  apply (save_unresolved_image float_str_short (image_doc "Im9") ∅ "out.pdf" false
           (MkPage (59528 # 100) (84189 # 100) 50 50 []
              [MkImageElement "Im9" 100 100 None None 1 None] [("Im9", None)] [])
           "Im9" None).
  - apply list_elem_of_here.
  - apply list_elem_of_here.
  - reflexivity.
Defined.

Lemma save_writes_no_placeholder_witness :
  exists (self' : PDF) (fs' : gmap string bytes),
    save float_str_short (text_doc "{pages}") ∅ "out.pdf" false = (Ok self', fs') /\
    Forall (fun o => contains placeholder o.2 = false) (objects self') /\
    Forall (fun p => Forall (fun u => is_Some u.2) (image_usages p)) (pages self') /\
    exists out, fs' !! "out.pdf" = Some out /\ contains placeholder out = false.
Proof.
  eexists _, _.
  assert (save float_str_short (text_doc "{pages}") ∅ "out.pdf" false = (Ok _, _))
    as Hsave by (vm_compute; reflexivity).
  split; [exact Hsave|].
  exact (save_writes_no_placeholder float_str_short _ _ _ _ _ _ Hsave).
Defined.

(** ** Declared stream lengths *)

(** When it is made, a stream object declares the length of its payload. *)
Lemma stream_object_declares_length (stream : bytes) :
  stream_object stream
  = encode ("<< /Length " +:+ str_nat (length stream) +:+ " >>" +:+ nl
            +:+ "stream" +:+ nl)
    ++ stream ++ encode (nl +:+ "endstream").
Proof. reflexivity. Qed.

(** The substitution pass keeps an object that holds no placeholder. *)
Lemma fix_object_absent (pages_obj : nat) (o : nat * bytes) :
  contains placeholder o.2 = false -> fix_object pages_obj o = o.
Proof. destruct o as [n data]. simpl. intros H. unfold fix_object. now rewrite H. Qed.

(** C2 fails on the code: for the page text [{pages}] the stream object
    is made with [/Length 73], the length of its payload then; the substitution
    pass rewrites the text inside the payload, and the object [save] writes
    declares 73 bytes and holds 67. *)
Theorem save_stream_length_mismatch :
  let payload :=
    encode ("0.000 0.000 0.000 rg" +:+ nl
            +:+ "BT /Helvetica 24 Tf 100.00 700.00 Td (7) Tj ET") in
  let written :=
    encode ("<< /Length 73 >>" +:+ nl +:+ "stream" +:+ nl)
    ++ payload ++ encode (nl +:+ "endstream") in
  exists (self' : PDF) (fs' : gmap string bytes) (out : bytes),
    save float_str_short (text_doc "{pages}") ∅ "out.pdf" false = (Ok self', fs') /\
    objects self' !! 4 = Some (5, written) /\
    length payload = 67 /\
    fs' !! "out.pdf" = Some out /\
    take (length (obj_header 5 ++ written)) (drop 404 out) = obj_header 5 ++ written.
Proof.
  cbn zeta. eexists _, _, _.
  split; [vm_compute; reflexivity|].
  split; [vm_compute; reflexivity|].
  split; [vm_compute; reflexivity|].
  split; vm_compute; reflexivity.
Qed.

End Scenarios.

(** * Further properties of the code *)

(** ** Colours: values, clamping and names *)

Module ColorValues.
Import Spec.
Import PyStr PyStrFacts PyNum PageImpl AsciiEnum Colors.

Lemma hex_pair_range (a b : ascii) :
  is_hex_digit a = true -> is_hex_digit b = true ->
  (0 <= hex_pair a b <= 255)%Z.
Proof.
  intros Ha Hb.
  assert (forall a b, (negb (is_hex_digit a && is_hex_digit b)
            || ((0 <=? hex_pair a b)%Z && (hex_pair a b <=? 255)%Z)) = true) as H.
  { apply for_all_ascii2. vm_compute. reflexivity. }
  specialize (H a b). rewrite Ha, Hb in H. simpl in H.
  apply andb_true_iff in H as [H1 H2]. lia.
Qed.

Lemma hex_to_rgb_six (a b c d e f : ascii) :
  all_hex (String a (String b (String c (String d (String e (String f ""))))))
  = true ->
  let h := String a (String b (String c (String d (String e (String f ""))))) in
  hex_to_rgb h = Ok (hex_pair a b, hex_pair c d, hex_pair e f) /\
  hex_to_rgb ("#" +:+ h) = Ok (hex_pair a b, hex_pair c d, hex_pair e f).
Proof.
  intros Hall h.
  assert (valid_hex h = true) as Hv by (unfold valid_hex, h; now rewrite Hall).
  simpl in Hall. repeat (apply andb_true_iff in Hall as [? Hall]).
  rewrite (hex_to_rgb_plain h Hv), (hex_to_rgb_marked h Hv).
  unfold hex_digits_to_rgb, slice, h. simpl.
  rewrite !int16_hex_pair by assumption. simpl. split; reflexivity.
Qed.

(** For every six hexadecimal digits, [hex_to_rgb] returns the three
    numbers the pairs of digits write, each within 0..255, with the marker
    and without it. *)
Theorem hex_to_rgb_six_digits (a b c d e f : ascii) :
  all_hex (String a (String b (String c (String d (String e (String f ""))))))
  = true ->
  let h := String a (String b (String c (String d (String e (String f ""))))) in
  hex_to_rgb h = Ok (hex_pair a b, hex_pair c d, hex_pair e f) /\
  hex_to_rgb ("#" +:+ h) = Ok (hex_pair a b, hex_pair c d, hex_pair e f) /\
  (0 <= hex_pair a b <= 255)%Z /\ (0 <= hex_pair c d <= 255)%Z /\
  (0 <= hex_pair e f <= 255)%Z.
Proof.
  intros Hall h.
  destruct (hex_to_rgb_six a b c d e f Hall) as [H1 H2].
  simpl in Hall. repeat (apply andb_true_iff in Hall as [? Hall]).
  split; [exact H1|]. split; [exact H2|].
  repeat split; apply hex_pair_range; assumption.
Qed.

Lemma hex_to_rgb_six_digits_witness :
  hex_to_rgb "1327DB" = Ok (hex_pair "1" "3", hex_pair "2" "7", hex_pair "D" "B") /\
  hex_to_rgb ("#" +:+ "1327DB")
  = Ok (hex_pair "1" "3", hex_pair "2" "7", hex_pair "D" "B") /\
  (0 <= hex_pair "1" "3" <= 255)%Z /\ (0 <= hex_pair "2" "7" <= 255)%Z /\
  (0 <= hex_pair "D" "B" <= 255)%Z.
Proof. apply (hex_to_rgb_six_digits "1" "3" "2" "7" "D" "B"). reflexivity. Defined.

(** For every three hexadecimal digits, [hex_to_rgb] returns what it
    returns for the six digits that repeat each of them. *)
Theorem hex_to_rgb_shorthand (a b c : ascii) :
  all_hex (String a (String b (String c ""))) = true ->
  hex_to_rgb (String a (String b (String c "")))
  = hex_to_rgb (String a (String a (String b (String b (String c (String c ""))))))
  /\ hex_to_rgb (String a (String b (String c "")))
     = Ok (hex_pair a a, hex_pair b b, hex_pair c c).
Proof.
  intros Hall.
  assert (valid_hex (String a (String b (String c ""))) = true) as Hv
    by (unfold valid_hex; now rewrite Hall).
  simpl in Hall. repeat (apply andb_true_iff in Hall as [? Hall]).
  assert (all_hex (String a (String a (String b (String b (String c (String c ""))))))
          = true) as Hall6.
  { simpl. repeat (apply andb_true_iff; split); auto. }
  destruct (hex_to_rgb_six a a b b c c Hall6) as (-> & _).
  rewrite (hex_to_rgb_plain _ Hv).
  unfold hex_digits_to_rgb, slice. simpl.
  rewrite !int16_hex_pair by assumption. simpl. split; reflexivity.
Qed.

Lemma hex_to_rgb_shorthand_witness :
  hex_to_rgb "F0a" = hex_to_rgb "FF00aa" /\
  hex_to_rgb "F0a" = Ok (hex_pair "F" "F", hex_pair "0" "0", hex_pair "a" "a").
Proof. apply (hex_to_rgb_shorthand "F" "0" "a"). reflexivity. Defined.

Lemma normalize_unit (c : Q) : (0 <= normalize c)%Q /\ (normalize c <= 1)%Q.
Proof.
  unfold normalize.
  set (z := Z.max 0 (Z.min 255 (PyNum.int c))).
  assert (0 <= z <= 255)%Z as Hz by (unfold z; lia).
  clearbody z. unfold Qdiv, Qle. simpl. lia.
Qed.

(** Every colour [add_text] resolves has its three components within
    0..1, whatever the numbers of a tuple are: the resolution clamps. *)
Theorem resolve_color_unit_range (c : color_arg) (r g b : Q) :
  resolve_color c = Ok (r, g, b) ->
  (0 <= r <= 1)%Q /\ (0 <= g <= 1)%Q /\ (0 <= b <= 1)%Q.
Proof.
  unfold resolve_color.
  destruct (parse_color c) as [[[r0 g0] b0]|e]; cbn [mbind result_bind];
    [|discriminate].
  intros H. injection H as <- <- <-.
  repeat split; apply normalize_unit.
Qed.

Lemma resolve_color_unit_range_witness :
  (0 <= 255 # 255 <= 1)%Q /\ (0 <= 0 # 255 <= 1)%Q /\ (0 <= 128 # 255 <= 1)%Q.
Proof.
  apply (resolve_color_unit_range (ColorSeq [300; -5; 128]%Q)). reflexivity.
Defined.

Lemma lower_head (c : string) (name : string) :
  lower c = name -> startswith_char "#" name = false ->
  startswith_char "#" c = false.
Proof.
  intros <-. destruct c as [|a c]; [reflexivity|]. simpl.
  assert (forall a, (negb (Ascii.eqb a "#") || Ascii.eqb (lower_char a) "#") = true)
    as H.
  { apply for_all_ascii. vm_compute. reflexivity. }
  specialize (H a). destruct (Ascii.eqb a "#"); [|reflexivity].
  simpl in H. now rewrite H.
Qed.

Lemma color_MAP_no_marker (name : string) (v : Z * Z * Z) :
  color_MAP !! name = Some v -> startswith_char "#" name = false.
Proof.
  intros E. apply elem_of_list_to_map_2 in E.
  assert (Forall (fun kv => startswith_char "#" kv.1 = false) color_MAP_items)
    as Hall by (repeat constructor).
  rewrite Forall_forall in Hall. now apply Hall in E.
Qed.

(** A colour name resolves whatever the case of its letters: every string
    whose lower-case form is a key of [color_MAP] resolves to the colour of
    that key. *)
Theorem color_name_any_case (c : string) (r g b : Z) :
  color_MAP !! lower c = Some (r, g, b) ->
  parse_color (ColorStr c) = Ok (inject_Z r, inject_Z g, inject_Z b) /\
  parse_color (ColorStr c) = parse_color (ColorStr (lower c)).
Proof.
  intros E.
  pose proof (color_MAP_no_marker _ _ E) as Hm.
  pose proof (lower_head c _ eq_refl Hm) as Hc.
  assert (lower (lower c) = lower c) as Hidem.
  { clear. induction c as [|a c IH]; simpl; [reflexivity|]. f_equal; [|exact IH].
    assert (forall a, bool_decide (lower_char (lower_char a) = lower_char a) = true)
      as H by (apply for_all_ascii; vm_compute; reflexivity).
    exact (bool_decide_eq_true_1 _ (H a)). }
  unfold parse_color. rewrite Hc, Hm, Hidem, E. split; reflexivity.
Qed.

Lemma color_name_any_case_witness :
  parse_color (ColorStr "PuRpLe") = Ok (inject_Z 128, inject_Z 0, inject_Z 128) /\
  parse_color (ColorStr "PuRpLe") = parse_color (ColorStr (lower "PuRpLe")).
Proof. apply color_name_any_case. reflexivity. Defined.

End ColorValues.

(** ** [Page.wrap_text]: the words of the lines *)

Module WrapWords.
Import Spec.
Import PyStr PyStrFacts PageImpl WrapText.

Lemma join_cons (sep x : string) (l : list string) :
  l <> [] -> join sep (x :: l) = x +:+ sep +:+ join sep l.
Proof. destruct l; [congruence | reflexivity]. Qed.

Lemma join_snoc (sep : string) (g : list string) (w : string) :
  g <> [] -> join sep (g ++ [w]) = join sep g +:+ sep +:+ w.
Proof.
  induction g as [|x g IH]; [congruence|]. intros _.
  destruct g as [|y g]; [reflexivity|].
  change ((x :: y :: g) ++ [w]) with (x :: ((y :: g) ++ [w])).
  rewrite join_cons by (simpl; congruence).
  rewrite IH by congruence.
  rewrite (join_cons sep x (y :: g)) by congruence.
  now rewrite !append_assoc.
Qed.

Lemma join_head_ok (g : list string) :
  g <> [] -> Forall is_word g -> head_ok (join " " g) = true.
Proof.
  destruct g as [|x g]; [congruence|]. intros _ Hg.
  apply Forall_cons in Hg as [Hx _].
  destruct g; [now apply word_head_ok|].
  rewrite join_cons by congruence. now apply head_ok_app, word_head_ok.
Qed.

(** The line the loop tries for a group of words and one more word. *)
Lemma test_line_join (g : list string) (w : string) :
  Forall is_word g -> is_word w ->
  strip (join " " g +:+ " " +:+ w) = join " " (g ++ [w]).
Proof.
  intros Hg Hw. destruct g as [|x g].
  - now apply strip_first_word.
  - rewrite join_snoc by congruence.
    apply strip_joined; [|assumption]. now apply join_head_ok.
Qed.

Lemma wrap_loop_groups (mc : Z) (ws : list string) (groups : list (list string))
    (g : list string) :
  Forall is_word g -> Forall is_word ws ->
  exists groups',
    finish (wrap_loop mc ws (map (join " ") groups) (join " " g))
    = map (join " ") groups' /\
    concat groups' = concat groups ++ g ++ ws.
Proof.
  revert groups g. induction ws as [|w ws IH]; intros groups g Hg Hws.
  - unfold finish. cbn [wrap_loop fst snd].
    destruct g as [|x g].
    + exists groups. simpl. now rewrite !app_nil_r.
    + rewrite (head_ok_nonempty _ (join_head_ok (x :: g) ltac:(congruence) Hg)).
      exists (groups ++ [x :: g]). rewrite map_app, concat_app. simpl.
      now rewrite !app_nil_r.
  - apply Forall_cons in Hws as [Hw Hws]. cbn [wrap_loop].
    rewrite (test_line_join g w Hg Hw).
    destruct (len _ <=? mc)%Z.
    + destruct (IH groups (g ++ [w])) as (groups' & E & Hc);
        [apply Forall_app; split; [assumption | now constructor] | assumption |].
      exists groups'. split; [exact E|]. rewrite Hc, <- !(assoc (++)). reflexivity.
    + change [join " " g] with (map (join " ") [g]). rewrite <- map_app.
      change w with (join " " [w]) at 2.
      destruct (IH (groups ++ [g]) [w]) as (groups' & E & Hc);
        [now constructor | assumption |].
      exists groups'. split; [exact E|].
      rewrite Hc, concat_app. simpl. rewrite app_nil_r, <- !(assoc (++)).
      reflexivity.
Qed.

(** For every call of [wrap_text] that returns, the lines returned are
    the words of the text, in their order, put in groups and every group
    joined by single blanks: no word is lost, split, repeated or moved, and
    the whitespace between words is not kept. *)
Theorem wrap_text_regroups_words (self : Page) (text : string) (max_width : Q)
    (font_size : Z) (lines : list string) :
  wrap_text self text max_width font_size = Ok lines ->
  exists groups,
    lines = map (join " ") groups /\
    concat groups = split text.
Proof.
  intros Hcall. apply wrap_text_inv in Hcall as [_ ->].
  destruct (wrap_loop_groups (max_chars_of max_width font_size) (split text) [] [])
    as (groups & E & Hc); [constructor | apply split_words |].
  simpl in E, Hc. eauto.
Qed.

Lemma wrap_text_regroups_words_witness :
  exists lines groups,
    wrap_text a4_page "  pdfgen   wraps long text " 48 12 = Ok lines /\
    lines = map (join " ") groups /\
    concat groups = split "  pdfgen   wraps long text ".
Proof.
  eexists.
  assert (wrap_text a4_page "  pdfgen   wraps long text " 48 12 = Ok _)
    as Hcall by (vm_compute; reflexivity).
  destruct (wrap_text_regroups_words _ _ _ _ _ Hcall) as (groups & H1 & H2).
  exists groups. split; [exact Hcall|]. split; assumption.
Defined.

Lemma wrap_loop_nonempty (mc : Z) (ws lines : list string) (cur : string) :
  Forall is_word ws -> head_ok cur = true ->
  Forall (fun l => nonempty l = true) lines ->
  Forall (fun l => nonempty l = true) (finish (wrap_loop mc ws lines cur)).
Proof.
  revert lines cur. induction ws as [|w ws IH]; intros lines cur Hws Hc Hl.
  - unfold finish. simpl. rewrite (head_ok_nonempty cur Hc).
    apply Forall_app. split; [assumption|]. constructor; [|constructor].
    now apply head_ok_nonempty.
  - apply Forall_cons in Hws as [Hw Hws]. cbn [wrap_loop].
    destruct (len _ <=? mc)%Z.
    + apply IH; [assumption | | assumption].
      rewrite (strip_joined cur w Hc Hw). now apply head_ok_app.
    + apply IH; [assumption | now apply word_head_ok |].
      apply Forall_app. split; [assumption|]. constructor; [|constructor].
      now apply head_ok_nonempty.
Qed.

(** For every call of [wrap_text] that returns, only the first line
    returned can be empty, and it is not when the first word of the text is
    within the budget. *)
Theorem wrap_text_empty_line_first (self : Page) (text : string) (max_width : Q)
    (font_size : Z) (lines : list string) :
  wrap_text self text max_width font_size = Ok lines ->
  Forall (fun l => nonempty l = true) (tail lines) /\
  (forall w ws, split text = w :: ws ->
     (len w <= max_chars_of max_width font_size)%Z ->
     Forall (fun l => nonempty l = true) lines).
Proof.
  intros Hcall. apply wrap_text_inv in Hcall as [_ ->].
  pose proof (split_words text) as Hwords.
  set (mc := max_chars_of max_width font_size).
  destruct (split text) as [|w ws]; [split; [constructor | discriminate]|].
  apply Forall_cons in Hwords as [Hw Hws].
  cbn [wrap_loop]. rewrite (strip_first_word w Hw).
  pose proof (wrap_loop_nonempty mc ws [] w Hws (word_head_ok w Hw)
                ltac:(constructor)) as Hall.
  destruct (len w <=? mc)%Z eqn:E.
  - split; [|intros _ _ _ _; exact Hall].
    destruct (finish _); [constructor|]. now apply Forall_cons in Hall as [_ ?].
  - split.
    + pose proof (wrap_loop_app mc ws [""] [] w) as Happ.
      change ([] ++ [""]) with ([""] ++ @nil string).
      unfold finish in *. rewrite Happ. cbn [fst snd].
      destruct (nonempty _); exact Hall.
    + intros w' ws' Heq Hle. injection Heq as <- <-.
      apply Z.leb_gt in E. lia.
Qed.

Lemma wrap_text_empty_line_first_witness :
  exists lines,
    wrap_text a4_page "Supercalifragilistic is a long word" 60 12 = Ok lines /\
    Forall (fun l => nonempty l = true) (tail lines) /\
    (forall w ws, split "Supercalifragilistic is a long word" = w :: ws ->
       (len w <= max_chars_of 60 12)%Z ->
       Forall (fun l => nonempty l = true) lines).
Proof.
  eexists.
  assert (wrap_text a4_page "Supercalifragilistic is a long word" 60 12 = Ok _)
    as Hcall by (vm_compute; reflexivity).
  split; [exact Hcall|].
  exact (wrap_text_empty_line_first _ _ _ _ _ Hcall).
Defined.

Lemma join_app_len (a b : list string) :
  (len (join " " a) <= len (join " " (a ++ b)))%Z.
Proof.
  induction b as [|x b IH] using rev_ind; [rewrite app_nil_r; lia|].
  rewrite (assoc (++)).
  destruct (a ++ b) as [|y l] eqn:E.
  - apply app_eq_nil in E as [-> _]. unfold len. simpl. lia.
  - rewrite join_snoc by congruence. unfold len in *.
    rewrite !length_app. lia.
Qed.

Lemma wrap_loop_fits (mc : Z) (ws g lines : list string) :
  g <> [] -> Forall is_word g -> Forall is_word ws ->
  (len (join " " (g ++ ws)) <= mc)%Z ->
  wrap_loop mc ws lines (join " " g) = (lines, join " " (g ++ ws)).
Proof.
  revert g. induction ws as [|w ws IH]; intros g Hne Hg Hws Hlen.
  - now rewrite app_nil_r.
  - apply Forall_cons in Hws as [Hw Hws]. cbn [wrap_loop].
    rewrite (test_line_join g w Hg Hw).
    assert (g ++ w :: ws = (g ++ [w]) ++ ws) as Hassoc
      by now rewrite <- (assoc (++)).
    rewrite Hassoc in *.
    pose proof (join_app_len (g ++ [w]) ws) as Hmono.
    assert ((len (join " " (g ++ [w])) <=? mc)%Z = true) as -> by (apply Z.leb_le; lia).
    apply IH; [destruct g; discriminate | | assumption | assumption].
    apply Forall_app. split; [assumption | now constructor].
Qed.

(** For every text with a word in it whose words, joined by single blanks,
    are within the budget, a call of [wrap_text] that returns, returns one
    line: those words joined by single blanks. *)
Theorem wrap_text_short_text_one_line (self : Page) (text : string)
    (max_width : Q) (font_size : Z) (lines : list string) :
  split text <> [] ->
  (len (join " " (split text)) <= max_chars_of max_width font_size)%Z ->
  wrap_text self text max_width font_size = Ok lines ->
  lines = [join " " (split text)].
Proof.
  intros Hne Hlen Hcall. apply wrap_text_inv in Hcall as [_ ->].
  pose proof (split_words text) as Hwords.
  set (mc := max_chars_of max_width font_size) in *.
  destruct (split text) as [|w ws]; [congruence|].
  apply Forall_cons in Hwords as [Hw Hws].
  cbn [wrap_loop]. rewrite (strip_first_word w Hw).
  pose proof (join_app_len [w] ws) as Hmono. simpl app in Hmono.
  change (join " " [w]) with w in Hmono.
  assert ((len w <=? mc)%Z = true) as -> by (apply Z.leb_le; lia).
  change w with (join " " [w]) at 1.
  rewrite (wrap_loop_fits mc ws [w] []);
    [| discriminate | now constructor | assumption | exact Hlen].
  unfold finish. cbn [fst snd app].
  rewrite (head_ok_nonempty (join " " (w :: ws))); [reflexivity|].
  apply join_head_ok; [discriminate | now constructor].
Qed.

Lemma wrap_text_short_text_one_line_witness :
  exists lines,
    wrap_text a4_page "  Left   aligned " 200 14 = Ok lines /\
    lines = [join " " (split "  Left   aligned ")].
Proof.
  eexists.
  assert (wrap_text a4_page "  Left   aligned " 200 14 = Ok _)
    as Hcall by (vm_compute; reflexivity).
  split; [exact Hcall|].
  apply (wrap_text_short_text_one_line a4_page _ 200 14 _);
    [discriminate | vm_compute; discriminate | exact Hcall].
Defined.

End WrapWords.

(** ** [Page.add_text] and [Page.add_image]: what a call changes *)

Module PageCalls.
Import Spec SpecX.
Import PyStr PyStrFacts PageImpl WrapText TextLinks.

Section OneCall.
Variables (x y : Q) (size : Z) (rgb : Q * Q * Q) (font_ref align : string).
Variables (underline strike : bool) (background : option color_arg).
Variable link : option string.

Let step := add_text_line x y size rgb font_ref align underline strike
              background link.

Lemma add_text_line_frame (i : nat) (line : string) (p p1 : Page)
    (out : list string) :
  step i line p = Ok (p1, out) ->
  same_box p p1 /\
  image_elements p1 = image_elements p /\ image_usages p1 = image_usages p /\
  (exists elem, text_elements p1 = text_elements p ++ [elem]) /\
  links p1 = links p ++ links_from x y size align link i [line] /\
  length out <= 1.
Proof.
  unfold step, add_text_line. destruct rgb as [[r g] b].
  destruct (PyNum.float_of_int size) as [fs|e]; cbn [mbind result_bind];
    [|discriminate].
  match goal with |- context [mbind _ ?m] => destruct m as [bg_part|e] end;
    cbn [mbind result_bind]; [|discriminate].
  intros H. injection H as <- <-. cbn [width height padding_h padding_v
    text_elements image_elements image_usages links].
  split; [repeat split|]. split; [reflexivity|]. split; [reflexivity|].
  split; [eauto|]. split.
  - unfold links_from, line_link, line_rect. destruct link as [uri|]; simpl.
    + destruct (nonempty uri); [|now rewrite app_nil_r].
      now rewrite Nat.add_0_r.
    + now rewrite app_nil_r.
  - destruct (inside_padding _ _ _ _ _); simpl; lia.
Qed.

Lemma add_text_lines_frame (lines : list string) (i : nat) (p p1 : Page)
    (printed out : list string) :
  add_text_lines step i lines p printed = Ok (p1, out) ->
  same_box p p1 /\
  image_elements p1 = image_elements p /\ image_usages p1 = image_usages p /\
  (exists new, text_elements p1 = text_elements p ++ new /\
               length new = length lines) /\
  links p1 = links p ++ links_from x y size align link i lines /\
  (exists more, out = printed ++ more /\ length more <= length lines).
Proof.
  revert i p printed. induction lines as [|line rest IH]; intros i p printed;
    cbn [add_text_lines].
  - intros H. injection H as <- <-.
    split; [repeat split|]. split; [reflexivity|]. split; [reflexivity|].
    split; [exists []; now rewrite app_nil_r|]. split.
    + unfold links_from. destruct link as [uri|]; [destruct (nonempty uri)|];
        simpl; now rewrite app_nil_r.
    + exists []. now rewrite app_nil_r.
  - destruct (step i line p) as [[p2 out2]|e] eqn:E; cbn [mbind result_bind];
      [|discriminate].
    intros H. apply IH in H as (Hbox & Hie & Hiu & (new & Hnew & Hlen) & Hl & more & Hout & Hmore).
    apply add_text_line_frame in E
      as (Hbox2 & Hie2 & Hiu2 & (elem & Helem) & Hl2 & Hout2).
    split.
    { destruct Hbox as (? & ? & ? & ?), Hbox2 as (? & ? & ? & ?).
      repeat split; congruence. }
    split; [congruence|]. split; [congruence|]. split.
    { exists (elem :: new). rewrite Hnew, Helem, <- (assoc (++)). simpl.
      split; [reflexivity | lia]. }
    split.
    { rewrite Hl, Hl2, <- (assoc (++)). f_equal.
      unfold links_from. destruct link as [uri|]; [|reflexivity].
      destruct (nonempty uri); [|reflexivity]. simpl.
      f_equal. apply imap_ext. intros j l _. simpl. f_equal. lia. }
    exists (out2 ++ more). rewrite Hout, <- (assoc (++)).
    split; [reflexivity|]. rewrite List.length_app. simpl. lia.
Qed.

End OneCall.

(** For every [add_text] call that returns, the page keeps its size and
    padding, its image placements and its usages; the text elements and links
    it had are kept, in place; one text element is appended per line emitted,
    one link per line when the call carries a target and none otherwise; and
    at most one warning is printed per line. *)
Theorem add_text_appends_only (self : Page) (text : string) (x y : Q) (size : Z)
    (color : color_arg) (font : string) (bold italic : bool) (align : string)
    (underline strike : bool) (background : option color_arg)
    (max_width : option Q) (link : option string) (page' : Page)
    (printed : list string) :
  add_text self text x y size color font bold italic align underline strike
    background max_width link = Ok (page', printed) ->
  exists lines new,
    emitted_lines self text size max_width = Ok lines /\
    same_box self page' /\
    image_elements page' = image_elements self /\
    image_usages page' = image_usages self /\
    text_elements page' = text_elements self ++ new /\
    length new = length lines /\
    links page' = links self ++ links_from x y size align link 0 lines /\
    length (links_from x y size align link 0 lines)
    = (if truthy_str link then length lines else 0) /\
    length printed <= length lines.
Proof.
  unfold add_text.
  destruct (resolve_color color) as [rgb|e]; cbn [mbind result_bind];
    [|discriminate].
  fold (emitted_lines self text size max_width).
  destruct (emitted_lines self text size max_width) as [lines|e];
    cbn [mbind result_bind]; [|discriminate].
  intros H.
  apply add_text_lines_frame in H
    as (Hbox & Hie & Hiu & (new & Hnew & Hlen) & Hl & more & Hout & Hmore).
  exists lines, new. simpl in Hout. subst printed.
  repeat (split; [assumption || reflexivity|]).
  split; [|assumption].
  unfold links_from, truthy_str. destruct link as [uri|]; [|reflexivity].
  destruct (nonempty uri); [apply length_imap | reflexivity].
Qed.

Lemma add_text_appends_only_witness :
  exists page' printed lines new,
    add_text a4_page "Visit the project page" 10 420 12 (ColorStr "black")
      "Helvetica" false false "left" false false None (Some 60%Q) None
    = Ok (page', printed) /\
    emitted_lines a4_page "Visit the project page" 12 (Some 60%Q) = Ok lines /\
    same_box a4_page page' /\
    text_elements page' = text_elements a4_page ++ new /\
    length new = length lines /\
    links page' = links a4_page ++ links_from 10 420 12 "left" None 0 lines /\
    length printed <= length lines.
Proof.
  eexists _, _.
  assert (add_text a4_page "Visit the project page" 10 420 12 (ColorStr "black")
            "Helvetica" false false "left" false false None (Some 60%Q) None
          = Ok (_, _)) as Hcall by (vm_compute; reflexivity).
  destruct (add_text_appends_only _ _ _ _ _ _ _ _ _ _ _ _ _ _ _ _ _ Hcall)
    as (lines & new & H1 & H2 & _ & _ & H5 & H6 & H7 & _ & H9).
  exists lines, new.
  exact (conj Hcall (conj H1 (conj H2 (conj H5 (conj H6 (conj H7 H9)))))).
Defined.

(** For every [add_text] call with [max_width] set, on a text without a
    word (empty or whitespace only), a call that returns leaves the page as it
    was and prints nothing; the background and the link are not looked at. *)
Theorem add_text_blank_text_adds_nothing (self : Page) (text : string) (x y : Q)
    (size : Z) (color : color_arg) (font : string) (bold italic : bool)
    (align : string) (underline strike : bool) (background : option color_arg)
    (max_width : Q) (link : option string) (page' : Page)
    (printed : list string) :
  has_word_char text = false -> ~ (max_width == 0)%Q ->
  add_text self text x y size color font bold italic align underline strike
    background (Some max_width) link = Ok (page', printed) ->
  page' = self /\ printed = [].
Proof.
  intros Hblank Hmw. unfold add_text.
  destruct (resolve_color color) as [rgb|e]; cbn [mbind result_bind];
    [|discriminate].
  assert (truthy_num (Some max_width) = true) as ->.
  { unfold truthy_num, PyNum.is_zero. apply negb_true_iff.
    destruct (Qeq_bool max_width 0) eqn:E; [|reflexivity].
    now apply Qeq_bool_iff in E. }
  destruct (wrap_text self text max_width size) as [lines|e] eqn:Ew;
    cbn [mbind result_bind]; [|discriminate].
  apply wrap_text_inv in Ew as [_ ->].
  unfold split. rewrite (split_from_blank text Hblank).
  cbn. intros H. now injection H as <- <-.
Qed.

Lemma add_text_blank_text_adds_nothing_witness :
  exists page' printed,
    add_text a4_page "   " 100 700 24 (ColorStr "black") "Helvetica" false false
      "left" true false (Some (ColorStr "no such colour")) (Some 200%Q)
      (Some "https://example.org") = Ok (page', printed) /\
    page' = a4_page /\ printed = [].
Proof.
  eexists _, _.
  assert (add_text a4_page "   " 100 700 24 (ColorStr "black") "Helvetica" false
            false "left" true false (Some (ColorStr "no such colour"))
            (Some 200%Q) (Some "https://example.org") = Ok (_, _)) as Hcall
    by (vm_compute; reflexivity).
  split; [exact Hcall|].
  apply (add_text_blank_text_adds_nothing a4_page "   " 100 700 24
           (ColorStr "black") "Helvetica" false false "left" true false
           (Some (ColorStr "no such colour")) 200 (Some "https://example.org"));
    [reflexivity | discriminate | exact Hcall].
Defined.

End PageCalls.

(** ** Pages: usages and placements *)

Module PageInvariant.
Import Spec SpecX.
Import PyStr PyStrFacts PageImpl PageCalls.

Lemma usages_match_init (w h ph pv : Q) : usages_match (PageImpl.init w h ph pv).
Proof. reflexivity. Qed.

Lemma usages_match_add_text (self : Page) (text : string) (x y : Q) (size : Z)
    (color : color_arg) (font : string) (bold italic : bool) (align : string)
    (underline strike : bool) (background : option color_arg)
    (max_width : option Q) (link : option string) (page' : Page)
    (printed : list string) :
  add_text self text x y size color font bold italic align underline strike
    background max_width link = Ok (page', printed) ->
  usages_match self -> usages_match page'.
Proof.
  unfold add_text.
  destruct (resolve_color color) as [rgb|e]; cbn [mbind result_bind];
    [|discriminate].
  match goal with |- context [mbind _ ?m] => destruct m as [lines|e] end;
    cbn [mbind result_bind]; [|discriminate].
  intros H. apply add_text_lines_frame in H as (_ & Hie & Hiu & _).
  unfold usages_match. now rewrite Hie, Hiu.
Qed.

(** For every [add_image] call that returns, one placement and one usage
    [(name, None)] are appended, also when the page already has a usage of that
    name; the texts, the links and the box of the page are kept; and the
    usages still name the placements in order. *)
Theorem add_image_appends_usage (self : Page) (name : string) (x y : Q)
    (w h : option Q) (scale : Q) (caption : option string) (page' : Page)
    (printed : list string) :
  add_image self name x y w h scale caption = Ok (page', printed) ->
  image_usages page' = image_usages self ++ [(name, None)] /\
  image_elements page'
  = image_elements self ++ [MkImageElement name x y w h scale caption] /\
  text_elements page' = text_elements self /\ links page' = links self /\
  same_box self page' /\
  (usages_match self -> usages_match page').
Proof.
  unfold add_image. destruct (Qle_bool scale 0) eqn:E; [discriminate|].
  intros H. injection H as <- _. cbn.
  repeat split.
  unfold usages_match. cbn. rewrite !map_app. now intros ->.
Qed.

Lemma add_image_appends_usage_witness :
  exists page' printed,
    add_image
      (MkPage (59528 # 100) (84189 # 100) 50 50 []
         [MkImageElement "Im1" 60 650 None None 1 None] [("Im1", None)] [])
      "Im1" 300 650 (Some 200%Q) (Some 150%Q) (3 # 4) (Some "again")
    = Ok (page', printed) /\
    image_usages page' = [("Im1", None)] ++ [("Im1", None)] /\
    image_elements page'
    = [MkImageElement "Im1" 60 650 None None 1 None]
      ++ [MkImageElement "Im1" 300 650 (Some 200%Q) (Some 150%Q) (3 # 4)
            (Some "again")].
Proof.
  eexists _, _.
  assert (add_image
            (MkPage (59528 # 100) (84189 # 100) 50 50 []
               [MkImageElement "Im1" 60 650 None None 1 None] [("Im1", None)] [])
            "Im1" 300 650 (Some 200%Q) (Some 150%Q) (3 # 4) (Some "again")
          = Ok (_, _)) as Hcall by (vm_compute; reflexivity).
  destruct (add_image_appends_usage _ _ _ _ _ _ _ _ _ _ Hcall)
    as (H1 & H2 & _).
  exact (conj Hcall (conj H1 H2)).
Defined.

Lemma usages_match_add_image (self : Page) (name : string) (x y : Q)
    (w h : option Q) (scale : Q) (caption : option string) (page' : Page)
    (printed : list string) :
  add_image self name x y w h scale caption = Ok (page', printed) ->
  usages_match self -> usages_match page'.
Proof.
  unfold add_image. destruct (Qle_bool scale 0); [discriminate|].
  intros H. injection H as <- _. unfold usages_match. cbn.
  rewrite !map_app. now intros ->.
Qed.

End PageInvariant.

(** ** [PDF.save]: when it returns *)

Module SaveOutcome.
Import Spec SpecX.
Import PyStr PyNum PyBytes PageImpl PDFImpl ObjectStore Finalize Unresolved.

Lemma resolve_usages_spec (image_objs : gmap string nat)
    (usages usages' : list (string * option nat)) :
  resolve_usages image_objs usages = Ok usages' ->
  usages' = map (fun u => (u.1, image_objs !! u.1)) usages.
Proof.
  revert usages'. induction usages as [|[name o] rest IH]; intros usages';
    cbn [resolve_usages].
  - intros H. now injection H as <-.
  - destruct (image_objs !! name) as [n|] eqn:E; [|discriminate].
    destruct (resolve_usages image_objs rest) as [rest'|e];
      cbn [mbind result_bind]; [|discriminate].
    intros H. injection H as <-. simpl. rewrite E. f_equal. now apply IH.
Qed.

Lemma resolve_pages_spec (image_objs : gmap string nat) (ps ps' : list Page) :
  resolve_pages image_objs ps = Ok ps' ->
  Forall2 (resolved_from image_objs) ps ps'.
Proof.
  revert ps'. induction ps as [|page rest IH]; intros ps'; cbn [resolve_pages].
  - intros H. injection H as <-. constructor.
  - unfold resolve_page.
    destruct (resolve_usages image_objs (image_usages page)) as [us|e] eqn:E;
      cbn [mbind result_bind]; [|discriminate].
    destruct (resolve_pages image_objs rest) as [rest'|e];
      cbn [mbind result_bind]; [|discriminate].
    intros H. injection H as <-. constructor; [|now apply IH].
    apply resolve_usages_spec in E. subst us.
    repeat split.
Qed.

Section Save.
Variable float_str : Q -> string.

Lemma image_streams_ok (image_sizes : gmap string (Z * Z))
    (elems : list ImageElement) :
  Forall (fun e => is_Some (image_sizes !! ie_name e)) elems ->
  exists cmds, image_streams float_str image_sizes elems = Ok cmds.
Proof.
  induction 1 as [|e rest [[iw ih] He] _ [more IH]]; cbn [image_streams];
    [eauto|].
  unfold image_stream. rewrite He.
  destruct (truthy_str (ie_caption e)); [destruct (ie_caption e)|];
    cbn [mbind result_bind]; rewrite IH; cbn [mbind result_bind]; eauto.
Qed.

Lemma caption_cmds_ok (image_sizes : gmap string (Z * Z))
    (elems : list ImageElement) :
  Forall (fun e => is_Some (image_sizes !! ie_name e)) elems ->
  exists cmds, caption_cmds image_sizes elems = Ok cmds.
Proof.
  induction 1 as [|e rest [[iw ih] He] _ [more IH]]; cbn [caption_cmds];
    [eauto|].
  assert (exists cmd, caption_cmd image_sizes e = Ok cmd) as [cmd ->].
  { unfold caption_cmd, or_image_width. rewrite He.
    destruct (truthy_str (ie_caption e)); [|eauto].
    destruct (ie_caption e); [|eauto].
    destruct (ie_w e) as [v|]; [destruct (PyNum.is_zero v)|];
      cbn [mbind result_bind]; eauto. }
  cbn [mbind result_bind]. rewrite IH. cbn [mbind result_bind]. eauto.
Qed.

Lemma add_content_objects_ok (image_sizes : gmap string (Z * Z)) (show : bool)
    (ps : list Page) (idx : nat) (self : PDF) :
  Forall (fun p => Forall (fun e => is_Some (image_sizes !! ie_name e))
                     (image_elements p)) ps ->
  exists self' nums,
    add_content_objects float_str image_sizes show idx ps self = Ok (self', nums).
Proof.
  intros Hall. revert idx self.
  induction Hall as [|page rest Hpage _ IH]; intros idx self;
    cbn [add_content_objects]; [eauto|].
  unfold page_stream, get_stream_bytes.
  destruct (image_streams_ok image_sizes _ Hpage) as [cmds ->].
  destruct (caption_cmds_ok image_sizes _ Hpage) as [caps ->].
  cbn [mbind result_bind].
  match goal with |- context [add_object self ?c] =>
    destruct (add_object self c) as [self1 n]
  end.
  destruct (IH (S idx) self1) as (self2 & more & ->).
  cbn [mbind result_bind]. eauto.
Qed.

(** [finalize] returns once the usages are resolved, on pages whose usages
    name their placements. *)
Lemma finalize_ok (self : PDF) (show : bool) (ps' : list Page) :
  Forall usages_match (pages self) ->
  resolve_pages (image_objs_of self) (pages self) = Ok ps' ->
  exists self' cat, finalize float_str self show = Ok (self', cat).
Proof.
  intros Hmatch Hres. unfold finalize.
  destruct (add_fonts_grows font_map self) as [[Hi1 _] Hp1].
  destruct (add_fonts self font_map) as [s1 font_objs]. simpl in Hi1, Hp1.
  rewrite Hi1, Hp1. fold (image_objs_of self). rewrite Hres.
  cbn [mbind result_bind].
  assert (Forall (fun p => Forall (fun e =>
            is_Some (((fun '(_, _, w, h) => (w, h)) <$> images self) !! ie_name e))
                     (image_elements p)) ps') as Hsizes.
  { pose proof (resolve_pages_spec _ _ _ Hres) as Hspec.
    apply resolve_pages_ok in Hres as [Hfound _].
    clear -Hspec Hfound Hmatch.
    induction Hspec as [|p p' ps ps' Hp _ IH]; [constructor|].
    apply Forall_cons in Hfound as [Hf Hfound].
    apply Forall_cons in Hmatch as [Hm Hmatch].
    constructor; [|now apply IH].
    destruct Hp as (_ & _ & -> & _ & _).
    unfold usages_match in Hm.
    apply Forall_forall. intros e He.
    assert (ie_name e ∈ map fst (image_usages p)) as Hin.
    { rewrite Hm. apply list_elem_of_fmap. eauto. }
    apply list_elem_of_fmap in Hin as (u & Hu & Hin).
    rewrite Forall_forall in Hf. specialize (Hf u Hin). cbv beta in Hf.
    rewrite Hu. unfold image_objs_of in Hf. rewrite lookup_fmap in Hf.
    rewrite lookup_fmap.
    destruct (images self !! u.1) as [[[[img n] w] h]|]; simpl in *; [eauto|].
    now destruct Hf. }
  match goal with |- context [add_content_objects _ ?sz _ _ _ ?s] =>
    destruct (add_content_objects_ok sz show ps' 0 s Hsizes) as (s2 & nums & E)
  end.
  cbn [pages]. rewrite E. cbn [mbind result_bind].
  destruct (add_page_objects font_objs (pages s2) nums s2) as [s3 page_nums].
  destruct (add_object s3 (pages_object page_nums)) as [s4 pages_obj].
  match goal with |- context [add_object ?s (catalog_object pages_obj)] =>
    destruct (add_object s (catalog_object pages_obj)) as [s5 cat]
  end.
  eauto.
Qed.

Lemma finalize_raise (self : PDF) (show : bool) (e : exn) :
  resolve_pages (image_objs_of self) (pages self) = Raise e ->
  finalize float_str self show = Raise e.
Proof.
  intros Hres. unfold finalize.
  destruct (add_fonts_grows font_map self) as [[Hi1 _] Hp1].
  destruct (add_fonts self font_map) as [s1 font_objs]. simpl in Hi1, Hp1.
  rewrite Hi1, Hp1. fold (image_objs_of self). now rewrite Hres.
Qed.

(** In the model, where every text can be encoded and the file can be
    opened, [save] on pages whose usages name their placements either returns
    and writes the file, or raises for an image object that is not found. *)
Lemma save_outcome (self : PDF) (fs : gmap string bytes)
    (filename : string) (show_page_numbers : bool) :
  Forall usages_match (pages self) ->
  (exists self' out,
     save float_str self fs filename show_page_numbers
     = (Ok self', <[filename := out]> fs) /\
     Forall (fun p => Forall (fun u => is_Some (images self !! u.1))
                        (image_usages p)) (pages self))
  \/
  (exists page missing o,
     page ∈ pages self /\ (missing, o) ∈ image_usages page /\
     images self !! missing = None /\
     save float_str self fs filename show_page_numbers
     = (Raise (UnresolvedResource missing), fs)).
Proof.
  intros Hmatch.
  destruct (resolve_pages (image_objs_of self) (pages self)) as [ps'|e] eqn:Hres.
  - left. destruct (finalize_ok self show_page_numbers ps' Hmatch Hres)
      as (self' & cat & E).
    unfold save. rewrite E. exists self', (write_file (objects self') cat).
    split; [reflexivity|].
    apply resolve_pages_ok in Hres as [Hfound _].
    eapply Forall_impl; [exact Hfound|]. intros p Hp.
    eapply Forall_impl; [exact Hp|]. intros u [n Hu].
    unfold image_objs_of in Hu. rewrite lookup_fmap in Hu.
    destruct (images self !! u.1); [eauto | discriminate].
  - right. pose proof (finalize_raise self show_page_numbers e Hres) as E.
    apply resolve_pages_raise in Hres as (page & missing & o & Hp & Hu & Hm & ->).
    exists page, missing, o. split; [assumption|]. split; [assumption|].
    split.
    + unfold image_objs_of in Hm. rewrite lookup_fmap in Hm.
      now destruct (images self !! missing).
    + unfold save. now rewrite E.
Qed.

(** For every document whose pages list one usage per image placement
    (the documents the calls build), [save] never raises the error of
    [get_stream_bytes] for an image without size, nor the [KeyError] of the
    caption loop: the loop that resolves the usages has raised before for a
    name that [images] lacks.  And [save] returns only if every name a page
    uses is a key of [images]. *)
Theorem save_sizes_always_found (self : PDF) (fs : gmap string bytes)
    (filename : string) (show_page_numbers : bool) :
  Forall usages_match (pages self) ->
  (forall name fs',
     save float_str self fs filename show_page_numbers
     <> (Raise (ValueError ("Size not found for image " +:+ name)), fs')) /\
  (forall key fs',
     save float_str self fs filename show_page_numbers
     <> (Raise (KeyError key), fs')) /\
  (forall self' fs',
     save float_str self fs filename show_page_numbers = (Ok self', fs') ->
     Forall (fun p => Forall (fun u => is_Some (images self !! u.1))
                        (image_usages p)) (pages self)).
Proof.
  intros Hmatch.
  destruct (save_outcome self fs filename show_page_numbers Hmatch)
    as [(self1 & out & E & Hall) | (page & missing & o & _ & _ & _ & E)];
    rewrite E.
  - split; [discriminate|]. split; [discriminate|]. intros; exact Hall.
  - split; [|split; discriminate].
    intros name fs' Heq. injection Heq as Hmsg _. discriminate Hmsg.
Qed.

End Save.

Lemma save_sizes_always_found_witness :
  exists (self' : PDF) (fs' : gmap string bytes),
    Forall usages_match (pages picture_doc) /\
    save float_str_short picture_doc ∅ "pic.pdf" true = (Ok self', fs') /\
    (forall name fs'',
       save float_str_short picture_doc ∅ "pic.pdf" true
       <> (Raise (ValueError ("Size not found for image " +:+ name)), fs'')) /\
    Forall (fun p => Forall (fun u => is_Some (images picture_doc !! u.1))
                       (image_usages p)) (pages picture_doc).
Proof.
  eexists _, _.
  assert (Forall usages_match (pages picture_doc)) as Hmatch.
  { assert (pages picture_doc = [_]) as -> by (vm_compute; reflexivity).
    constructor; [reflexivity | constructor]. }
  assert (save float_str_short picture_doc ∅ "pic.pdf" true = (Ok _, _))
    as Hsave by (vm_compute; reflexivity).
  destruct (save_sizes_always_found float_str_short picture_doc ∅ "pic.pdf" true
              Hmatch) as (H1 & _ & H3).
  split; [exact Hmatch|]. split; [exact Hsave|]. split; [exact H1|].
  exact (H3 _ _ Hsave).
Defined.

End SaveOutcome.

(** ** [PDF.save]: which object is where *)

Module Layout.
Import Spec SpecX.
Import PyStr PyNum PyBytes PageImpl PDFImpl ObjectStore Finalize BytesFacts Digits
  Placeholder WritePass Xref Resolved Unresolved SaveOutcome.

(** The object [add_object] stores is at the index before its number. *)
Lemma add_object_spec (self : PDF) (content : bytes) :
  let r := add_object self content in
  r.2 = length (objects self) + 1 /\
  objects r.1 = objects self ++ [(r.2, content)] /\
  objects r.1 !! (r.2 - 1) = Some (r.2, content) /\
  pages r.1 = pages self /\ images r.1 = images self.
Proof.
  cbn. repeat split.
  rewrite lookup_app_r by lia.
  replace (length (objects self) + 1 - 1 - length (objects self)) with 0 by lia.
  reflexivity.
Qed.

Lemma grows_lookup (s s' : PDF) (k : nat) (o : nat * bytes) :
  grows s s' -> objects s !! k = Some o -> objects s' !! k = Some o.
Proof. intros (_ & c & ->) Hk. now apply lookup_app_l_Some. Qed.

Lemma grows_length (s s' : PDF) : grows s s' -> length (objects s) <= length (objects s').
Proof. intros (_ & c & ->). rewrite List.length_app. lia. Qed.

Lemma add_fonts_length (items : list (string * string)) (self : PDF) :
  length (objects (add_fonts self items).1) = length (objects self) + length items.
Proof.
  revert self. induction items as [|[k v] rest IH]; intros self; cbn [add_fonts].
  - simpl. lia.
  - match goal with |- context [add_object self ?c] =>
      destruct (add_object_spec self c) as (_ & Ho & _);
      destruct (add_object self c) as [self1 n]
    end.
    specialize (IH self1). destruct (add_fonts self1 rest) as [self2 more].
    cbn [fst snd] in *. rewrite IH, Ho, List.length_app. simpl. lia.
Qed.

Lemma add_annotations_length (ls : list Link) (self : PDF) :
  length (objects (add_annotations ls self).1) = length (objects self) + length ls
  /\ length (add_annotations ls self).2 = length ls.
Proof.
  revert self. induction ls as [|l rest IH]; intros self; cbn [add_annotations].
  - simpl. lia.
  - destruct (add_object_spec self (annot_object l)) as (_ & Ho & _).
    destruct (add_object self (annot_object l)) as [self1 n].
    specialize (IH self1). destruct (add_annotations rest self1) as [self2 more].
    cbn [fst snd] in *. destruct IH as [IH1 IH2].
    rewrite IH1, Ho, List.length_app. simpl. lia.
Qed.





(** A stream object holds the placeholder only in its payload. *)
Lemma stream_object_no_placeholder (stream : bytes) :
  contains placeholder stream = false ->
  contains placeholder (stream_object stream) = false.
Proof.
  intros Hs. unfold stream_object.
  change placeholder with ("{"%byte :: encode "pages}") at 1.
  rewrite contains_app_other
    by (apply encode_no_brace; now rewrite !no_brace_app, str_nat_no_brace).
  change (encode (nl +:+ "endstream")) with ("010"%byte :: encode "endstream").
  fold placeholder.
  rewrite (contains_app_sep _ _ _ _ newline_not_in_placeholder Hs).
  now apply contains_without_head, no_brace_check.
Qed.


Section Save.
Variable float_str : Q -> string.

(** The first loop over the pages: one stream object per page, in the
    order of the pages, holding the stream of that page. *)
Lemma add_content_objects_layout (image_sizes : gmap string (Z * Z))
    (show : bool) (ps : list Page) (idx : nat) (self self' : PDF) (nums : list nat) :
  add_content_objects float_str image_sizes show idx ps self = Ok (self', nums) ->
  length nums = length ps /\
  length (objects self') = length (objects self) + length ps /\
  forall i n, nums !! i = Some n ->
    exists page stream,
      ps !! i = Some page /\
      page_stream float_str image_sizes show (idx + i) page = Ok stream /\
      objects self' !! (n - 1) = Some (n, stream_object stream).
Proof.
  revert idx self self' nums.
  induction ps as [|page rest IH]; intros idx self self' nums;
    cbn [add_content_objects].
  - intros H. injection H as <- <-. simpl. split; [reflexivity|].
    split; [lia|]. intros i n Hi. discriminate.
  - destruct (page_stream _ _ _ _ _) as [stream|e] eqn:Es;
      cbn [mbind result_bind]; [|discriminate].
    destruct (add_object_spec self (stream_object stream)) as (Hn & Ho & Hl & _).
    destruct (add_object self (stream_object stream)) as [self1 n1].
    cbn [fst snd] in *.
    destruct (add_content_objects float_str image_sizes show (S idx) rest self1)
      as [[self2 more]|e] eqn:E2; cbn [mbind result_bind]; [|discriminate].
    intros H. injection H as <- <-.
    pose proof (proj1 (add_content_objects_grows _ _ _ _ _ _ _ _ E2)) as Hg.
    destruct (IH _ _ _ _ E2) as (IH1 & IH2 & IH3).
    split; [simpl; lia|]. split.
    { rewrite IH2, Ho, List.length_app. simpl. lia. }
    intros [|i] n Hi; simpl in Hi.
    + injection Hi as <-. exists page, stream.
      rewrite Nat.add_0_r. split; [reflexivity|]. split; [assumption|].
      now apply (grows_lookup self1 self2).
    + destruct (IH3 i n Hi) as (pg & st & H1 & H2 & H3).
      exists pg, st. split; [assumption|]. split; [|assumption].
      now replace (idx + S i) with (S idx + i) by lia.
Qed.

(** The second loop over the pages: the annotation objects of a page, one
    per link, and then its page object. *)
Lemma add_page_objects_layout (font_objs : list (string * nat)) (ps : list Page)
    (refs : list nat) (self : PDF) :
  length refs = length ps ->
  let r := add_page_objects font_objs ps refs self in
  length r.2 = length ps /\
  length (objects r.1) = length (objects self) + total_links ps + length ps /\
  forall i k, r.2 !! i = Some k ->
    exists page ref annots,
      ps !! i = Some page /\ refs !! i = Some ref /\
      length annots = length (links page) /\
      objects r.1 !! (k - 1) = Some (k, page_object font_objs page ref annots).
Proof.
  revert refs self. induction ps as [|page rest IH]; intros refs self Hlen;
    destruct refs as [|ref refs]; try discriminate; cbn [add_page_objects].
  - simpl. split; [reflexivity|]. split; [unfold total_links; simpl; lia|].
    intros i k Hi. discriminate.
  - destruct (add_annotations_length (links page) self) as [Ha1 Ha2].
    destruct (add_annotations (links page) self) as [self1 annots].
    cbn [fst snd] in Ha1, Ha2.
    match goal with |- context [add_object self1 ?c] =>
      destruct (add_object_spec self1 c) as (Hn & Ho & Hl & _);
      destruct (add_object self1 c) as [self2 n2]
    end.
    cbn [fst snd] in *.
    destruct (add_page_objects_grows font_objs rest refs self2) as [Hg _].
    destruct (IH refs self2 ltac:(simpl in Hlen; lia)) as (IH1 & IH2 & IH3).
    destruct (add_page_objects font_objs rest refs self2) as [self3 more].
    cbn [fst snd] in *.
    split; [simpl; lia|]. split.
    { rewrite IH2, Ho, List.length_app, Ha1. unfold total_links. simpl. lia. }
    intros [|i] k Hi; simpl in Hi.
    + injection Hi as <-. exists page, ref, annots.
      split; [reflexivity|]. split; [reflexivity|]. split; [assumption|].
      now apply (grows_lookup self2 self3).
    + destruct (IH3 i k Hi) as (pg & rf & an & H1 & H2 & H3 & H4).
      exists pg, rf, an. auto.
Qed.

(** The objects of a document that [finalize] has returned, phase by
    phase: [s3] is the document before the page tree object is added. *)
Lemma finalize_layout (self self' : PDF) (show : bool) (cat : nat) :
  finalize float_str self show = Ok (self', cat) ->
  exists (s3 : PDF) (font_objs : list (string * nat)) (page_nums : list nat),
    let P := length (objects s3) + 1 in
    grows self s3 /\
    images self' = images self /\
    Forall2 (resolved_from (image_objs_of self)) (pages self) (pages self') /\
    length (objects s3)
    = length (objects self) + 4 + length (pages self')
      + total_links (pages self') + length (pages self') /\
    length page_nums = length (pages self') /\
    (forall i k, page_nums !! i = Some k ->
       exists page ref annots stream,
         pages self' !! i = Some page /\
         page_stream float_str (image_sizes_of self) show i page = Ok stream /\
         objects s3 !! (ref - 1) = Some (ref, stream_object stream) /\
         length annots = length (links page) /\
         objects s3 !! (k - 1) = Some (k, page_object font_objs page ref annots)) /\
    objects self'
    = map (fix_object P) (objects s3 ++ [(P, pages_object page_nums)])
      ++ [(P + 1, catalog_object P)] /\
    cat = P + 1.
Proof.
  unfold finalize.
  pose proof (add_fonts_length font_map self) as Hl1.
  destruct (add_fonts_grows font_map self) as [Hg1 Hp1].
  destruct (add_fonts self font_map) as [s1 font_objs]. cbn [fst snd] in *.
  pose proof Hg1 as [Hi1 _]. rewrite Hi1, Hp1.
  fold (image_objs_of self). fold (image_sizes_of self).
  destruct (resolve_pages (image_objs_of self) (pages self)) as [ps'|e] eqn:Hres;
    cbn [mbind result_bind]; [|discriminate].
  match goal with |- context [add_content_objects _ _ _ _ _ ?s] =>
    set (s1' := s)
  end.
  assert (grows s1 s1') as Hg1'.
  { split; [exact (eq_sym Hi1)|]. exists []. simpl. now rewrite app_nil_r. }
  change (pages s1') with ps'.
  destruct (add_content_objects float_str (image_sizes_of self) show 0 ps' s1')
    as [[s2 nums]|e] eqn:E2; cbn [mbind result_bind]; [|discriminate].
  destruct (add_content_objects_grows _ _ _ _ _ _ _ _ E2) as [Hg2 Hp2].
  destruct (add_content_objects_layout _ _ _ _ _ _ _ E2) as (Hn2 & Hl2 & Hk2).
  change (pages s1') with ps' in Hp2. change (objects s1') with (objects s1) in Hl2.
  assert (length nums = length (pages s2)) as Hlen by congruence.
  destruct (add_page_objects_grows font_objs (pages s2) nums s2) as [Hg3 Hp3].
  destruct (add_page_objects_layout font_objs (pages s2) nums s2 Hlen)
    as (Hn3 & Hl3 & Hk3).
  destruct (add_page_objects font_objs (pages s2) nums s2) as [s3 page_nums].
  cbn [fst snd] in *.
  unfold add_object. cbn [objects pages images page_dimensions].
  intros H. injection H as <- <-. cbn [objects pages images].
  exists s3, font_objs, page_nums. cbn zeta.
  split. { eapply grows_trans; [exact Hg1|]. eapply grows_trans; [exact Hg1'|].
           eapply grows_trans; eassumption. }
  split. { destruct Hg2 as [Hi2 _], Hg3 as [Hi3 _]. rewrite Hi3, Hi2. reflexivity. }
  rewrite Hp3, Hp2.
  split; [now apply resolve_pages_spec|].
  split. { rewrite Hl3, Hl2, Hl1, Hp2. simpl. lia. }
  split; [congruence|].
  split.
  { intros i k Hi. destruct (Hk3 i k Hi) as (page & ref & annots & H1 & H2 & H3 & H4).
    destruct (Hk2 i ref H2) as (page' & stream & H5 & H6 & H7).
    rewrite Hp2 in H1. assert (page' = page) as -> by congruence.
    exists page, ref, annots, stream.
    split; [assumption|]. split; [assumption|].
    split; [now apply (grows_lookup s2 s3)|]. split; assumption. }
  split; [|rewrite length_map, List.length_app; simpl; lia].
  rewrite length_map, List.length_app. simpl.
  f_equal.
Qed.

Lemma total_links_resolved (image_objs : gmap string nat) (ps ps' : list Page) :
  Forall2 (resolved_from image_objs) ps ps' -> total_links ps' = total_links ps.
Proof.
  unfold total_links. induction 1 as [|p p' ps ps' Hp _ IH]; [reflexivity|].
  destruct Hp as (_ & _ & _ & Hl & _). simpl. now rewrite IH, Hl.
Qed.

(** An object of [s3] is in the final store at the same index, put through
    the substitution pass. *)
Lemma final_lookup (s3 : PDF) (objs' : list (nat * bytes)) (extra last : nat * bytes)
    (P j : nat) (o : nat * bytes) :
  objs' = map (fix_object P) (objects s3 ++ [extra]) ++ [last] ->
  objects s3 !! j = Some o -> objs' !! j = Some (fix_object P o).
Proof.
  intros -> Hj. apply lookup_app_l_Some.
  rewrite list_lookup_fmap, (lookup_app_l_Some _ _ _ _ Hj). reflexivity.
Qed.

(** For every [save] that returns, the store has the objects it had, four
    font objects, one stream object and one page object per page, one
    annotation object per link, the page tree and the catalog. *)
Theorem save_object_count (self : PDF) (fs : gmap string bytes)
    (filename : string) (show_page_numbers : bool) (self' : PDF)
    (fs' : gmap string bytes) :
  save float_str self fs filename show_page_numbers = (Ok self', fs') ->
  length (pages self') = length (pages self) /\
  length (objects self')
  = length (objects self) + 4 + 2 * length (pages self)
    + total_links (pages self) + 2.
Proof.
  unfold save.
  destruct (finalize float_str self show_page_numbers) as [[s cat]|e] eqn:E;
    [|discriminate].
  intros H. injection H as <- _.
  apply finalize_layout in E
    as (s3 & font_objs & page_nums & _ & _ & Hres & Hlen & _ & _ & Ho & _).
  cbn zeta in Ho.
  pose proof (Forall2_length _ _ _ Hres) as Hpages.
  rewrite (total_links_resolved _ _ _ Hres) in Hlen.
  split; [congruence|].
  rewrite Ho, List.length_app, length_map, List.length_app, Hlen, <- Hpages.
  simpl. lia.
Qed.

End Save.

Lemma save_object_count_witness :
  exists (self' : PDF) (fs' : gmap string bytes),
    save float_str_short (text_doc "Hello") ∅ "hello.pdf" false = (Ok self', fs') /\
    length (pages self') = length (pages (text_doc "Hello")) /\
    length (objects self')
    = length (objects (text_doc "Hello")) + 4
      + 2 * length (pages (text_doc "Hello"))
      + total_links (pages (text_doc "Hello")) + 2.
Proof.
  eexists _, _.
  assert (save float_str_short (text_doc "Hello") ∅ "hello.pdf" false = (Ok _, _))
    as Hsave by (vm_compute; reflexivity).
  split; [exact Hsave|].
  exact (save_object_count float_str_short _ _ _ _ _ _ Hsave).
Defined.

End Layout.

(** ** [PDF.save]: the document and the file it leaves *)

Module SavedFile.
Import Spec SpecX.
Import PyStr PyNum PyBytes PageImpl PDFImpl ObjectStore Finalize BytesFacts Digits
  Placeholder WritePass Xref Resolved Unresolved SaveOutcome Layout.

(** The substitution pass keeps an object that holds no placeholder. *)
Lemma fix_object_keeps (pages_obj : nat) (o : nat * bytes) :
  contains placeholder o.2 = false -> fix_object pages_obj o = o.
Proof. destruct o as [n data]. cbn [snd]. intros H. unfold fix_object. now rewrite H. Qed.

Section Save.
Variable float_str : Q -> string.

(** A [save] that returns has run [finalize] and written the file. *)
Lemma save_ok_inv (self : PDF) (fs : gmap string bytes) (filename : string)
    (show : bool) (self' : PDF) (fs' : gmap string bytes) :
  save float_str self fs filename show = (Ok self', fs') ->
  exists cat,
    finalize float_str self show = Ok (self', cat) /\
    fs' = <[filename := write_file (objects self') cat]> fs.
Proof.
  unfold save.
  destruct (finalize float_str self show) as [[s cat]|e]; [|discriminate].
  intros H. injection H as <- <-. eauto.
Qed.




(** For every [save] that returns and every page whose content stream
    holds no placeholder, the document holds the stream object of the page
    as it was made: its declared length is the length of the stream. *)
Theorem save_stream_length_exact (self : PDF) (fs : gmap string bytes)
    (filename : string) (show_page_numbers : bool) (self' : PDF)
    (fs' : gmap string bytes) (i : nat) (page : Page) (stream : bytes) :
  save float_str self fs filename show_page_numbers = (Ok self', fs') ->
  pages self' !! i = Some page ->
  page_stream float_str (image_sizes_of self') show_page_numbers i page = Ok stream ->
  contains placeholder stream = false ->
  exists ref,
    objects self' !! (ref - 1)
    = Some (ref,
            encode ("<< /Length " +:+ str_nat (length stream) +:+ " >>" +:+ nl
                    +:+ "stream" +:+ nl)
            ++ stream ++ encode (nl +:+ "endstream")).
Proof.
  intros H Hpage Hstream Hno. apply save_ok_inv in H as (cat & E & _).
  apply finalize_layout in E
    as (s3 & font_objs & page_nums & _ & Himg & _ & _ & Hlen & Hk & Ho & _).
  cbn zeta in Ho.
  assert (image_sizes_of self' = image_sizes_of self) as Hsz
    by (unfold image_sizes_of; now rewrite Himg).
  rewrite Hsz in Hstream.
  assert (i < length page_nums) as Hi
    by (rewrite Hlen; now apply lookup_lt_Some in Hpage).
  destruct (lookup_lt_is_Some_2 _ _ Hi) as [k Hki].
  destruct (Hk i k Hki) as (page' & ref & annots & stream' & Hp' & Hs' & Hso & _).
  assert (page' = page) as -> by congruence.
  assert (stream' = stream) as -> by congruence.
  exists ref. rewrite (final_lookup _ _ _ _ _ _ _ Ho Hso).
  rewrite fix_object_keeps by now apply stream_object_no_placeholder.
  reflexivity.
Qed.

(** For every [save] that returns, an object the document held before the
    call is at its place after it, put through the substitution pass with
    the number of the page tree; it is the same object when it holds no
    placeholder. *)
Theorem save_keeps_stored_objects (self : PDF) (fs : gmap string bytes)
    (filename : string) (show_page_numbers : bool) (self' : PDF)
    (fs' : gmap string bytes) (j : nat) (o : nat * bytes) :
  save float_str self fs filename show_page_numbers = (Ok self', fs') ->
  objects self !! j = Some o ->
  objects self' !! j = Some (fix_object (length (objects self') - 1) o) /\
  (contains placeholder o.2 = false -> objects self' !! j = Some o).
Proof.
  intros H Hj. apply save_ok_inv in H as (cat & E & _).
  apply finalize_layout in E
    as (s3 & font_objs & page_nums & Hg & _ & _ & _ & _ & _ & Ho & _).
  cbn zeta in Ho.
  pose proof (grows_lookup _ _ _ _ Hg Hj) as Hj3.
  assert (length (objects self') - 1 = length (objects s3) + 1) as ->.
  { rewrite Ho, List.length_app, length_map, List.length_app. simpl. lia. }
  rewrite (final_lookup _ _ _ _ _ _ _ Ho Hj3).
  split; [reflexivity|]. intros Hno. now rewrite fix_object_keeps.
Qed.

(** For every [save] that returns, the pages of the document are the
    pages it had, in their order, with the same box, text, placements and
    links: only the object numbers of the image usages are filled in, from
    [images], which is kept. *)
Theorem save_resolves_usages_only (self : PDF) (fs : gmap string bytes)
    (filename : string) (show_page_numbers : bool) (self' : PDF)
    (fs' : gmap string bytes) :
  save float_str self fs filename show_page_numbers = (Ok self', fs') ->
  images self' = images self /\
  Forall2 (resolved_from (image_objs_of self)) (pages self) (pages self').
Proof.
  intros H. apply save_ok_inv in H as (cat & E & _).
  apply finalize_layout in E
    as (s3 & font_objs & page_nums & _ & Himg & Hres & _).
  split; assumption.
Qed.

(** For every [save] that returns, only the named file is written: it
    begins with the header line, it ends with [startxref], an offset and
    the end marker, and at that offset of the file the cross-reference
    table begins. *)
Theorem save_startxref (self : PDF) (fs : gmap string bytes)
    (filename : string) (show_page_numbers : bool) (self' : PDF)
    (fs' : gmap string bytes) :
  save float_str self fs filename show_page_numbers = (Ok self', fs') ->
  exists (out pre rest : bytes) (xref_offset : nat),
    fs' = <[filename := out]> fs /\
    take (length file_header) out = file_header /\
    out = pre ++ encode ("startxref" +:+ nl +:+ str_nat xref_offset +:+ nl
                         +:+ "%%EOF" +:+ nl) /\
    drop xref_offset out = encode ("xref" +:+ nl) ++ rest.
Proof.
  intros H. apply save_ok_inv in H as (cat & _ & ->).
  set (objs := objects self').
  set (body := file_header ++ flat_map obj_bytes objs).
  set (offsets := 0 :: obj_offsets (length file_header) objs).
  exists (write_file objs cat),
    (body ++ xref_section offsets
     ++ encode ("trailer" +:+ nl)
     ++ encode ("<< /Size " +:+ str_nat (length offsets) +:+ " /Root "
                +:+ str_nat cat +:+ " 0 R >>" +:+ nl)),
    (encode ("0 " +:+ str_nat (length offsets) +:+ nl)
     ++ encode ("0000000000 65535 f " +:+ nl)
     ++ flat_map xref_entry (tail offsets)
     ++ trailer_section offsets cat (length body)),
    (length body).
  split; [reflexivity|].
  rewrite write_file_eq. fold objs body offsets. cbn zeta.
  split. { unfold body. rewrite <- app_assoc. apply take_app_length. }
  split.
  { unfold trailer_section. rewrite !encode_app, <- !app_assoc. reflexivity. }
  rewrite drop_app_length. unfold xref_section.
  rewrite !encode_app, <- !app_assoc. reflexivity.
Qed.

End Save.



Lemma save_stream_length_exact_witness :
  exists (self' : PDF) (fs' : gmap string bytes) (page : Page) (stream : bytes)
         (ref : nat),
    save float_str_short (text_doc "Hello") ∅ "hello.pdf" false = (Ok self', fs') /\
    pages self' !! 0 = Some page /\
    page_stream float_str_short (image_sizes_of self') false 0 page = Ok stream /\
    contains placeholder stream = false /\
    objects self' !! (ref - 1)
    = Some (ref,
            encode ("<< /Length " +:+ str_nat (length stream) +:+ " >>" +:+ nl
                    +:+ "stream" +:+ nl)
            ++ stream ++ encode (nl +:+ "endstream")).
Proof.
  eexists _, _, _, _.
  assert (save float_str_short (text_doc "Hello") ∅ "hello.pdf" false = (Ok _, _))
    as Hsave by (vm_compute; reflexivity).
  match type of Hsave with _ = (Ok ?s, _) =>
    assert (pages s !! 0 = Some _) as Hpage by (vm_compute; reflexivity);
    match type of Hpage with _ = Some ?p =>
      assert (page_stream float_str_short (image_sizes_of s) false 0 p = Ok _)
        as Hstream by (vm_compute; reflexivity)
    end
  end.
  match type of Hstream with _ = Ok ?st =>
    assert (contains placeholder st = false) as Hno by (vm_compute; reflexivity)
  end.
  destruct (save_stream_length_exact float_str_short _ _ _ _ _ _ _ _ _
              Hsave Hpage Hstream Hno) as [ref Href].
  exists ref. split; [exact Hsave|]. split; [exact Hpage|].
  split; [exact Hstream|]. split; [exact Hno | exact Href].
Defined.

Lemma save_keeps_stored_objects_witness :
  let info := encode "<< /Producer (pdfgen) >>" in
  let doc := (add_object (text_doc "Hello") info).1 in
  exists (self' : PDF) (fs' : gmap string bytes),
    save float_str_short doc ∅ "hello.pdf" false = (Ok self', fs') /\
    objects doc !! 0 = Some (1, info) /\
    objects self' !! 0
    = Some (fix_object (length (objects self') - 1) (1, info)) /\
    (contains placeholder (1, info).2 = false ->
     objects self' !! 0 = Some (1, info)).
Proof.
  cbn zeta. eexists _, _.
  assert (save float_str_short
            (add_object (text_doc "Hello") (encode "<< /Producer (pdfgen) >>")).1
            ∅ "hello.pdf" false = (Ok _, _))
    as Hsave by (vm_compute; reflexivity).
  assert (objects (add_object (text_doc "Hello")
                     (encode "<< /Producer (pdfgen) >>")).1 !! 0
          = Some (1, encode "<< /Producer (pdfgen) >>")) as Hj by reflexivity.
  split; [exact Hsave|]. split; [exact Hj|].
  exact (save_keeps_stored_objects float_str_short _ _ _ _ _ _ _ _ Hsave Hj).
Defined.

Lemma save_resolves_usages_only_witness :
  exists (self' : PDF) (fs' : gmap string bytes),
    save float_str_short (text_doc "Hello") ∅ "hello.pdf" false = (Ok self', fs') /\
    images self' = images (text_doc "Hello") /\
    Forall2 (resolved_from (image_objs_of (text_doc "Hello")))
      (pages (text_doc "Hello")) (pages self').
Proof.
  eexists _, _.
  assert (save float_str_short (text_doc "Hello") ∅ "hello.pdf" false = (Ok _, _))
    as Hsave by (vm_compute; reflexivity).
  split; [exact Hsave|].
  exact (save_resolves_usages_only float_str_short _ _ _ _ _ _ Hsave).
Defined.

Lemma save_startxref_witness :
  exists (self' : PDF) (fs' : gmap string bytes) (out pre rest : bytes)
         (xref_offset : nat),
    save float_str_short (text_doc "Hello") ∅ "hello.pdf" false = (Ok self', fs') /\
    fs' = <["hello.pdf" := out]> ∅ /\
    take (length file_header) out = file_header /\
    out = pre ++ encode ("startxref" +:+ nl +:+ str_nat xref_offset +:+ nl
                         +:+ "%%EOF" +:+ nl) /\
    drop xref_offset out = encode ("xref" +:+ nl) ++ rest.
Proof.
  eexists _, _.
  assert (save float_str_short (text_doc "Hello") ∅ "hello.pdf" false = (Ok _, _))
    as Hsave by (vm_compute; reflexivity).
  destruct (save_startxref float_str_short _ _ _ _ _ _ Hsave)
    as (out & pre & rest & off & H).
  exists out, pre, rest, off. split; [exact Hsave | exact H].
Defined.

End SavedFile.

(** ** [PDF.save]: the font objects *)

Module Fonts.
Import Spec SpecX.
Import PyStr PyNum PyBytes PageImpl PDFImpl ObjectStore Finalize BytesFacts Digits
  Placeholder Layout SavedFile.

(** The font objects are stored after the objects of the document, in the
    order of the items, and listed under the numbers they got. *)
Lemma add_fonts_layout (items : list (string * string)) (self : PDF)
    (j : nat) (k v : string) :
  items !! j = Some (k, v) ->
  objects (add_fonts self items).1 !! (length (objects self) + j)
  = Some (length (objects self) + j + 1,
          encode ("<< /Type /Font /Subtype /Type1 /Name /" +:+ k
                  +:+ " /BaseFont /" +:+ v +:+ " >>")) /\
  (add_fonts self items).2 !! j = Some (k, length (objects self) + j + 1).
Proof.
  revert self j. induction items as [|[k0 v0] rest IH]; intros self j Hj;
    [discriminate|].
  cbn [add_fonts].
  match goal with |- context [add_object self ?c] =>
    destruct (add_object_spec self c) as (Hn & Ho & Hl & _);
    destruct (add_object self c) as [self1 n]
  end.
  cbn [fst snd] in Hn, Ho, Hl.
  pose proof (proj1 (add_fonts_grows rest self1)) as Hg.
  specialize (IH self1).
  destruct (add_fonts self1 rest) as [self2 more]. cbn [fst snd] in *.
  destruct j as [|j].
  - injection Hj as -> ->. rewrite Nat.add_0_r. split; [|now rewrite Hn].
    apply (grows_lookup self1 self2 _ _ Hg).
    rewrite Hn in Hl.
    replace (length (objects self) + 1 - 1) with (length (objects self)) in Hl
      by lia.
    exact Hl.
  - destruct (IH j Hj) as [IH1 IH2].
    assert (length (objects self1) = length (objects self) + 1) as Hlen
      by (rewrite Ho, List.length_app; reflexivity).
    rewrite Hlen in IH1, IH2.
    replace (length (objects self) + S j) with (length (objects self) + 1 + j)
      by lia.
    split; [exact IH1 | exact IH2].
Qed.

(** No font object of [save] holds the placeholder. *)
Lemma font_object_no_placeholder (j : nat) (k v : string) :
  font_map !! j = Some (k, v) ->
  contains placeholder
    (encode ("<< /Type /Font /Subtype /Type1 /Name /" +:+ k
             +:+ " /BaseFont /" +:+ v +:+ " >>")) = false.
Proof.
  destruct j as [|[|[|[|j]]]]; intros H; try discriminate;
    injection H as <- <-; vm_compute; reflexivity.
Qed.

Section Save.
Variable float_str : Q -> string.

(** The objects of a saved document, from the document with its fonts. *)
Lemma finalize_after_fonts (self self' : PDF) (show : bool) (cat : nat) :
  finalize float_str self show = Ok (self', cat) ->
  exists (s3 : PDF) (P : nat) (tree last : nat * bytes),
    grows (add_fonts self font_map).1 s3 /\
    objects self' = map (fix_object P) (objects s3 ++ [tree]) ++ [last].
Proof.
  unfold finalize.
  destruct (add_fonts self font_map) as [s1 font_objs]. cbn [fst].
  destruct (resolve_pages _ (pages s1)) as [ps'|e]; cbn [mbind result_bind];
    [|discriminate].
  match goal with |- context [add_content_objects _ ?sz _ _ ?ps ?s] =>
    destruct (add_content_objects float_str sz show 0 ps s)
      as [[s2 nums]|e] eqn:E2
  end; cbn [mbind result_bind]; [|discriminate].
  apply add_content_objects_grows in E2 as [Hg2 _].
  destruct (add_page_objects_grows font_objs (pages s2) nums s2) as [Hg3 _].
  destruct (add_page_objects font_objs (pages s2) nums s2) as [s3 page_nums].
  cbn [fst] in Hg3. unfold add_object. cbn [objects pages images page_dimensions].
  intros H. injection H as <- _. cbn [objects].
  eexists s3, _, _, _. split; [|reflexivity].
  eapply grows_trans; [|exact Hg3]. eapply grows_trans; [|exact Hg2].
  split; [reflexivity|]. exists []. cbn. now rewrite app_nil_r.
Qed.

(** For every [save] that returns, the four font objects of [font_map]
    are in the document right after the objects it had, in the order of
    [font_map], each the Type1 font dictionary of its item. *)
Theorem save_font_objects (self : PDF) (fs : gmap string bytes)
    (filename : string) (show_page_numbers : bool) (self' : PDF)
    (fs' : gmap string bytes) (j : nat) (k v : string) :
  save float_str self fs filename show_page_numbers = (Ok self', fs') ->
  font_map !! j = Some (k, v) ->
  objects self' !! (length (objects self) + j)
  = Some (length (objects self) + j + 1,
          encode ("<< /Type /Font /Subtype /Type1 /Name /" +:+ k
                  +:+ " /BaseFont /" +:+ v +:+ " >>")).
Proof.
  intros H Hj. apply save_ok_inv in H as (cat & E & _).
  apply finalize_after_fonts in E as (s3 & P & tree & last & Hg & Ho).
  destruct (add_fonts_layout font_map self j k v Hj) as [Hl _].
  pose proof (grows_lookup _ _ _ _ Hg Hl) as Hl3.
  rewrite (final_lookup _ _ _ _ _ _ _ Ho Hl3).
  rewrite fix_object_keeps; [reflexivity|].
  cbn [snd]. now apply (font_object_no_placeholder j).
Qed.

End Save.

Lemma save_font_objects_witness :
  exists (self' : PDF) (fs' : gmap string bytes),
    save float_str_short (text_doc "Hello") ∅ "hello.pdf" false = (Ok self', fs') /\
    font_map !! 1 = Some ("HelveticaBold", "Helvetica-Bold") /\
    objects self' !! (length (objects (text_doc "Hello")) + 1)
    = Some (length (objects (text_doc "Hello")) + 1 + 1,
            encode ("<< /Type /Font /Subtype /Type1 /Name /" +:+ "HelveticaBold"
                    +:+ " /BaseFont /" +:+ "Helvetica-Bold" +:+ " >>")).
Proof.
  eexists _, _.
  assert (save float_str_short (text_doc "Hello") ∅ "hello.pdf" false = (Ok _, _))
    as Hsave by (vm_compute; reflexivity).
  assert (font_map !! 1 = Some ("HelveticaBold", "Helvetica-Bold")) as Hj
    by reflexivity.
  split; [exact Hsave|]. split; [exact Hj|].
  exact (save_font_objects float_str_short _ _ _ _ _ _ _ _ _ Hsave Hj).
Defined.

End Fonts.

(** ** [PDF.save]: the annotations of the links *)

Module Annotations.
Import Spec SpecX.
Import PyStr PyNum PyBytes PageImpl PDFImpl ObjectStore Finalize BytesFacts Digits
  Placeholder Layout SavedFile.



Section Save.
Variable float_str : Q -> string.



End Save.


End Annotations.

(** ** Documents built by the calls *)

Module Documents.
Import Spec SpecX.
Import PyStr PyStrFacts PyNum PyBytes PageImpl PDFImpl ObjectStore Finalize
  BytesFacts Digits Xref Scenarios PageCalls PageInvariant SaveOutcome Layout
  SavedFile.

(** [str] of a number reads back as the number, so it tells numbers apart. *)
Lemma parse_str_nat (n : nat) : parse_nat (str_nat n) = Some n.
Proof.
  unfold parse_nat. pose proof (str_nat_nonempty n) as Hne.
  destruct (str_nat n) eqn:E; [discriminate|]. rewrite <- E.
  unfold str_nat. rewrite NilEmpty.usu. simpl.
  now rewrite DecimalNat.Unsigned.of_to.
Qed.

Lemma str_nat_inj (n m : nat) : str_nat n = str_nat m -> n = m.
Proof.
  intros H. pose proof (parse_str_nat n) as Hn. rewrite H, parse_str_nat in Hn.
  congruence.
Qed.

(** What a call on a page changes in the document. *)
Lemma on_page_inv (self self' : PDF) (i : nat)
    (method : Page -> result (Page * list string)) (printed : list string) :
  on_page self i method = Ok (self', printed) ->
  exists page page',
    pages self !! i = Some page /\ method page = Ok (page', printed) /\
    pages self' = <[i := page']> (pages self) /\
    objects self' = objects self /\ images self' = images self /\
    page_dimensions self' = page_dimensions self.
Proof.
  unfold on_page. destruct (pages self !! i) as [page|]; [|discriminate].
  destruct (method page) as [[page' out]|e] eqn:E; cbn [mbind result_bind];
    [|discriminate].
  intros H. injection H as <- <-. exists page, page'. auto 10.
Qed.

(** What [embed_image] changes in the document. *)
Lemma embed_image_inv (open_image : string -> option DecodedImage)
    (self self' : PDF) (img_path : string) (compress : bool)
    (name : string) (n : nat) (w h : Z) :
  embed_image open_image self img_path compress = Ok (self', (name, n, w, h)) ->
  exists img content,
    open_image img_path = Some img /\ img_size img = (w, h) /\
    n = length (objects self) + 1 /\ name = "Im" +:+ str_nat n /\
    objects self' = objects self ++ [(n, content)] /\
    images self' = <[name := (img, n, w, h)]> (images self) /\
    pages self' = pages self /\ page_dimensions self' = page_dimensions self.
Proof.
  unfold embed_image. destruct (open_image img_path) as [img|]; [|discriminate].
  destruct (img_size img) as [iw ih] eqn:Esz.
  match goal with |- context [add_object self ?c] => set (content := c) end.
  unfold add_object. intros H. injection H as <- <- <- <- <-.
  exists img, content. cbn. repeat split; try reflexivity. exact Esz.
Qed.

Lemma add_text_same_box (self : Page) (text : string) (x y : Q) (size : Z)
    (color : color_arg) (font : string) (bold italic : bool) (align : string)
    (underline strike : bool) (background : option color_arg)
    (max_width : option Q) (link : option string) (page' : Page)
    (printed : list string) :
  add_text self text x y size color font bold italic align underline strike
    background max_width link = Ok (page', printed) ->
  same_box self page'.
Proof.
  unfold add_text.
  destruct (resolve_color color) as [rgb|e]; cbn [mbind result_bind];
    [|discriminate].
  match goal with |- context [mbind _ ?m] => destruct m as [lines|e] end;
    cbn [mbind result_bind]; [|discriminate].
  intros H. now apply add_text_lines_frame in H as (Hbox & _).
Qed.

Lemma add_image_same_box (self : Page) (name : string) (x y : Q)
    (w h : option Q) (scale : Q) (caption : option string) (page' : Page)
    (printed : list string) :
  add_image self name x y w h scale caption = Ok (page', printed) ->
  same_box self page'.
Proof.
  unfold add_image. destruct (Qle_bool scale 0); [discriminate|].
  intros H. injection H as <- _. repeat split.
Qed.

(** A page put back in its place with the same box keeps the sizes. *)
Lemma dims_insert (ps : list Page) (i : nat) (page page' : Page) :
  ps !! i = Some page -> same_box page page' ->
  map (fun p => (width p, height p)) (<[i := page']> ps)
  = map (fun p => (width p, height p)) ps.
Proof.
  intros Hi (Hw & Hh & _). rewrite list_fmap_insert, Hw, Hh.
  apply list_insert_id. now rewrite list_lookup_fmap, Hi.
Qed.

Lemma add_fonts_dims (items : list (string * string)) (self : PDF) :
  page_dimensions (add_fonts self items).1 = page_dimensions self.
Proof.
  revert self. induction items as [|[k v] rest IH]; intros self; cbn [add_fonts];
    [reflexivity|].
  match goal with |- context [add_object self ?c] =>
    assert (page_dimensions (add_object self c).1 = page_dimensions self)
      as Hd by reflexivity;
    destruct (add_object self c) as [self1 n]
  end.
  specialize (IH self1). destruct (add_fonts self1 rest) as [self2 more].
  cbn [fst] in *. congruence.
Qed.

Lemma add_annotations_dims (ls : list Link) (self : PDF) :
  page_dimensions (add_annotations ls self).1 = page_dimensions self.
Proof.
  revert self. induction ls as [|l rest IH]; intros self; cbn [add_annotations];
    [reflexivity|].
  assert (page_dimensions (add_object self (annot_object l)).1
          = page_dimensions self) as Hd by reflexivity.
  destruct (add_object self (annot_object l)) as [self1 n].
  specialize (IH self1). destruct (add_annotations rest self1) as [self2 more].
  cbn [fst] in *. congruence.
Qed.

Lemma add_page_objects_dims (font_objs : list (string * nat))
    (ps : list Page) (refs : list nat) (self : PDF) :
  page_dimensions (add_page_objects font_objs ps refs self).1
  = page_dimensions self.
Proof.
  revert refs self. induction ps as [|page rest IH]; intros refs self;
    destruct refs as [|r refs]; cbn [add_page_objects]; try reflexivity.
  pose proof (add_annotations_dims (links page) self) as H1.
  destruct (add_annotations (links page) self) as [self1 annots].
  match goal with |- context [add_object self1 ?c] =>
    assert (page_dimensions (add_object self1 c).1 = page_dimensions self1)
      as H2 by reflexivity;
    destruct (add_object self1 c) as [self2 n]
  end.
  specialize (IH refs self2).
  destruct (add_page_objects font_objs rest refs self2) as [self3 more].
  cbn [fst] in *. congruence.
Qed.

Section Save.
Variable float_str : Q -> string.

Lemma add_content_objects_dims (image_sizes : gmap string (Z * Z))
    (show : bool) (ps : list Page) (idx : nat) (self self' : PDF) (nums : list nat) :
  add_content_objects float_str image_sizes show idx ps self = Ok (self', nums) ->
  page_dimensions self' = page_dimensions self.
Proof.
  revert idx self self' nums.
  induction ps as [|page rest IH]; intros idx self self' nums;
    cbn [add_content_objects].
  - intros H. now injection H as <- _.
  - destruct (page_stream _ _ _ _ _) as [stream|e]; cbn [mbind result_bind];
      [|discriminate].
    assert (page_dimensions (add_object self (stream_object stream)).1
            = page_dimensions self) as Hd by reflexivity.
    destruct (add_object self (stream_object stream)) as [self1 n].
    destruct (add_content_objects float_str image_sizes show (S idx) rest self1)
      as [[self2 more]|e] eqn:E2; cbn [mbind result_bind]; [|discriminate].
    intros H. injection H as <- _.
    apply IH in E2. cbn [fst] in Hd. congruence.
Qed.

Lemma finalize_dims (self self' : PDF) (show : bool) (cat : nat) :
  finalize float_str self show = Ok (self', cat) ->
  page_dimensions self' = page_dimensions self.
Proof.
  unfold finalize.
  pose proof (add_fonts_dims font_map self) as H1.
  destruct (add_fonts self font_map) as [s1 font_objs]. cbn [fst] in H1.
  destruct (resolve_pages _ (pages s1)) as [ps'|e]; cbn [mbind result_bind];
    [|discriminate].
  match goal with |- context [add_content_objects _ ?sz _ _ ?ps ?s] =>
    destruct (add_content_objects float_str sz show 0 ps s)
      as [[s2 nums]|e] eqn:E2
  end; cbn [mbind result_bind]; [|discriminate].
  apply add_content_objects_dims in E2. cbn [page_dimensions] in E2.
  pose proof (add_page_objects_dims font_objs (pages s2) nums s2) as H3.
  destruct (add_page_objects font_objs (pages s2) nums s2) as [s3 page_nums].
  cbn [fst] in H3. unfold add_object. intros H. injection H as <- _.
  cbn [page_dimensions]. congruence.
Qed.

End Save.

Section Built.
Variable float_str : Q -> string.
Variable open_image : string -> option DecodedImage.

Lemma images_named_grows (self self' : PDF) :
  images self' = images self -> length (objects self) <= length (objects self') ->
  images_named self -> images_named self'.
Proof.
  intros Hi Hl Hn name img n w h Hname. rewrite Hi in Hname.
  destruct (Hn name img n w h Hname) as (? & ? & ?). repeat split; auto; lia.
Qed.

(** What the calls keep, for every document they build. *)
Lemma built_inv (d : PDF) :
  built float_str open_image d ->
  numbered (objects d) /\ dims_match d /\ Forall usages_match (pages d) /\
  images_named d.
Proof.
  induction 1 as
    [ | self page_size orientation width height ph pv _ (Hn & Hd & Hu & Hi)
      | self self' i text x y size color font bold italic align underline strike
          background max_width link printed _ (Hn & Hd & Hu & Hi) Hcall
      | self self' i name x y w h scale caption printed _ (Hn & Hd & Hu & Hi) Hcall
      | self content _ (Hn & Hd & Hu & Hi)
      | self self' img_path compress r _ (Hn & Hd & Hu & Hi) Hcall
      | self self' fs fs' filename show _ (Hn & Hd & Hu & Hi) Hcall ].
  - split; [apply numbered_init|]. split; [reflexivity|]. split; [constructor|].
    intros name img n w h Hname. discriminate.
  - unfold add_page.
    match goal with |- context [let '(w, h) := ?e in _] => destruct e as [w h] end.
    cbn [fst pages objects images page_dimensions].
    split; [assumption|]. split.
    { unfold dims_match in *. cbn [pages page_dimensions].
      rewrite map_app, Hd. reflexivity. }
    split; [|assumption].
    apply Forall_app. split; [assumption|].
    constructor; [apply usages_match_init | constructor].
  - apply on_page_inv in Hcall
      as (page & page' & Hp & Hm & Hps & Ho & Him & Hdim).
    split; [now rewrite Ho|]. split.
    { unfold dims_match in *. rewrite Hdim, Hps, Hd. symmetry.
      eapply dims_insert; [eassumption|]. eapply add_text_same_box; eassumption. }
    split.
    { rewrite Hps. apply Forall_insert; [assumption|].
      eapply usages_match_add_text; [eassumption|].
      eapply Forall_lookup_1; eassumption. }
    apply (images_named_grows self); [assumption | rewrite Ho; lia | assumption].
  - apply on_page_inv in Hcall
      as (page & page' & Hp & Hm & Hps & Ho & Him & Hdim).
    split; [now rewrite Ho|]. split.
    { unfold dims_match in *. rewrite Hdim, Hps, Hd. symmetry.
      eapply dims_insert; [eassumption|]. eapply add_image_same_box; eassumption. }
    split.
    { rewrite Hps. apply Forall_insert; [assumption|].
      eapply usages_match_add_image; [eassumption|].
      eapply Forall_lookup_1; eassumption. }
    apply (images_named_grows self); [assumption | rewrite Ho; lia | assumption].
  - split; [now apply numbered_add_object|]. split; [exact Hd|].
    split; [exact Hu|].
    apply (images_named_grows self); [reflexivity | | assumption].
    unfold add_object. cbn. rewrite List.length_app. lia.
  - pose proof (numbered_embed_image _ _ _ _ _ _ Hcall Hn) as Hn'.
    destruct r as [[[name n] w] h].
    apply embed_image_inv in Hcall
      as (img & content & _ & Hsz & Hnum & Hname & Ho & Him & Hps & Hdim).
    split; [assumption|]. split.
    { unfold dims_match in *. now rewrite Hdim, Hps. }
    split; [now rewrite Hps|].
    intros name' img' n' w' h' Hl. rewrite Him in Hl.
    destruct (decide (name' = name)) as [->|Hne].
    + rewrite lookup_insert_eq in Hl. injection Hl as <- <- <- <-.
      rewrite Ho, List.length_app. cbn. repeat split; auto; lia.
    + rewrite lookup_insert_ne in Hl by congruence.
      destruct (Hi name' img' n' w' h' Hl) as (? & ? & ?).
      rewrite Ho, List.length_app. repeat split; auto; lia.
  - apply save_ok_inv in Hcall as (cat & E & _).
    pose proof (finalize_numbered _ _ _ _ _ Hn E) as Hn'.
    pose proof (finalize_dims _ _ _ _ _ E) as Hdim.
    apply finalize_layout in E
      as (s3 & font_objs & page_nums & Hg & Him & Hres & _ & _ & _ & Ho & _).
    cbn zeta in Ho.
    split; [assumption|]. split.
    { unfold dims_match in *. rewrite Hdim, Hd.
      clear -Hres. induction Hres as [|p p' ps ps' ((Hw & Hh & _) & _) _ IH];
        [reflexivity|].
      cbn [map]. now rewrite IH, Hw, Hh. }
    split.
    { clear -Hres Hu. induction Hres as [|p p' ps ps' Hp _ IH]; [constructor|].
      apply Forall_cons in Hu as [Hu1 Hu2]. constructor; [|now apply IH].
      destruct Hp as (_ & _ & Hie & _ & Hiu). unfold usages_match in *.
      rewrite Hie, Hiu, <- Hu1, map_map. reflexivity. }
    apply (images_named_grows self); [assumption | | assumption].
    pose proof (grows_length _ _ Hg).
    rewrite Ho, List.length_app, length_map, List.length_app. lia.
Qed.

(** For every document built by the calls, the objects carry the numbers
    1, 2, 3, ... in the order of the store. *)
Theorem built_objects_numbered (d : PDF) :
  built float_str open_image d -> numbered (objects d).
Proof. intros H. now apply built_inv in H. Qed.

(** For every document built by the calls, [page_dimensions] holds the
    width and the height of every page, in the order of the pages. *)
Theorem built_page_dimensions (d : PDF) :
  built float_str open_image d ->
  page_dimensions d = map (fun p => (width p, height p)) (pages d).
Proof. intros H. now apply built_inv in H. Qed.

(** For every document built by the calls, every page lists one usage per
    image placement, under the same names and in the same order. *)
Theorem built_usages_follow_placements (d : PDF) (page : Page) :
  built float_str open_image d -> page ∈ pages d ->
  map fst (image_usages page) = map ie_name (image_elements page).
Proof.
  intros H Hp. apply built_inv in H as (_ & _ & Hu & _).
  rewrite Forall_forall in Hu. exact (Hu page Hp).
Qed.

(** For every document built by the calls, [embed_image] files the image
    under a name no entry of [images] has yet, made of the number of the new
    object; the entries the document had are kept. *)
Theorem embed_image_fresh_name (d d' : PDF) (img_path : string) (compress : bool)
    (name : string) (n : nat) (w h : Z) :
  built float_str open_image d ->
  embed_image open_image d img_path compress = Ok (d', (name, n, w, h)) ->
  images d !! name = None /\
  name = "Im" +:+ str_nat (length (objects d) + 1) /\
  n = length (objects d') /\
  (exists img, open_image img_path = Some img /\ img_size img = (w, h) /\
               images d' !! name = Some (img, n, w, h)) /\
  forall other, other <> name -> images d' !! other = images d !! other.
Proof.
  intros H Hcall. apply built_inv in H as (_ & _ & _ & Hi).
  apply embed_image_inv in Hcall
    as (img & content & Hopen & Hsz & Hnum & Hname & Ho & Him & _ & _).
  split.
  { destruct (images d !! name) as [[[[img0 n0] w0] h0]|] eqn:E; [|reflexivity].
    destruct (Hi name img0 n0 w0 h0 E) as (Hname0 & Hle & _).
    rewrite Hname in Hname0. injection Hname0 as Heq.
    apply str_nat_inj in Heq. lia. }
  split; [now rewrite Hname, Hnum|].
  split. { rewrite Ho, List.length_app. cbn. lia. }
  split.
  { exists img. rewrite Him, lookup_insert_eq. auto. }
  intros other Hne. rewrite Him. now apply lookup_insert_ne.
Qed.

End Built.

(** The one-page documents of the scenarios are built by the calls. *)
Lemma built_text_doc (float_str : Q -> string)
    (open_image : string -> option DecodedImage) (text : string) :
  built float_str open_image (text_doc text).
Proof.
  unfold text_doc.
  pose proof (built_add_page float_str open_image init "A4" "portrait" None None
                50 50 (built_init _ _)) as Hd.
  destruct (add_page init "A4" "portrait" None None 50 50) as [d i].
  cbn [fst] in Hd.
  destruct (on_page d i _) as [[d' out]|e] eqn:E; [|exact Hd].
  exact (built_add_text _ _ _ _ _ _ _ _ _ _ _ _ _ _ _ _ _ _ _ _ Hd E).
Qed.

Lemma built_picture_doc (float_str : Q -> string) :
  built float_str open_dots picture_doc.
Proof.
  unfold picture_doc.
  pose proof (built_add_page float_str open_dots init "A4" "portrait" None None
                50 50 (built_init _ _)) as Hd.
  destruct (add_page init "A4" "portrait" None None 50 50) as [d i].
  cbn [fst] in Hd.
  destruct (embed_image open_dots d "dots.png" false) as [[d1 r]|e] eqn:E1;
    [|exact Hd].
  pose proof (built_embed_image _ _ _ _ _ _ _ Hd E1) as Hd1.
  destruct r as [[[name n] w] h].
  destruct (on_page d1 i _) as [[d2 out]|e] eqn:E2; [|exact Hd1].
  exact (built_add_image _ _ _ _ _ _ _ _ _ _ _ _ _ Hd1 E2).
Qed.

Lemma built_objects_numbered_witness :
  exists (self' : PDF) (fs' : gmap string bytes),
    save float_str_short picture_doc ∅ "pic.pdf" true = (Ok self', fs') /\
    built float_str_short open_dots self' /\
    length (objects self') = 9 /\
    numbered (objects self').
Proof.
  eexists _, _.
  assert (save float_str_short picture_doc ∅ "pic.pdf" true = (Ok _, _))
    as Hsave by (vm_compute; reflexivity).
  pose proof (built_save float_str_short open_dots _ _ _ _ _ _
                (built_picture_doc float_str_short) Hsave) as Hbuilt.
  split; [exact Hsave|]. split; [exact Hbuilt|].
  split; [vm_compute; reflexivity|].
  exact (built_objects_numbered float_str_short open_dots _ Hbuilt).
Defined.

Lemma built_page_dimensions_witness :
  built float_str_short (fun _ => None) (text_doc "Hello") /\
  page_dimensions (text_doc "Hello")
  = map (fun p => (width p, height p)) (pages (text_doc "Hello")).
Proof.
  split; [apply built_text_doc|].
  apply (built_page_dimensions float_str_short (fun _ => None)).
  apply built_text_doc.
Defined.

Lemma built_usages_follow_placements_witness :
  exists page,
    built float_str_short open_dots picture_doc /\
    page ∈ pages picture_doc /\
    image_usages page = [("Im1", None)] /\
    map fst (image_usages page) = map ie_name (image_elements page).
Proof.
  eexists.
  assert (pages picture_doc = [_]) as Hps by (vm_compute; reflexivity).
  assert (_ ∈ pages picture_doc) as Hp by (rewrite Hps; apply list_elem_of_here).
  split; [apply built_picture_doc|]. split; [exact Hp|].
  split; [reflexivity|].
  exact (built_usages_follow_placements float_str_short open_dots _ _
           (built_picture_doc _) Hp).
Defined.

Lemma embed_image_fresh_name_witness :
  let img := MkDecodedImage (2, 1)%Z
               ["255"%byte; "000"%byte; "000"%byte; "000"%byte; "000"%byte; "255"%byte]
               ["255"%byte; "216"%byte; "255"%byte; "217"%byte] in
  let open_image := fun path : string =>
    if String.eqb path "dots.png" then Some img else None in
  exists d',
    built float_str_short open_image (text_doc "Hello") /\
    embed_image open_image (text_doc "Hello") "dots.png" false
    = Ok (d', ("Im1", 1, 2%Z, 1%Z)) /\
    images (text_doc "Hello") !! "Im1" = None /\
    "Im1" = "Im" +:+ str_nat (length (objects (text_doc "Hello")) + 1) /\
    1 = length (objects d').
Proof.
  cbn zeta. eexists.
  match goal with |- built _ ?f _ /\ _ =>
    assert (embed_image f (text_doc "Hello") "dots.png" false
            = Ok (_, ("Im1", 1, 2%Z, 1%Z))) as Hcall by (vm_compute; reflexivity);
    destruct (embed_image_fresh_name float_str_short f _ _ _ _ _ _ _ _
                (built_text_doc _ _ _) Hcall) as (H1 & H2 & H3 & _)
  end.
  split; [apply built_text_doc|]. split; [exact Hcall|].
  split; [exact H1|]. split; [exact H2 | exact H3].
Defined.

End Documents.
